(** * LearnSphere: persistence store and LLM response normalisation

    A shallow embedding of the persistence layer ([DatabaseService], a Dexie
    wrapper), of the response normaliser ([cleanJsonResponse]) and of the
    generation orchestrators ([ExamSimulatorService.generateExamSeries],
    [LearningRoadService.generateLearningPath]), with the properties the
    specification states about them. Further properties follow, of the
    same code and of what stands next to it: the practice exams and the
    counts of the store, the quiz and learning material generators,
    [cleanAndParseJson] and the clocks of the pages.

    Conventions.
    - A JavaScript string is the list of its UTF-16 code units ([list N]).
    - A JavaScript number that the code only counts with (levels, scores,
      clock readings) is a [Z]; values that come out of [JSON.parse] are
      [jsval]s.
    - Asynchronous code is written in a state-and-exception monad over a
      [world] (clock readings consumed, requests issued so far); the
      text-completion capability, the file reader and the clock are
      parameters of the orchestrators.
    - A [Date] is its time value in milliseconds; the text [toISOString]
      writes is computed from it ([JsDate.isoText]).
    - Dexie tables are finite maps keyed by the primary key [id]; only
      store operations that complete are modelled. *)

From Stdlib Require Import ZArith NArith Ascii String List Lia Bool Permutation.
From Stdlib.Strings Require Import Byte.
From stdpp Require Import base option list gmap sorting pretty lexico.

Set Warnings "-register-all".

Local Open Scope N_scope.

(** ** JavaScript strings *)

Module JsString.

(** The code unit of an ASCII character, and the string of a literal. *)
Definition ch (a : ascii) : N := Byte.to_N (byte_of_ascii a).
Arguments ch a%_char.

Definition str (s : string) : list N := map ch (list_ascii_of_string s).
Arguments str s%_string.

(** [WhiteSpace] and [LineTerminator] of ECMAScript, what
    [String.prototype.trim] removes. *)
Definition isWhiteSpace (c : N) : bool :=
  ((9 <=? c) && (c <=? 13)) || (c =? 32) || (c =? 160) || (c =? 5760)
  || ((8192 <=? c) && (c <=? 8202)) || (c =? 8232) || (c =? 8233)
  || (c =? 8239) || (c =? 8287) || (c =? 12288) || (c =? 65279).

Fixpoint trimStart (s : list N) : list N :=
  match s with
  | c :: r => if isWhiteSpace c then trimStart r else s
  | [] => []
  end.

Definition trimEnd (s : list N) : list N := rev (trimStart (rev s)).

Definition trim (s : list N) : list N := trimEnd (trimStart s).

Fixpoint startsWith (s p : list N) {struct p} : bool :=
  match p, s with
  | [], _ => true
  | _ :: _, [] => false
  | a :: p', c :: s' => (c =? a) && startsWith s' p'
  end.

Definition endsWith (s p : list N) : bool := startsWith (rev s) (rev p).

(** [s.substring(a)] and [s.substring(a, b)]: both indices are clamped to
    [0 .. s.length] and swapped when out of order. *)
Definition clampIndex (s : list N) (i : Z) : nat :=
  Z.to_nat (Z.max 0 (Z.min i (Z.of_nat (length s)))).

Definition substring (s : list N) (a b : Z) : list N :=
  let a' := clampIndex s a in
  let b' := clampIndex s b in
  take (Nat.max a' b' - Nat.min a' b') (drop (Nat.min a' b') s).

Definition substringFrom (s : list N) (a : Z) : list N :=
  substring s a (Z.of_nat (length s)).

(** [s.indexOf(p)]: the least position where [p] occurs, or -1. *)
Fixpoint indexOfFrom (s p : list N) (i : Z) : Z :=
  if startsWith s p then i
  else match s with
       | [] => (-1)%Z
       | _ :: s' => indexOfFrom s' p (i + 1)%Z
       end.

Definition indexOf (s p : list N) : Z := indexOfFrom s p 0%Z.

(** [s.lastIndexOf(p)]: the greatest position where [p] occurs, or -1. *)
Fixpoint lastIndexOfFrom (s p : list N) (i found : Z) : Z :=
  let found' := if startsWith s p then i else found in
  match s with
  | [] => found'
  | _ :: s' => lastIndexOfFrom s' p (i + 1)%Z found'
  end.

Definition lastIndexOf (s p : list N) : Z := lastIndexOfFrom s p 0%Z (-1)%Z.

(** [l.join(sep)] for an array of strings. *)
Fixpoint join (sep : list N) (l : list (list N)) : list N :=
  match l with
  | [] => []
  | [x] => x
  | x :: rest => x ++ sep ++ join sep rest
  end.

(** Template literals print an integer in decimal. *)
Definition ofZ (z : Z) : list N := str (pretty z).

(** [s.padStart(targetLength, fill)]: [fill] is repeated, and cut, to
    make up the missing length. *)
Definition padStart (s : list N) (targetLength : nat) (fill : list N) : list N :=
  let missing := (targetLength - length s)%nat in
  match fill with
  | [] => s
  | _ => take missing (concat (replicate missing fill)) ++ s
  end.

End JsString.

Import JsString.

(** ** JavaScript values and JSON *)

Module Json.

(** A number that was read from a text is represented by the literal
    that was read, [NumLit]: it is the binary64 number nearest to what
    the literal denotes, which is zero for a literal that is small
    enough and an infinity for one that is large enough. Two literals of
    the same number are two values of the model: an equality of values
    that a theorem states is an equality of numbers in the code. [NumNaN]
    and [NumInfinity] are the non-finite values that arithmetic produces
    ([100 / undefined], [100 / 0]). *)
Inductive jsnum :=
| NumLit (lit : list N)
| NumNaN
| NumInfinity (negative : bool).

(** The values [JSON.parse] returns, plus the non-finite numbers. An
    object is the sequence of its own properties in insertion order
    (JavaScript lists array-index names first; no property below depends
    on the relative order of different names). *)
Inductive jsval :=
| JNull
| JBool (b : bool)
| JNum (n : jsnum)
| JStr (s : list N)
| JArr (elems : list jsval)
| JObj (props : list (list N * jsval)).

Definition JInt (z : Z) : jsval := JNum (NumLit (ofZ z)).

(** [o[k] = v]: an existing property keeps its place and takes the new
    value, a new one is added last. *)
Fixpoint obj_set (k : list N) (v : jsval) (props : list (list N * jsval))
  : list (list N * jsval) :=
  match props with
  | [] => [(k, v)]
  | (k', v') :: rest =>
      if decide (k' = k) then (k, v) :: rest else (k', v') :: obj_set k v rest
  end.

Fixpoint obj_get (k : list N) (props : list (list N * jsval)) : option jsval :=
  match props with
  | [] => None
  | (k', v') :: rest => if decide (k' = k) then Some v' else obj_get k rest
  end.

(** ** Number literals *)

Definition isDigit (c : N) : bool := (48 <=? c) && (c <=? 57).

Definition isNumberChar (c : N) : bool :=
  isDigit c || (c =? ch "-") || (c =? ch "+") || (c =? ch ".")
  || (c =? ch "e") || (c =? ch "E").

Fixpoint skipDigits (s : list N) : list N :=
  match s with
  | c :: r => if isDigit c then skipDigits r else s
  | [] => []
  end.

(** An exponent: e or E, an optional sign, one digit or more. *)
Definition isExponent (s : list N) : bool :=
  match s with
  | [] => true
  | c :: r =>
      if (c =? ch "e") || (c =? ch "E") then
        let r := match r with
                 | g :: r' => if (g =? ch "+") || (g =? ch "-") then r' else r
                 | [] => r
                 end in
        match r with
        | d :: r' => isDigit d && bool_decide (skipDigits r' = [])
        | [] => false
        end
      else false
  end.

(** A fraction, a dot and one digit or more, then the exponent. *)
Definition isFraction (s : list N) : bool :=
  match s with
  | c :: r =>
      if c =? ch "." then
        match r with
        | d :: r' => isDigit d && isExponent (skipDigits r')
        | [] => false
        end
      else isExponent s
  | [] => true
  end.

(** number ::= an optional minus, then 0 or a non-zero digit and more
    digits, then an optional fraction and an optional exponent. *)
Definition isNumberLiteral (s : list N) : bool :=
  let s := match s with
           | c :: r => if c =? ch "-" then r else s
           | [] => s
           end in
  match s with
  | d :: r =>
      if d =? ch "0" then isFraction r
      else isDigit d && isFraction (skipDigits r)
  | [] => false
  end.

(** ** The number a literal denotes *)

Fixpoint takeDigits (s : list N) : list N :=
  match s with
  | c :: r => if isDigit c then c :: takeDigits r else []
  | [] => []
  end.

Definition digitsValue (ds : list N) : Z :=
  foldl (fun n c => (10 * n + (Z.of_N c - 48))%Z) 0%Z ds.

(** A literal denotes plus or minus [mantissa * 10 ^ exponent]. *)
Record decimal := { negative : bool; mantissa : Z; exponent : Z }.

(** The digits before and after the dot make the mantissa; each digit
    after the dot takes one from the exponent. *)
Definition decimalOf (lit : list N) : decimal :=
  let '(minus, s) :=
    match lit with
    | c :: r => if c =? ch "-" then (true, r) else (false, lit)
    | [] => (false, lit)
    end in
  let whole := takeDigits s in
  let s := skipDigits s in
  let '(fraction, s) :=
    match s with
    | c :: r => if c =? ch "." then (takeDigits r, skipDigits r) else ([], s)
    | [] => ([], s)
    end in
  let written :=
    match s with
    | c :: r =>
        if (c =? ch "e") || (c =? ch "E") then
          match r with
          | g :: r' =>
              if g =? ch "-" then (- digitsValue (takeDigits r'))%Z
              else if g =? ch "+" then digitsValue (takeDigits r')
              else digitsValue (takeDigits r)
          | [] => 0%Z
          end
        else 0%Z
    | [] => 0%Z
    end in
  {| negative := minus;
     mantissa := digitsValue (whole ++ fraction);
     exponent := (written - Z.of_nat (length fraction))%Z |}.

(** Reading a literal rounds to the nearest binary64, ties to even. What
    is at most [2 ^ -1075], half the least positive number, is read as
    zero. *)
Definition roundsToZero (d : decimal) : bool :=
  (mantissa d =? 0)%Z
  || ((exponent d <? 0)%Z && (mantissa d * 2 ^ 1075 <=? 10 ^ (- exponent d))%Z).

(** What is at least [2 ^ 1024 - 2 ^ 970], half way from the greatest
    finite number to [2 ^ 1024], is read as an infinity. *)
Definition roundsToInfinity (d : decimal) : bool :=
  if (0 <=? exponent d)%Z
  then (2 ^ 1024 - 2 ^ 970 <=? mantissa d * 10 ^ exponent d)%Z
  else ((2 ^ 1024 - 2 ^ 970) * 10 ^ (- exponent d) <=? mantissa d)%Z.

Definition isZero (lit : list N) : bool := roundsToZero (decimalOf lit).
Definition isInfinite (lit : list N) : bool := roundsToInfinity (decimalOf lit).
Definition isNegativeZero (lit : list N) : bool :=
  negative (decimalOf lit) && roundsToZero (decimalOf lit).

(** ToBoolean. *)
Definition truthy (v : jsval) : bool :=
  match v with
  | JNull => false
  | JBool b => b
  | JNum (NumLit lit) => negb (isZero lit)
  | JNum NumNaN => false
  | JNum (NumInfinity _) => true
  | JStr s => negb (bool_decide (s = []))
  | JArr _ | JObj _ => true
  end.

(** [a || b] where [a] is a property that may be absent. *)
Definition orElse (a : option jsval) (b : jsval) : jsval :=
  match a with
  | Some v => if truthy v then v else b
  | None => b
  end.

(** ** JSON.stringify *)

Definition hexDigit (n : N) : N :=
  if n <? 10 then 48 + n else 87 + n.

(** QuoteJSONString for one code unit. Lone surrogates are written as
    they are. *)
Definition quoteChar (c : N) : list N :=
  if c =? 8 then str "\b"
  else if c =? 9 then str "\t"
  else if c =? 10 then str "\n"
  else if c =? 12 then str "\f"
  else if c =? 13 then str "\r"
  else if c =? 34 then [92; 34]
  else if c =? 92 then [92; 92]
  else if c <? 32 then str "\u00" ++ [hexDigit (c / 16); hexDigit (c mod 16)]
  else [c].

Definition quote (s : list N) : list N :=
  [34] ++ concat (map quoteChar s) ++ [34].

(** A finite number is written by a literal that denotes it: the one of
    the model, where the code writes the shortest one. An infinity and
    [NaN] are written [null], and zero is written without its sign. *)
Definition writtenNumber (lit : list N) : list N :=
  if isInfinite lit then str "null"
  else if isNegativeZero lit then str "0"
  else lit.

Definition stringifyNum (n : jsnum) : list N :=
  match n with
  | NumLit lit => writtenNumber lit
  | NumNaN | NumInfinity _ => str "null"
  end.

Fixpoint JSON_stringify (v : jsval) : list N :=
  match v with
  | JNull => str "null"
  | JBool true => str "true"
  | JBool false => str "false"
  | JNum n => stringifyNum n
  | JStr s => quote s
  | JArr [] => str "[]"
  | JArr (x :: l) =>
      str "[" ++ JSON_stringify x
      ++ concat (map (fun y => str "," ++ JSON_stringify y) l) ++ str "]"
  | JObj [] => str "{}"
  | JObj ((k, x) :: l) =>
      str "{" ++ quote k ++ str ":" ++ JSON_stringify x
      ++ concat (map (fun kv => str "," ++ quote (fst kv) ++ str ":"
                                ++ JSON_stringify (snd kv)) l)
      ++ str "}"
  end.

(** What [JSON.parse] returns: numbers read from literals, and objects
    whose property names differ. *)
Fixpoint wellFormed (v : jsval) : bool :=
  match v with
  | JNull | JBool _ | JStr _ => true
  | JNum (NumLit lit) => forallb isNumberChar lit && isNumberLiteral lit
  | JNum _ => false
  | JArr l => forallb wellFormed l
  | JObj props =>
      bool_decide (NoDup (map fst props))
      && forallb (fun kv => wellFormed (snd kv)) props
  end.

(** A number that [JSON.stringify] writes without loss: finite, and not
    the negative zero. *)
Definition lossless (lit : list N) : bool :=
  negb (isInfinite lit) && negb (isNegativeZero lit).

(** What [JSON.stringify] writes without loss: such numbers, and objects
    whose property names differ. *)
Fixpoint jsonRepresentable (v : jsval) : bool :=
  match v with
  | JNull | JBool _ | JStr _ => true
  | JNum (NumLit lit) => lossless lit && (forallb isNumberChar lit && isNumberLiteral lit)
  | JNum _ => false
  | JArr l => forallb jsonRepresentable l
  | JObj props =>
      bool_decide (NoDup (map fst props))
      && forallb (fun kv => jsonRepresentable (snd kv)) props
  end.

(** ** JSON.parse *)

Inductive presult (A : Type) :=
| POk (a : A) (rest : list N)
| PSyntaxError
| POutOfFuel.
Arguments POk {A} a rest.
Arguments PSyntaxError {A}.
Arguments POutOfFuel {A}.

Definition isJsonWs (c : N) : bool :=
  (c =? 32) || (c =? 9) || (c =? 10) || (c =? 13).

Fixpoint skipWs (s : list N) : list N :=
  match s with
  | c :: r => if isJsonWs c then skipWs r else s
  | [] => []
  end.

Definition hexValue (c : N) : option N :=
  if isDigit c then Some (c - 48)
  else if (97 <=? c) && (c <=? 102) then Some (c - 87)
  else if (65 <=? c) && (c <=? 70) then Some (c - 55)
  else None.

Definition consChar (c : N) (k : presult (list N)) : presult (list N) :=
  match k with
  | POk t rest => POk (c :: t) rest
  | err => err
  end.

(** The characters of a string token up to its closing quote. *)
Fixpoint parseChars (s : list N) : presult (list N) :=
  match s with
  | [] => PSyntaxError
  | c :: r =>
      if c =? 34 then POk [] r
      else if c =? 92 then
        match r with
        | [] => PSyntaxError
        | e :: r1 =>
            if e =? 34 then consChar 34 (parseChars r1)
            else if e =? 92 then consChar 92 (parseChars r1)
            else if e =? ch "/" then consChar 47 (parseChars r1)
            else if e =? ch "b" then consChar 8 (parseChars r1)
            else if e =? ch "f" then consChar 12 (parseChars r1)
            else if e =? ch "n" then consChar 10 (parseChars r1)
            else if e =? ch "r" then consChar 13 (parseChars r1)
            else if e =? ch "t" then consChar 9 (parseChars r1)
            else if e =? ch "u" then
              match r1 with
              | h1 :: h2 :: h3 :: h4 :: r2 =>
                  match hexValue h1, hexValue h2, hexValue h3, hexValue h4 with
                  | Some a, Some b, Some c', Some d =>
                      consChar (4096 * a + 256 * b + 16 * c' + d) (parseChars r2)
                  | _, _, _, _ => PSyntaxError
                  end
              | _ => PSyntaxError
              end
            else PSyntaxError
        end
      else if c <? 32 then PSyntaxError
      else consChar c (parseChars r)
  end.

Fixpoint spanNumber (s : list N) : list N * list N :=
  match s with
  | c :: r =>
      if isNumberChar c then let '(a, b) := spanNumber r in (c :: a, b)
      else ([], s)
  | [] => ([], [])
  end.

(** [null], [true], [false] and numbers. *)
Definition parseAtom (s : list N) : presult jsval :=
  if startsWith s (str "null") then POk JNull (drop 4 s)
  else if startsWith s (str "true") then POk (JBool true) (drop 4 s)
  else if startsWith s (str "false") then POk (JBool false) (drop 5 s)
  else
    let '(lit, rest) := spanNumber s in
    if isNumberLiteral lit then POk (JNum (NumLit lit)) rest else PSyntaxError.

(** One step of each of the three mutually recursive parsers, given the
    parsers for what is nested one level deeper. *)
Definition valueStep
  (elements : list N -> list jsval -> presult jsval)
  (members : list N -> list (list N * jsval) -> presult jsval)
  (s : list N) : presult jsval :=
  match skipWs s with
  | [] => PSyntaxError
  | c :: r =>
      if c =? ch "{" then
        match skipWs r with
        | c' :: r' =>
            if c' =? ch "}" then POk (JObj []) r'
            else members (c' :: r') []
        | [] => PSyntaxError
        end
      else if c =? ch "[" then
        match skipWs r with
        | c' :: r' =>
            if c' =? ch "]" then POk (JArr []) r'
            else elements (c' :: r') []
        | [] => PSyntaxError
        end
      else if c =? 34 then
        match parseChars r with
        | POk t rest => POk (JStr t) rest
        | _ => PSyntaxError
        end
      else parseAtom (c :: r)
  end.

(** An element, then a comma and more elements or the closing bracket. *)
Definition elementsStep
  (value : list N -> presult jsval)
  (elements : list N -> list jsval -> presult jsval)
  (s : list N) (acc : list jsval) : presult jsval :=
  match value s with
  | POk v r =>
      match skipWs r with
      | c :: r' =>
          if c =? ch "," then elements r' (acc ++ [v])
          else if c =? ch "]" then POk (JArr (acc ++ [v])) r'
          else PSyntaxError
      | [] => PSyntaxError
      end
  | err => err
  end.

(** A name, a colon and a value, then a comma and more members or the
    closing brace. A name that occurs again replaces the earlier value. *)
Definition membersStep
  (value : list N -> presult jsval)
  (members : list N -> list (list N * jsval) -> presult jsval)
  (s : list N) (acc : list (list N * jsval)) : presult jsval :=
  match skipWs s with
  | c :: r =>
      if c =? 34 then
        match parseChars r with
        | POk k r1 =>
            match skipWs r1 with
            | c1 :: r2 =>
                if c1 =? ch ":" then
                  match value r2 with
                  | POk v r3 =>
                      match skipWs r3 with
                      | c3 :: r4 =>
                          if c3 =? ch "," then members r4 (obj_set k v acc)
                          else if c3 =? ch "}" then POk (JObj (obj_set k v acc)) r4
                          else PSyntaxError
                      | [] => PSyntaxError
                      end
                  | err => err
                  end
                else PSyntaxError
            | [] => PSyntaxError
            end
        | _ => PSyntaxError
        end
      else PSyntaxError
  | [] => PSyntaxError
  end.

Fixpoint parseValue (fuel : nat) (s : list N) {struct fuel} : presult jsval :=
  match fuel with
  | O => POutOfFuel
  | S fuel => valueStep (parseElements fuel) (parseMembers fuel) s
  end

with parseElements (fuel : nat) (s : list N) (acc : list jsval) {struct fuel}
  : presult jsval :=
  match fuel with
  | O => POutOfFuel
  | S fuel => elementsStep (parseValue fuel) (parseElements fuel) s acc
  end

with parseMembers (fuel : nat) (s : list N) (acc : list (list N * jsval)) {struct fuel}
  : presult jsval :=
  match fuel with
  | O => POutOfFuel
  | S fuel => membersStep (parseValue fuel) (parseMembers fuel) s acc
  end.

(** Each recursive call follows the consumption of a character, except
    the call from a list of elements to its first value: twice the length
    of the text bounds the depth. *)
Definition parseFuel (s : list N) : nat := 2 * length s + 1.

Definition trimWs (s : list N) : list N := rev (skipWs (rev (skipWs s))).

(** [JSON.parse]: a JSON text is one value between optional white space;
    [None] stands for the [SyntaxError] it throws. *)
Definition JSON_parse (s : list N) : option jsval :=
  let text := trimWs s in
  match parseValue (parseFuel text) text with
  | POk v [] => Some v
  | _ => None
  end.

End Json.

Import Json.

(** ** Effects *)

Module Effects.

(** What a [throw] or a rejected promise carries: an instance of [Error]
    or any other value. The message of an error the engine raises is
    engine-specific; the code catches and discards every such error where
    it can arise, and the model leaves the message empty. *)
Record js_error := { error_name : list N; error_message : list N }.

Definition Error (message : list N) : js_error :=
  {| error_name := str "Error"; error_message := message |}.
Definition TypeError : js_error :=
  {| error_name := str "TypeError"; error_message := [] |}.
Definition SyntaxError : js_error :=
  {| error_name := str "SyntaxError"; error_message := [] |}.

Inductive thrown :=
| ErrorInstance (e : js_error)
| OtherValue (v : jsval).

Inductive outcome (A : Type) :=
| Returns (a : A)
| Throws (t : thrown).
Arguments Returns {A} a.
Arguments Throws {A} t.

Record File := { file_name : list N; file_type : list N }.

(** What an orchestrator does to the outside, in order: a request to the
    text-completion capability with what came back, the reading of a file
    with what came back, a wait. *)
Inductive event :=
| Request (prompt : list N) (response : outcome (list N))
| ReadFile (file : File) (result : outcome (list N))
| Delay (ms : Z).

Record world := { clockReads : nat; events : list event }.

(** The collaborators: the n-th reading of the clock, the text-completion
    capability (which may answer differently depending on what happened
    before) and the file reader. *)
Record env := {
  clock : nat -> Z;
  getOssResponse : list event -> list N -> outcome (list N);
  fileToBase64 : File -> outcome (list N)
}.

Definition M (A : Type) : Type := world -> outcome A * world.

Definition ret {A} (a : A) : M A := fun w => (Returns a, w).

Definition bind {A B} (m : M A) (k : A -> M B) : M B :=
  fun w =>
    match m w with
    | (Returns a, w') => k a w'
    | (Throws t, w') => (Throws t, w')
    end.

Definition throw {A} (t : thrown) : M A := fun w => (Throws t, w).

(** [try { m } catch (e) { h e }]: what [m] did before it threw stays done. *)
Definition tryCatch {A} (m : M A) (h : thrown -> M A) : M A :=
  fun w =>
    match m w with
    | (Returns a, w') => (Returns a, w')
    | (Throws t, w') => h t w'
    end.

Definition lift {A} (o : outcome A) : M A := fun w => (o, w).

Definition emit (e : event) : M unit :=
  fun w => (Returns tt, {| clockReads := clockReads w; events := events w ++ [e] |}).

(** [Date.now()] and [new Date()]. *)
Definition dateNow (E : env) : M Z :=
  fun w => (Returns (clock E (clockReads w)),
            {| clockReads := S (clockReads w); events := events w |}).

(** [await getOssResponse(prompt)] *)
Definition awaitOss (E : env) (prompt : list N) : M (list N) :=
  fun w =>
    let response := getOssResponse E (events w) prompt in
    (response,
     {| clockReads := clockReads w; events := events w ++ [Request prompt response] |}).

Definition awaitFile (E : env) (f : File) : M (list N) :=
  fun w =>
    let result := fileToBase64 E f in
    (result,
     {| clockReads := clockReads w; events := events w ++ [ReadFile f result] |}).

Definition initialWorld : world := {| clockReads := 0; events := [] |}.

(** [getGeminiResponse] of modelService.ts: whatever the call of the SDK
    threw, the error thrown is a new one with a fixed message.
    [generateContent] stands for the call and the reading of its text. *)
Definition getGeminiResponse
  (generateContent : list event -> list N -> outcome (list N)) (prompt : list N)
  : M (list N) :=
  tryCatch
    (fun w =>
       let response := generateContent (events w) prompt in
       (response,
        {| clockReads := clockReads w; events := events w ++ [Request prompt response] |}))
    (fun _ => throw (ErrorInstance (Error (str "Failed to extract text from the image.")))).

End Effects.

Import Effects.

Notation "'let!' x ':=' m 'in' k" := (bind m (fun x => k))
  (at level 10, x name, m at level 100, k at level 200, only parsing).
Notation "'run!' m 'in' k" := (bind m (fun _ => k))
  (at level 10, m at level 100, k at level 200, only parsing).

Definition dq : list N := [34].
Definition quoted (s : string) : list N := dq ++ str s ++ dq.
Arguments quoted s%_string.

(** ** modelService.ts *)

Module ModelService.

(** [cleanAndParseJson]. The error thrown inside the [try] is caught by
    its own [catch], which throws another. *)
Definition cleanAndParseJson (rawResponseText : list N) : outcome (list N) :=
  let attempt :=
    let jsonStartIndex := indexOf rawResponseText (str "[") in
    let objectStartIndex := indexOf rawResponseText (str "{") in
    let startIndex :=
      if (jsonStartIndex >? -1)%Z && (objectStartIndex >? -1)%Z
      then Z.min jsonStartIndex objectStartIndex
      else if (jsonStartIndex >? -1)%Z then jsonStartIndex
      else objectStartIndex in
    if (startIndex =? -1)%Z
    then Throws (ErrorInstance (Error
           (str "No JSON array or object found in the response string.")))
    else Returns (substringFrom rawResponseText startIndex) in
  match attempt with
  | Returns jsonString => Returns jsonString
  | Throws _ =>
      Throws (ErrorInstance (Error (str "Invalid JSON format in the AI response.")))
  end.

End ModelService.

(** ** examSimulatorService.ts *)

Module SimulatorSettings.
Record t := {
  numberOfExams : Z;
  questionsPerExam : option Z;
  timePerExam : option Z
}.
End SimulatorSettings.

(** The fields filled with [examData.x || ...] hold whatever the parsed
    response holds, hence [jsval]; [questions] is an array. [score],
    [completedAt] and [timeTaken] are absent from an exam as it is
    generated and as it is loaded; the simulator page sets them on the
    exam object when an attempt is submitted. *)
Module SimulatorExam.
Record t := {
  id : list N;
  title : jsval;
  description : jsval;
  instructions : jsval;
  questions : jsval;
  totalPoints : jsval;
  estimatedTime : option Z;
  difficultyLevel : Z;
  difficultyLabel : list N;
  createdAt : Z;
  score : option jsval;
  completedAt : option (list N);
  timeTaken : option jsval
}.
End SimulatorExam.

Module ExamSeries.
Record t := {
  id : list N;
  topic : list N;
  description : list N;
  exams : list SimulatorExam.t;
  totalExams : Z;
  createdAt : Z
}.
End ExamSeries.

Module DifficultyConfig.
Record t := {
  label : list N;
  description : list N;
  complexity : list N;
  cognitiveLevel : list N
}.
End DifficultyConfig.

Module ExamSimulatorService.

Import SimulatorSettings.

Definition configs (level : Z) : option DifficultyConfig.t :=
  if (level =? 1)%Z then Some {|
    DifficultyConfig.label := str "Foundation";
    DifficultyConfig.description := str "Basic understanding - covers fundamental concepts";
    DifficultyConfig.complexity := str "Focus on recall and basic understanding. Questions should test foundational knowledge and basic concepts.";
    DifficultyConfig.cognitiveLevel := str "Remember and Understand" |}
  else if (level =? 2)%Z then Some {|
    DifficultyConfig.label := str "Beginner";
    DifficultyConfig.description := str "Slightly more challenging - requires basic application";
    DifficultyConfig.complexity := str "Increase complexity by 15-20%. Include basic application questions and simple problem-solving.";
    DifficultyConfig.cognitiveLevel := str "Understand and Apply" |}
  else if (level =? 3)%Z then Some {|
    DifficultyConfig.label := str "Intermediate";
    DifficultyConfig.description := str "Moderate difficulty - requires deeper understanding";
    DifficultyConfig.complexity := str "Increase complexity by 35-40%. Require deeper understanding, analysis, and multi-step reasoning.";
    DifficultyConfig.cognitiveLevel := str "Apply and Analyze" |}
  else if (level =? 4)%Z then Some {|
    DifficultyConfig.label := str "Advanced";
    DifficultyConfig.description := str "Challenging - requires critical thinking";
    DifficultyConfig.complexity := str "Increase complexity by 55-60%. Include critical thinking, synthesis of concepts, and complex problem-solving.";
    DifficultyConfig.cognitiveLevel := str "Analyze and Evaluate" |}
  else if (level =? 5)%Z then Some {|
    DifficultyConfig.label := str "Expert";
    DifficultyConfig.description := str "Very challenging - requires mastery";
    DifficultyConfig.complexity := str "Increase complexity by 75-80%. Require mastery-level understanding, creative application, and expert-level reasoning.";
    DifficultyConfig.cognitiveLevel := str "Evaluate and Create" |}
  else if (level =? 6)%Z then Some {|
    DifficultyConfig.label := str "Master";
    DifficultyConfig.description := str "Extremely challenging - professional level";
    DifficultyConfig.complexity := str "Increase complexity by 90-95%. Professional-level questions requiring deep expertise and innovative thinking.";
    DifficultyConfig.cognitiveLevel := str "Create and Innovate" |}
  else if (level =? 7)%Z then Some {|
    DifficultyConfig.label := str "Genius";
    DifficultyConfig.description := str "Ultimate challenge - if you ace this, you're an expert";
    DifficultyConfig.complexity := str "Maximum complexity (100%+). If someone scores 80%+ here, they should be able to ace any standard exam on this topic.";
    DifficultyConfig.cognitiveLevel := str "Master and Innovate" |}
  else None.

Definition config1 : DifficultyConfig.t :=
  match configs 1 with
  | Some c => c
  | None => {| DifficultyConfig.label := []; DifficultyConfig.description := [];
               DifficultyConfig.complexity := []; DifficultyConfig.cognitiveLevel := [] |}
  end.

(** [configs[level] || configs[1]] *)
Definition getDifficultyConfig (level : Z) : DifficultyConfig.t :=
  match configs level with
  | Some c => c
  | None => config1
  end.

Definition createExamSeriesPrompt
  (description : list N) (settings : SimulatorSettings.t)
  (hasUploadedFiles : bool) (examLevel : Z) : list N :=
  let difficultyConfig := getDifficultyConfig examLevel in
  let label := DifficultyConfig.label in
  let complexity := DifficultyConfig.complexity in
  let cognitiveLevel := DifficultyConfig.cognitiveLevel in
  let cfg_description := DifficultyConfig.description in
  str "You are an expert exam creator and educational assessment specialist. "
  ++ (if hasUploadedFiles
    then (str "CAREFULLY ANALYZE the uploaded exam/study materials first. Study the question types, difficulty level, subject matter, cognitive complexity, and assessment style of the original exam.")
    else ([])) ++ str " 

Create a comprehensive practice exam for LEVEL " ++ ofZ examLevel ++ str " of "
  ++ ofZ (numberOfExams settings) ++ str " total exams with PROGRESSIVE DIFFICULTY.

EXAM DESCRIPTION: " ++ dq ++ description ++ dq ++ str "

DIFFICULTY LEVEL " ++ ofZ examLevel ++ str ": " ++ label difficultyConfig ++ str "
COMPLEXITY INSTRUCTION: " ++ complexity difficultyConfig ++ str "
COGNITIVE LEVEL: " ++ cognitiveLevel difficultyConfig ++ str "
DESCRIPTION: " ++ cfg_description difficultyConfig ++ str "

EXAM REQUIREMENTS:
- Number of questions: ANALYZE the uploaded exam to determine appropriate question count (typically 15-25 questions)
- Question types: MATCH the question types found in the uploaded exam (multiple choice, short answer, essay, etc.)
- Time limit: CALCULATE appropriate time based on question count and complexity (typically 1-3 minutes per question)
- Difficulty Level: " ++ ofZ examLevel ++ str "/7 (" ++ label difficultyConfig ++ str ")

" ++ (if hasUploadedFiles
    then (str "
CRITICAL ANALYSIS REQUIREMENTS:
1. CONTENT ANALYSIS: Identify all topics, concepts, and subject areas covered in the uploaded exam
2. STYLE ANALYSIS: Study the question format, wording style, and presentation approach
3. DIFFICULTY ANALYSIS: Assess the cognitive level, question count, and time allocation from the original exam
4. PATTERN RECOGNITION: Identify question patterns, common structures, and assessment methods
5. SCOPE ANALYSIS: Understand the breadth and depth of content coverage

PROGRESSIVE DIFFICULTY STRATEGY:
- Base ALL questions on content and concepts from the uploaded exam
- Maintain the same subject matter and topic areas across all levels
- MATCH the question count and time allocation style of the original exam
- USE the same question types found in the uploaded exam
- Level " ++ ofZ examLevel ++ str " should be " ++ complexity difficultyConfig ++ str "
- Ensure questions test the same learning objectives but at Level " ++ ofZ examLevel
      ++ str " complexity
- Use the cognitive level: " ++ cognitiveLevel difficultyConfig ++ str "
")
    else (str "
DIFFICULTY PROGRESSION STRATEGY:
- Create questions appropriate for Level " ++ ofZ examLevel ++ str " difficulty
- Use standard academic question counts (15-25 questions)
- Set appropriate time limits (45-90 minutes typical)
- Include variety of question types (multiple choice, short answer, essay)
- Focus on " ++ cognitiveLevel difficultyConfig ++ str " cognitive skills
- " ++ complexity difficultyConfig ++ str "
- Ensure educational value and clear learning objectives
")) ++ str "

FORMAT YOUR RESPONSE AS JSON:

{
  " ++ dq ++ str "title" ++ dq ++ str ": " ++ dq ++ str "Level " ++ ofZ examLevel
  ++ str ": " ++ label difficultyConfig ++ str " - [Subject] Practice Exam" ++ dq ++ str ",
  " ++ quoted "description" ++ str ": " ++ dq ++ str "Level " ++ ofZ examLevel
  ++ str " exam focusing on " ++ cfg_description difficultyConfig ++ dq ++ str ",
  " ++ quoted "instructions" ++ str ": " ++ dq
  ++ str "Clear instructions for taking this Level " ++ ofZ examLevel ++ str " exam" ++ dq
  ++ str ",
  " ++ quoted "questions" ++ str ": [
    {
      " ++ quoted "id" ++ str ": " ++ quoted "q1" ++ str ",
      " ++ quoted "question" ++ str ": " ++ dq ++ str "Question text appropriate for Level "
  ++ ofZ examLevel ++ str " difficulty" ++ dq ++ str ",
      " ++ dq ++ str "type" ++ dq ++ str ": " ++ dq
  ++ str "multiple-choice|true-false|short-answer|essay|fill-blank|matching" ++ dq ++ str ",
      " ++ dq ++ str "options" ++ dq ++ str ": [" ++ dq ++ str "Option A" ++ dq ++ str ", "
  ++ dq ++ str "Option B" ++ dq ++ str ", " ++ dq ++ str "Option C" ++ dq ++ str ", " ++ dq
  ++ str "Option D" ++ dq ++ str "], // Only for multiple choice
      " ++ dq ++ str "correctAnswer" ++ dq ++ str ": " ++ dq
  ++ str "Correct answer or option index (0-3 for multiple choice)" ++ dq ++ str ",
      " ++ dq ++ str "points" ++ dq ++ str ": 5,
      " ++ dq ++ str "explanation" ++ dq ++ str ": " ++ dq
  ++ str "Detailed explanation of the correct answer and why others are wrong" ++ dq
  ++ str ",
      " ++ dq ++ str "difficulty" ++ dq ++ str ": " ++ dq
  ++ str "Easy|Medium|Hard|Very Hard|Expert" ++ dq ++ str "
    }
  ],
  " ++ dq ++ str "totalPoints" ++ dq ++ str ": 100,
  " ++ dq ++ str "estimatedTime" ++ dq ++ str ": " ++ dq
  ++ str "CALCULATE appropriate time based on question count and complexity" ++ dq ++ str ",
  " ++ dq ++ str "difficultyLevel" ++ dq ++ str ": " ++ ofZ examLevel ++ str ",
  " ++ dq ++ str "difficultyLabel" ++ dq ++ str ": " ++ dq ++ label difficultyConfig ++ dq
  ++ str "
}

CRITICAL REQUIREMENTS:
- Return ONLY valid JSON, no additional text or markdown
- Determine appropriate number of questions based on uploaded exam analysis (15-25 typical)
- Match question types to those found in uploaded exam or use academic standards
- Calculate realistic time limits based on question complexity and count
- For multiple choice questions, correctAnswer should be the index (0-3)
- For other question types, correctAnswer should be the actual answer text
- Points should total approximately 100 points across all questions
- Each question should have a clear, educational explanation
- Questions should be professional and well-written
- Make questions appropriately challenging for Level " ++ ofZ examLevel ++ str "
- Maintain academic integrity and educational value
- Ensure questions are fair, unbiased, and clearly worded
- Focus on " ++ cognitiveLevel difficultyConfig ++ str " cognitive skills".

Definition cleanJsonResponse (text : list N) : list N :=
  let cleaned := trim text in
  let cleaned :=
    if startsWith cleaned (str "```json") then substringFrom cleaned 7
    else if startsWith cleaned (str "```") then substringFrom cleaned 3
    else cleaned in
  let cleaned :=
    if endsWith cleaned (str "```")
    then substring cleaned 0 (Z.of_nat (length cleaned) - 3)
    else cleaned in
  let cleaned := trim cleaned in
  let openBrace := indexOf cleaned (str "{") in
  let openBracket := indexOf cleaned (str "[") in
  let closeBrace := lastIndexOf cleaned (str "}") in
  let closeBracket := lastIndexOf cleaned (str "]") in
  let '(startIndex, endIndex) :=
    if negb (openBrace =? -1)%Z && ((openBracket =? -1)%Z || (openBrace <? openBracket)%Z)
    then (openBrace, closeBrace)
    else if negb (openBracket =? -1)%Z
    then (openBracket, closeBracket)
    else ((-1)%Z, (-1)%Z) in
  let cleaned :=
    if negb (startIndex =? -1)%Z && negb (endIndex =? -1)%Z && (startIndex <? endIndex)%Z
    then substring cleaned startIndex (endIndex + 1)
    else cleaned in
  trim cleaned.

(** [v.k] for the property names the services read ([title], [questions],
    [id], [points], ...): own properties of an object, undefined on any
    other value but [null], where the access throws. *)
Definition prop (v : jsval) (k : list N) : option jsval :=
  match v with
  | JObj props => obj_get k props
  | _ => None
  end.

(** [{...v}]: the own enumerable properties, set one after the other. *)
Definition spread (v : jsval) : list (list N * jsval) :=
  let copy := foldl (fun acc '(k, x) => obj_set k x acc) [] in
  match v with
  | JObj props => copy props
  | JArr l => copy (imap (fun i x => (ofZ (Z.of_nat i), x)) l)
  | JStr s => copy (imap (fun i c => (ofZ (Z.of_nat i), JStr [c])) s)
  | _ => []
  end.

(** [Math.round(100 / settings.questionsPerExam)], for an integer or an
    absent [questionsPerExam]: [Math.round] rounds halves up. *)
Definition defaultPoints (settings : SimulatorSettings.t) : jsval :=
  match questionsPerExam settings with
  | None => JNum NumNaN
  | Some 0%Z => JNum (NumInfinity false)
  | Some n => JInt ((200 + n) / (2 * n))
  end.

(** The callback of [examData.questions.map]. *)
Definition buildQuestion (settings : SimulatorSettings.t) (level : Z)
  (index : nat) (q : jsval) : outcome jsval :=
  match q with
  | JNull => Throws (ErrorInstance TypeError)
  | _ =>
      let withId :=
        obj_set (str "id")
          (orElse (prop q (str "id"))
             (JStr (str "q" ++ ofZ level ++ str "_" ++ ofZ (Z.of_nat index + 1))))
          (spread q) in
      Returns (JObj (obj_set (str "points")
                       (orElse (prop q (str "points")) (defaultPoints settings))
                       withId))
  end.

Fixpoint mapQuestions (settings : SimulatorSettings.t) (level : Z)
  (index : nat) (qs : list jsval) : outcome (list jsval) :=
  match qs with
  | [] => Returns []
  | q :: rest =>
      match buildQuestion settings level index q with
      | Throws t => Throws t
      | Returns q' =>
          match mapQuestions settings level (S index) rest with
          | Throws t => Throws t
          | Returns rest' => Returns (q' :: rest')
          end
      end
  end.

(** The body of the [try] of one level: parse the cleaned text and build
    the exam. The fields are evaluated in the order they are written. *)
Definition parsedExam (E : env) (seriesTopic : list N)
  (settings : SimulatorSettings.t) (examTime : Z) (level : Z)
  (cleanedText : list N) : M SimulatorExam.t :=
  let! examData := lift (match JSON_parse cleanedText with
                    | Some v => Returns v
                    | None => Throws (ErrorInstance SyntaxError)
                    end) in
  (* console.log reads examData.title *)
  run! match examData with
      | JNull => throw (ErrorInstance TypeError)
      | _ => ret tt
      end in
  let difficultyConfig := getDifficultyConfig level in
  let! now := dateNow E in
  let! questions := lift (match prop examData (str "questions") with
                     | Some (JArr qs) => mapQuestions settings level 0 qs
                     | _ => Throws (ErrorInstance TypeError)
                     end) in
  let! created := dateNow E in
  ret {|
    SimulatorExam.id := str "exam_" ++ ofZ now ++ str "_" ++ ofZ level;
    SimulatorExam.title :=
      orElse (prop examData (str "title"))
        (JStr (str "Level " ++ ofZ level ++ str ": "
               ++ DifficultyConfig.label difficultyConfig ++ str " - " ++ seriesTopic));
    SimulatorExam.description :=
      orElse (prop examData (str "description"))
        (JStr (DifficultyConfig.description difficultyConfig));
    SimulatorExam.instructions :=
      orElse (prop examData (str "instructions"))
        (JStr (str "This is a Level " ++ ofZ level ++ str " exam. "
               ++ DifficultyConfig.description difficultyConfig));
    SimulatorExam.questions := JArr questions;
    SimulatorExam.totalPoints := orElse (prop examData (str "totalPoints")) (JInt 100);
    SimulatorExam.estimatedTime := Some examTime;
    SimulatorExam.difficultyLevel := level;
    SimulatorExam.difficultyLabel := DifficultyConfig.label difficultyConfig;
    SimulatorExam.createdAt := created;
    SimulatorExam.score := None;
    SimulatorExam.completedAt := None;
    SimulatorExam.timeTaken := None
  |}.

(** The body of the [catch] of one level. *)
Definition fallbackExam (E : env) (seriesTopic : list N)
  (settings : SimulatorSettings.t) (level : Z) : M SimulatorExam.t :=
  let difficultyConfig := getDifficultyConfig level in
  let! now := dateNow E in
  let! created := dateNow E in
  ret {|
    SimulatorExam.id := str "fallback_exam_" ++ ofZ now ++ str "_" ++ ofZ level;
    SimulatorExam.title :=
      JStr (str "Level " ++ ofZ level ++ str ": "
            ++ DifficultyConfig.label difficultyConfig ++ str " - " ++ seriesTopic);
    SimulatorExam.description := JStr (DifficultyConfig.description difficultyConfig);
    SimulatorExam.instructions :=
      JStr (str "This is a Level " ++ ofZ level ++ str " practice exam.");
    SimulatorExam.questions := JArr [JObj [
      (str "id", JStr (str "fallback_q" ++ ofZ level ++ str "_1"));
      (str "question",
        JStr (str "Sample Level " ++ ofZ level ++ str " question for " ++ seriesTopic));
      (str "type", JStr (str "multiple-choice"));
      (str "options", JArr [JStr (str "Option A"); JStr (str "Option B");
                           JStr (str "Option C"); JStr (str "Option D")]);
      (str "correctAnswer", JInt 0);
      (str "points", JInt 100);
      (str "explanation", JStr (str "This is a fallback question due to parsing error."));
      (str "difficulty", JStr (str "Medium"))]];
    SimulatorExam.totalPoints := JInt 100;
    SimulatorExam.estimatedTime := timePerExam settings;
    SimulatorExam.difficultyLevel := level;
    SimulatorExam.difficultyLabel := DifficultyConfig.label difficultyConfig;
    SimulatorExam.createdAt := created;
    SimulatorExam.score := None;
    SimulatorExam.completedAt := None;
    SimulatorExam.timeTaken := None
  |}.

(** The [for (const file of files)] loop. The encoded parts it collects
    are never read afterwards, so only the reads and their failure are
    kept. *)
Fixpoint processFiles (E : env) (files : list File) : M unit :=
  match files with
  | [] => ret tt
  | file :: rest =>
      run! tryCatch (run! awaitFile E file in ret tt)
            (fun _ => throw (ErrorInstance (Error
               (str "Failed to process file " ++ file_name file
                ++ str ". Please ensure the file is not corrupted and try again.")))) in
      processFiles E rest
  end.

(** The [for (let level = 1; level <= settings.numberOfExams; level++)]
    loop, over the levels it visits. *)
Fixpoint generateLevels (E : env) (seriesTopic examContentDescription : list N)
  (hasFiles : bool) (settings : SimulatorSettings.t) (examTime : Z)
  (levels : list Z) (exams : list SimulatorExam.t) : M (list SimulatorExam.t) :=
  match levels with
  | [] => ret exams
  | level :: rest =>
      let prompt := createExamSeriesPrompt examContentDescription settings hasFiles level in
      let! text := awaitOss E prompt in
      let cleanedText := cleanJsonResponse text in
      let! exam := tryCatch (parsedExam E seriesTopic settings examTime level cleanedText)
                (fun _ => fallbackExam E seriesTopic settings level) in
      run! (if (level <? numberOfExams settings)%Z then emit (Delay 1000) else ret tt) in
      generateLevels E seriesTopic examContentDescription hasFiles settings examTime
        rest (exams ++ [exam])
  end.

Definition generateExamSeries (E : env) (seriesTopic examContentDescription : list N)
  (files : list File) (settings : SimulatorSettings.t) (examTime : Z)
  : M ExamSeries.t :=
  if bool_decide (trim examContentDescription = []) && bool_decide (length files = 0%nat)
  then throw (ErrorInstance (Error
         (str "Please provide either an exam description or upload reference materials.")))
  else
    tryCatch
      (run! processFiles E files in
       let! exams := generateLevels E seriesTopic examContentDescription
                  (negb (bool_decide (length files = 0%nat))) settings examTime
                  (seqZ 1 (numberOfExams settings)) [] in
       let! now := dateNow E in
       let! created := dateNow E in
       ret {|
         ExamSeries.id := str "series_" ++ ofZ now;
         ExamSeries.topic := seriesTopic;
         ExamSeries.description :=
           if bool_decide (examContentDescription = [])
           then str "Progressive exam series with " ++ ofZ (numberOfExams settings)
                ++ str " levels of increasing difficulty"
           else examContentDescription;
         ExamSeries.exams := exams;
         ExamSeries.totalExams := numberOfExams settings;
         ExamSeries.createdAt := created
       |})
      (fun error =>
         match error with
         | ErrorInstance _ => throw error
         | OtherValue _ =>
             throw (ErrorInstance (Error (str "An unexpected error occurred while generating the exam series. Please check your files and try again.")))
         end).

End ExamSimulatorService.

(** ** languageService.ts *)

Module LanguageService.

Definition languageMap : list (list N * list N) := [
  (str "en", str "English"); (str "es", str "Spanish"); (str "fr", str "French");
  (str "de", str "German"); (str "it", str "Italian"); (str "pt", str "Portuguese");
  (str "ru", str "Russian"); (str "zh", str "Chinese (Mandarin)");
  (str "ja", str "Japanese"); (str "ko", str "Korean"); (str "ar", str "Arabic");
  (str "hi", str "Hindi"); (str "vi", str "Vietnamese"); (str "tr", str "Turkish")].

(** [toLowerCase] on the code units whose lower case is an ASCII letter
    (the Latin capitals and the Kelvin sign); the keys of [languageMap]
    are ASCII, so no other code unit can take part in a match. *)
Definition toLowerCaseUnit (c : N) : N :=
  if (65 <=? c) && (c <=? 90) then c + 32
  else if c =? 8490 then 107
  else c.

Fixpoint mapGet (k : list N) (m : list (list N * list N)) : option (list N) :=
  match m with
  | [] => None
  | (k', v) :: rest => if decide (k' = k) then Some v else mapGet k rest
  end.

Definition getLanguageNameByCode (code : list N) : list N :=
  if bool_decide (code = []) then str "the specified language"
  else match mapGet (map toLowerCaseUnit code) languageMap with
       | Some name => name
       | None => str "the language " ++ dq ++ code ++ dq
       end.

End LanguageService.

(** ** learningRoadService.ts *)

Module LearningRoadService.

Import LanguageService.

Definition createLearningPathPrompt (topic language : list N) : list N :=
  str "You are an expert educational curriculum designer. Create a comprehensive learning path for the topic: "
  ++ dq ++ topic ++ dq ++ str ".

Generate a structured learning path with 5-8 progressive steps that build upon each other. Each step should be designed to help a student master the topic systematically.

Format your response as a JSON object with this exact structure:

{
  " ++ quoted "id" ++ str ": " ++ quoted "unique_id" ++ str ",
  " ++ quoted "topic" ++ str ": " ++ dq ++ topic ++ dq ++ str ",
  " ++ dq ++ str "totalEstimatedTime" ++ dq ++ str ": " ++ dq ++ str "X hours Y minutes"
  ++ dq ++ str ",
  " ++ dq ++ str "difficulty" ++ dq ++ str ": " ++ dq
  ++ str "Beginner|Intermediate|Advanced|Mixed" ++ dq ++ str ",
  " ++ dq ++ str "description" ++ dq ++ str ": " ++ dq
  ++ str "Brief overview of what the student will learn" ++ dq ++ str ",
  " ++ dq ++ str "steps" ++ dq ++ str ": [
    {
      " ++ dq ++ str "step" ++ dq ++ str ": 1,
      " ++ dq ++ str "title" ++ dq ++ str ": " ++ dq ++ str "Step title" ++ dq ++ str ",
      " ++ dq ++ str "description" ++ dq ++ str ": " ++ dq
  ++ str "Detailed description of what this step covers" ++ dq ++ str ",
      " ++ dq ++ str "estimatedTime" ++ dq ++ str ": " ++ dq ++ str "X min" ++ dq ++ str ",
      " ++ dq ++ str "difficulty" ++ dq ++ str ": " ++ dq
  ++ str "Beginner|Intermediate|Advanced" ++ dq ++ str ",
      " ++ dq ++ str "prerequisites" ++ dq ++ str ": [" ++ dq
  ++ str "Previous step titles if any" ++ dq ++ str "],
      " ++ dq ++ str "keyTopics" ++ dq ++ str ": [" ++ dq ++ str "Topic 1" ++ dq ++ str ", "
  ++ dq ++ str "Topic 2" ++ dq ++ str ", " ++ dq ++ str "Topic 3" ++ dq ++ str "],
      " ++ dq ++ str "practiceExercises" ++ dq ++ str ": [" ++ dq ++ str "Exercise 1" ++ dq
  ++ str ", " ++ dq ++ str "Exercise 2" ++ dq ++ str ", " ++ dq ++ str "Exercise 3" ++ dq
  ++ str "]
    }
  ]
}
CRITICAL RULES:
- **Primary Language:** Your entire response MUST be in " ++ language
  ++ str ". This is a strict requirement.

IMPORTANT RULES:
- Return ONLY valid JSON, no additional text or markdown
- Create 5-8 progressive steps that build logically
- Each step should have 3-5 key topics and 3-5 practice exercises
- Estimated times should be realistic (15-90 minutes per step)
- Prerequisites should reference actual previous step titles
- Make the learning path comprehensive but achievable
- Difficulty should progress naturally from easier to harder concepts
- Include practical, hands-on exercises for each step".

Definition cleanJsonResponse (text : list N) : list N :=
  let cleaned := trim text in
  let cleaned :=
    if startsWith cleaned (str "```json") then substringFrom cleaned 7
    else if startsWith cleaned (str "```") then substringFrom cleaned 3
    else cleaned in
  let cleaned :=
    if endsWith cleaned (str "```")
    then substring cleaned 0 (Z.of_nat (length cleaned) - 3)
    else cleaned in
  let cleaned := trim cleaned in
  let openBrace := indexOf cleaned (str "{") in
  let openBracket := indexOf cleaned (str "[") in
  let closeBrace := lastIndexOf cleaned (str "}") in
  let closeBracket := lastIndexOf cleaned (str "]") in
  let '(startIndex, endIndex) :=
    if negb (openBrace =? -1)%Z && ((openBracket =? -1)%Z || (openBrace <? openBracket)%Z)
    then (openBrace, closeBrace)
    else if negb (openBracket =? -1)%Z
    then (openBracket, closeBracket)
    else ((-1)%Z, (-1)%Z) in
  let cleaned :=
    if negb (startIndex =? -1)%Z && negb (endIndex =? -1)%Z && (startIndex <? endIndex)%Z
    then substring cleaned startIndex (endIndex + 1)
    else cleaned in
  trim cleaned.

Definition strs (l : list string) : jsval := JArr (map (fun s => JStr (str s)) l).

Definition createFallbackLearningPath (E : env) (topic : list N) : M jsval :=
  let! now := dateNow E in
  ret (JObj [
    (str "id", JStr (str "fallback_" ++ ofZ now));
    (str "topic", JStr topic);
    (str "totalEstimatedTime", JStr (str "3 hours"));
    (str "difficulty", JStr (str "Mixed"));
    (str "description",
      JStr (str "A comprehensive introduction to " ++ topic
            ++ str " covering fundamental concepts and practical applications."));
    (str "steps", JArr [
      JObj [
        (str "step", JInt 1);
        (str "title", JStr (str "Introduction to " ++ topic));
        (str "description",
          JStr (str "Learn the fundamental concepts and basic principles of "
                ++ topic ++ str "."));
        (str "estimatedTime", JStr (str "30 min"));
        (str "difficulty", JStr (str "Beginner"));
        (str "keyTopics",
          strs ["Basic concepts"; "Key terminology"; "Historical context"]%string);
        (str "practiceExercises",
          strs ["Read introductory materials"; "Complete vocabulary quiz";
                "Watch overview video"]%string)];
      JObj [
        (str "step", JInt 2);
        (str "title", JStr (str "Core Principles of " ++ topic));
        (str "description",
          JStr (str "Understand the main theories and principles that govern "
                ++ topic ++ str "."));
        (str "estimatedTime", JStr (str "45 min"));
        (str "difficulty", JStr (str "Intermediate"));
        (str "prerequisites", JArr [JStr (str "Introduction to " ++ topic)]);
        (str "keyTopics",
          strs ["Main theories"; "Core principles"; "Key relationships"]%string);
        (str "practiceExercises",
          strs ["Solve practice problems"; "Create concept map";
                "Explain principles"]%string)];
      JObj [
        (str "step", JInt 3);
        (str "title", JStr (str "Advanced Applications of " ++ topic));
        (str "description",
          JStr (str "Explore real-world applications and advanced concepts in "
                ++ topic ++ str "."));
        (str "estimatedTime", JStr (str "60 min"));
        (str "difficulty", JStr (str "Advanced"));
        (str "prerequisites", JArr [JStr (str "Core Principles of " ++ topic)]);
        (str "keyTopics",
          strs ["Real-world applications"; "Advanced concepts"; "Current research"]%string);
        (str "practiceExercises",
          strs ["Case study analysis"; "Project work"; "Research assignment"]%string)]])]).

(** The callback of [learningPath.steps.map]. *)
Definition renumberStep (index : nat) (step : jsval) : jsval :=
  JObj (obj_set (str "step") (JInt (Z.of_nat index + 1)) (ExamSimulatorService.spread step)).

(** The body of the inner [try]. *)
Definition validatedPath (E : env) (cleanedText : list N) : M jsval :=
  let! learningPath := lift (match JSON_parse cleanedText with
                             | Some v => Returns v
                             | None => Throws (ErrorInstance SyntaxError)
                             end) in
  let copied := ExamSimulatorService.spread learningPath in
  let! now := dateNow E in
  let withId := obj_set (str "id") (JStr (str "path_" ++ ofZ now)) copied in
  let! steps := lift (match learningPath with
                      | JNull => Throws (ErrorInstance TypeError)
                      | _ =>
                          match ExamSimulatorService.prop learningPath (str "steps") with
                          | Some (JArr l) => Returns (JArr (imap renumberStep l))
                          | _ => Throws (ErrorInstance TypeError)
                          end
                      end) in
  ret (JObj (obj_set (str "steps") steps withId)).

Definition generateLearningPath (E : env) (topic language : list N) : M jsval :=
  tryCatch
    (let prompt := createLearningPathPrompt topic (getLanguageNameByCode language) in
     let! text := awaitOss E prompt in
     let cleanedText := cleanJsonResponse text in
     tryCatch (validatedPath E cleanedText)
       (fun _ => createFallbackLearningPath E topic))
    (fun error =>
       throw (ErrorInstance (Error
         (str "Failed to generate learning path: "
          ++ match error with
             | ErrorInstance e => error_message e
             | OtherValue _ => str "Unknown error"
             end)))).

(** The prompt of [generateLearningMaterial]. *)
Definition createLearningMaterialPrompt
  (topic stepTitle stepDescription : list N) (keyTopics : list (list N))
  (language : list N) : list N :=
  str "You are an expert educational content creator. Generate comprehensive learning material for:

Topic: " ++ dq ++ topic ++ dq ++ str "
Learning Step: " ++ dq ++ stepTitle ++ dq ++ str "
Description: " ++ dq ++ stepDescription ++ dq ++ str "
Key Topics to Cover: " ++ join (str ", ") keyTopics ++ str "

Create detailed, educational content that helps students understand these concepts thoroughly.

Format your response as a JSON object with this exact structure:

{
  " ++ dq ++ str "id" ++ dq ++ str ": " ++ dq ++ str "unique_id" ++ dq ++ str ",
  " ++ dq ++ str "stepTitle" ++ dq ++ str ": " ++ dq ++ stepTitle ++ dq ++ str ",
  " ++ quoted "topic" ++ str ": " ++ dq ++ topic ++ dq ++ str ",
  " ++ dq ++ str "introduction" ++ dq ++ str ": " ++ dq
  ++ str "Engaging introduction that explains what the student will learn" ++ dq ++ str ",
  " ++ dq ++ str "sections" ++ dq ++ str ": [
    {
      " ++ dq ++ str "title" ++ dq ++ str ": " ++ dq ++ str "Section title" ++ dq ++ str ",
      " ++ dq ++ str "content" ++ dq ++ str ": " ++ dq
  ++ str "Detailed explanation of the concept (2-3 paragraphs)" ++ dq ++ str ",
      " ++ dq ++ str "examples" ++ dq ++ str ": [" ++ dq ++ str "Example 1" ++ dq
  ++ str ", " ++ dq ++ str "Example 2" ++ dq ++ str ", " ++ dq ++ str "Example 3" ++ dq
  ++ str "],
      " ++ dq ++ str "keyPoints" ++ dq ++ str ": [" ++ dq ++ str "Key point 1" ++ dq
  ++ str ", " ++ dq ++ str "Key point 2" ++ dq ++ str ", " ++ dq ++ str "Key point 3" ++ dq
  ++ str "]
    }
  ],
  " ++ dq ++ str "summary" ++ dq ++ str ": " ++ dq
  ++ str "Comprehensive summary of what was learned" ++ dq ++ str ",
  " ++ dq ++ str "nextSteps" ++ dq ++ str ": [" ++ dq ++ str "What to do next" ++ dq
  ++ str ", " ++ dq ++ str "How to practice" ++ dq ++ str ", " ++ dq
  ++ str "Further reading" ++ dq ++ str "],
  " ++ dq ++ str "estimatedReadTime" ++ dq ++ str ": " ++ dq ++ str "X minutes" ++ dq
  ++ str "
}
CRITICAL RULES:
- **Primary Language:** Your entire response MUST be in " ++ language
  ++ str ". This is a strict requirement.

IMPORTANT RULES:
- Return ONLY valid JSON, no additional text or markdown
- Create 3-5 sections covering different aspects of the topic
- Each section should have detailed content (150-300 words)
- Include practical examples and real-world applications
- Key points should be concise and memorable
- Make content educational, engaging, and easy to understand
- Estimated read time should be realistic (5-20 minutes)
- Content should be appropriate for the learning level".

(** The prompt of [generateQuiz]. *)
Definition createQuizPrompt (topic stepTitle language : list N) : list N :=
  str "You are an expert educator creating quiz questions for the topic: " ++ dq ++ topic
  ++ quoted ", specifically for the learning step: " ++ stepTitle ++ dq ++ str ".

Create 3-5 multiple choice questions that test understanding of this specific step. Questions should be educational and help reinforce learning.

Format your response as a JSON array with this exact structure:

[
  {
    " ++ dq ++ str "id" ++ dq ++ str ": " ++ dq ++ str "unique_id" ++ dq ++ str ",
    " ++ dq ++ str "question" ++ dq ++ str ": " ++ dq
  ++ str "Clear, specific question about the topic" ++ dq ++ str ",
    " ++ dq ++ str "options" ++ dq ++ str ": [" ++ dq ++ str "Option A" ++ dq ++ str ", "
  ++ dq ++ str "Option B" ++ dq ++ str ", " ++ dq ++ str "Option C" ++ dq ++ str ", " ++ dq
  ++ str "Option D" ++ dq ++ str "],
    " ++ dq ++ str "correctAnswer" ++ dq ++ str ": 0,
    " ++ dq ++ str "explanation" ++ dq ++ str ": " ++ dq
  ++ str "Detailed explanation of why this answer is correct and why others are wrong" ++ dq
  ++ str ",
    " ++ dq ++ str "difficulty" ++ dq ++ str ": " ++ dq ++ str "Easy|Medium|Hard" ++ dq
  ++ str "
  }
]

CRITICAL RULES:
- **Primary Language:** Your entire response MUST be in " ++ language
  ++ str ". This is a strict requirement.

IMPORTANT RULES:
- Return ONLY valid JSON, no additional text or markdown
- Create 3-5 questions per topic
- Each question should have exactly 4 options
- correctAnswer should be the index (0-3) of the correct option
- Explanations should be educational and help students learn
- Mix difficulty levels appropriately
- Questions should be specific to the step topic, not general knowledge
- Avoid trick questions - focus on genuine understanding".

Definition createFallbackLearningMaterial (E : env)
  (topic stepTitle stepDescription : list N) : M jsval :=
  let! now := dateNow E in
  ret (JObj [
    (str "id", JStr (str "fallback_material_" ++ ofZ now));
    (str "stepTitle", JStr stepTitle);
    (str "topic", JStr topic);
    (str "introduction",
      JStr (str "Welcome to learning about " ++ stepTitle
            ++ str ". This section will help you understand the fundamental concepts and practical applications of this important topic in "
            ++ topic ++ str "."));
    (str "sections", JArr [
      JObj [
        (str "title", JStr (str "Introduction to the Concept"));
        (str "content",
          JStr (stepDescription
                ++ str " This is a fundamental concept that forms the building blocks for more advanced topics. Understanding this concept thoroughly will help you progress in your learning journey and apply these principles in real-world scenarios."));
        (str "examples",
          strs ["Basic example 1"; "Basic example 2"; "Basic example 3"]%string);
        (str "keyPoints", strs ["Key concept 1"; "Key concept 2"; "Key concept 3"]%string)];
      JObj [
        (str "title", JStr (str "Practical Applications"));
        (str "content",
          JStr (str "Now that you understand the basics, let's explore how this concept applies in practice. These applications will help you see the relevance and importance of what you're learning, making it easier to remember and apply in different contexts."));
        (str "examples", strs ["Application example 1"; "Application example 2"]%string);
        (str "keyPoints", strs ["Practical point 1"; "Practical point 2"]%string)]]);
    (str "summary",
      JStr (str "In this section, you learned about " ++ stepTitle
            ++ str " and its importance in " ++ topic
            ++ str ". You explored the fundamental concepts and saw practical applications that demonstrate the real-world relevance of this knowledge."));
    (str "nextSteps",
      strs ["Practice the concepts learned"; "Review the key points";
            "Prepare for the quiz"]%string);
    (str "estimatedReadTime", JStr (str "10 minutes"))]).

Definition createFallbackQuiz (E : env) (topic stepTitle : list N) : M jsval :=
  let! now := dateNow E in
  ret (JArr [JObj [
    (str "id", JStr (str "fallback_quiz_" ++ ofZ now));
    (str "question",
      JStr (str "What is the most important concept to understand in " ++ dq
            ++ stepTitle ++ dq ++ str "?"));
    (str "options",
      strs ["Understanding the basic definitions"; "Memorizing all the details";
            "Practical application of concepts"; "Historical background only"]%string);
    (str "correctAnswer", JInt 2);
    (str "explanation",
      JStr (str "Practical application of concepts is typically the most important aspect of learning any topic, as it demonstrates true understanding and enables real-world use."));
    (str "difficulty", JStr (str "Medium"))]]).

(** The message of the [Error] the outer [catch] of a generator throws. *)
Definition failure (what : string) (error : thrown) : thrown :=
  ErrorInstance (Error
    (str what
     ++ match error with
        | ErrorInstance e => error_message e
        | OtherValue _ => str "Unknown error"
        end)).

(** [generateLearningMaterial]; [generateContent] is the call of the
    Gemini SDK behind [getGeminiResponse]. *)
Definition generateLearningMaterial (E : env)
  (generateContent : list event -> list N -> outcome (list N))
  (topic stepTitle stepDescription : list N) (keyTopics : list (list N))
  (language : list N) : M jsval :=
  tryCatch
    (let prompt := createLearningMaterialPrompt topic stepTitle stepDescription keyTopics
                     (getLanguageNameByCode language) in
     let! text := getGeminiResponse generateContent prompt in
     let cleanedText := cleanJsonResponse text in
     tryCatch
       (let! material := lift (match JSON_parse cleanedText with
                               | Some v => Returns v
                               | None => Throws (ErrorInstance SyntaxError)
                               end) in
        let copied := ExamSimulatorService.spread material in
        let! now := dateNow E in
        ret (JObj (obj_set (str "id") (JStr (str "material_" ++ ofZ now)) copied)))
       (fun _ => createFallbackLearningMaterial E topic stepTitle stepDescription))
    (fun error => throw (failure "Failed to generate learning material: " error)).

(** The callback of [questions.map]: the clock is read for each
    question. *)
Fixpoint stampQuestions (E : env) (index : nat) (questions : list jsval)
  : M (list jsval) :=
  match questions with
  | [] => ret []
  | question :: rest =>
      let copied := ExamSimulatorService.spread question in
      let! now := dateNow E in
      let stamped :=
        JObj (obj_set (str "id")
                (JStr (str "quiz_" ++ ofZ now ++ str "_" ++ ofZ (Z.of_nat index))) copied) in
      let! others := stampQuestions E (S index) rest in
      ret (stamped :: others)
  end.

Definition generateQuiz (E : env) (topic stepTitle language : list N) : M jsval :=
  tryCatch
    (let prompt := createQuizPrompt topic stepTitle (getLanguageNameByCode language) in
     let! text := awaitOss E prompt in
     let cleanedText := cleanJsonResponse text in
     tryCatch
       (let! questions := lift (match JSON_parse cleanedText with
                                | Some v => Returns v
                                | None => Throws (ErrorInstance SyntaxError)
                                end) in
        match questions with
        | JArr l => let! validated := stampQuestions E 0 l in ret (JArr validated)
        | _ => throw (ErrorInstance TypeError)
        end)
       (fun _ => createFallbackQuiz E topic stepTitle))
    (fun error => throw (failure "Failed to generate quiz: " error)).

End LearningRoadService.

(** ** databaseService.ts *)

(** A [Date] is represented by its time value, the milliseconds since
    1970-01-01T00:00:00Z. The code makes its dates with [new Date()] and
    by reading back a text it stored, so every date it handles is a valid
    one (a time value of at most 8.64e15 in absolute value); the invalid
    date, on which [toISOString] throws a RangeError, is not
    represented. *)
Module JsDate.
Local Open Scope Z_scope.

(** The fields of a time value (ECMAScript, Date objects: Day, DaysInYear,
    DayFromYear, YearFromTime, InLeapYear, MonthFromTime, DateFromTime and
    the fields of the time within the day). *)
Definition msPerDay : Z := 86400000.

Definition Day (t : Z) : Z := t / msPerDay.
Definition DaysInYear (y : Z) : Z :=
  if negb (y mod 4 =? 0) then 365
  else if negb (y mod 100 =? 0) then 366
  else if negb (y mod 400 =? 0) then 365
  else 366.

Definition DayFromYear (y : Z) : Z :=
  365 * (y - 1970) + (y - 1969) / 4 - (y - 1901) / 100 + (y - 1601) / 400.

(** The largest year that begins on or before the day. *)
Definition YearFromDay (day : Z) : Z :=
  let y := 1970 + 400 * day / 146097 in
  if day <? DayFromYear y then y - 1
  else if DayFromYear (y + 1) <=? day then y + 1
  else y.

Definition YearFromTime (t : Z) : Z := YearFromDay (Day t).

Definition DayWithinYear (t : Z) : Z := Day t - DayFromYear (YearFromTime t).

Definition InLeapYear (t : Z) : Z :=
  if DaysInYear (YearFromTime t) =? 366 then 1 else 0.

Definition MonthFromTime (t : Z) : Z :=
  let d := DayWithinYear t in
  let leap := InLeapYear t in
  if d <? 31 then 0
  else if d <? 59 + leap then 1
  else if d <? 90 + leap then 2
  else if d <? 120 + leap then 3
  else if d <? 151 + leap then 4
  else if d <? 181 + leap then 5
  else if d <? 212 + leap then 6
  else if d <? 243 + leap then 7
  else if d <? 273 + leap then 8
  else if d <? 304 + leap then 9
  else if d <? 334 + leap then 10
  else 11.

Definition DateFromTime (t : Z) : Z :=
  let d := DayWithinYear t in
  let leap := InLeapYear t in
  match MonthFromTime t with
  | 0 => d + 1
  | 1 => d - 30
  | 2 => d - 58 - leap
  | 3 => d - 89 - leap
  | 4 => d - 119 - leap
  | 5 => d - 150 - leap
  | 6 => d - 180 - leap
  | 7 => d - 211 - leap
  | 8 => d - 242 - leap
  | 9 => d - 272 - leap
  | 10 => d - 303 - leap
  | _ => d - 333 - leap
  end.

Definition HourFromTime (t : Z) : Z := (t / 3600000) mod 24.
Definition MinFromTime (t : Z) : Z := (t / 60000) mod 60.
Definition SecFromTime (t : Z) : Z := (t / 1000) mod 60.
Definition msFromTime (t : Z) : Z := t mod 1000.

(** The last [width] decimal digits of [n], most significant first. *)
Fixpoint digits (width : nat) (n : Z) : list N :=
  match width with
  | O => []
  | S width' => digits width' (n / 10) ++ [Z.to_N (48 + n mod 10)]
  end.

Definition yearText (y : Z) : list N :=
  if (0 <=? y) && (y <=? 9999) then digits 4 y
  else (if 0 <? y then 43%N else 45%N) :: digits 6 (Z.abs y).

(** [YYYY-MM-DDTHH:mm:ss.sssZ], the year with a sign and six digits when it
    is not between 0 and 9999. *)
Definition isoText (t : Z) : list N :=
  yearText (YearFromTime t) ++ [45%N] ++ digits 2 (MonthFromTime t + 1)
  ++ [45%N] ++ digits 2 (DateFromTime t)
  ++ [84%N] ++ digits 2 (HourFromTime t)
  ++ [58%N] ++ digits 2 (MinFromTime t)
  ++ [58%N] ++ digits 2 (SecFromTime t)
  ++ [46%N] ++ digits 3 (msFromTime t) ++ [90%N].

(** The instants whose year is written with four digits: from
    0000-01-01T00:00:00.000Z to 9999-12-31T23:59:59.999Z. *)
Definition fourDigitYear (t : Z) : Prop :=
  -62167219200000 <= t <= 253402300799999.

End JsDate.

(** The text [toISOString] writes, kept with the time value it was written
    from. [textOf] is the text itself, which is what the store holds and
    what its [createdAt] index orders the rows by; [newDate] is the time
    value [new Date] reads back from it. *)
Inductive isoString := ISO (instant : Z).

Definition toISOString (d : Z) : isoString := ISO d.
Definition newDate (s : isoString) : Z := match s with ISO d => d end.
Definition textOf (s : isoString) : list N := JsDate.isoText (newDate s).

Module StoredExamSeries.
Record t := {
  id : list N;
  topic : list N;
  description : list N;
  totalExams : Z;
  settings : SimulatorSettings.t;
  time : Z;
  createdAt : isoString;
  updatedAt : isoString
}.
End StoredExamSeries.

Module StoredExam.
Record t := {
  id : list N;
  seriesId : list N;
  title : jsval;
  description : jsval;
  instructions : jsval;
  totalPoints : jsval;
  estimatedTime : option Z;
  difficultyLevel : Z;
  difficultyLabel : list N;
  questionsData : list N;
  score : option Z;
  completedAt : option isoString;
  timeTaken : option Z;
  createdAt : isoString
}.
End StoredExam.

Module StoredPracticeExam.
Record t := {
  id : list N;
  title : jsval;
  description : jsval;
  instructions : jsval;
  totalPoints : jsval;
  estimatedTime : option Z;
  difficulty : jsval;
  questionsData : list N;
  settings : list N;
  hasAnswerKey : bool;
  score : option Z;
  completedAt : option isoString;
  timeTaken : option Z;
  createdAt : isoString
}.
End StoredPracticeExam.

(** [saveLearningPath] takes [any]: the fields hold what the argument held
    under these names, if anything. *)
Module StoredLearningPath.
Record t := {
  id : list N;
  topic : option jsval;
  description : option jsval;
  totalEstimatedTime : option jsval;
  difficulty : option jsval;
  stepsData : option (list N);
  createdAt : jsval + isoString
}.
End StoredLearningPath.

(** What [getLearningPath] returns. *)
Module LoadedLearningPath.
Record t := {
  id : list N;
  topic : option jsval;
  description : option jsval;
  totalEstimatedTime : option jsval;
  difficulty : option jsval;
  steps : jsval;
  createdAt : jsval + isoString
}.
End LoadedLearningPath.

(** The fields of a [GeneratedExam] that the store reads and writes (the
    interface is declared in practiceExamService.ts). *)
Module GeneratedExam.
Record t := {
  id : list N;
  title : jsval;
  description : jsval;
  instructions : jsval;
  questions : jsval;
  totalPoints : jsval;
  estimatedTime : option Z;
  difficulty : jsval;
  answerKey : option jsval;
  createdAt : Z
}.
End GeneratedExam.

(** What [getStorageStats] returns. *)
Module StorageStats.
Record t := {
  examSeries : nat;
  simulatorExams : nat;
  practiceExams : nat;
  learningPaths : nat
}.
End StorageStats.

Module DatabaseService.

(** The four tables of [ExamDatabase], each keyed by [id]. *)
Record ExamDatabase := {
  examSeries : gmap (list N) StoredExamSeries.t;
  simulatorExams : gmap (list N) StoredExam.t;
  practiceExams : gmap (list N) StoredPracticeExam.t;
  learningPaths : gmap (list N) StoredLearningPath.t
}.

Definition emptyDatabase : ExamDatabase :=
  {| examSeries := ∅; simulatorExams := ∅; practiceExams := ∅; learningPaths := ∅ |}.

(** The order of the keys of an index: by the indexed value, then by the
    primary key; strings compare by code units. *)
Definition keyLe (a b : Z * list N) : Prop := ¬ lexico b a.

(** The same for an index on a text, such as [createdAt]. *)
Definition textKeyLe (a b : list N * list N) : Prop := ¬ lexico b a.

Definition storedExamRow (exam : SimulatorExam.t) (seriesId : list N) : StoredExam.t :=
  {| StoredExam.id := SimulatorExam.id exam;
     StoredExam.seriesId := seriesId;
     StoredExam.title := SimulatorExam.title exam;
     StoredExam.description := SimulatorExam.description exam;
     StoredExam.instructions := SimulatorExam.instructions exam;
     StoredExam.totalPoints := SimulatorExam.totalPoints exam;
     StoredExam.estimatedTime := SimulatorExam.estimatedTime exam;
     StoredExam.difficultyLevel := SimulatorExam.difficultyLevel exam;
     StoredExam.difficultyLabel := SimulatorExam.difficultyLabel exam;
     StoredExam.questionsData := JSON_stringify (SimulatorExam.questions exam);
     StoredExam.score := None;
     StoredExam.completedAt := None;
     StoredExam.timeTaken := None;
     StoredExam.createdAt := toISOString (SimulatorExam.createdAt exam) |}.

(** [now] is the reading of the clock by [new Date()]. *)
Definition saveExamSeries (db : ExamDatabase) (examSeries0 : ExamSeries.t)
  (settings : SimulatorSettings.t) (time : Z) (now : Z) : ExamDatabase :=
  let series := <[ ExamSeries.id examSeries0 := {|
       StoredExamSeries.id := ExamSeries.id examSeries0;
       StoredExamSeries.topic := ExamSeries.topic examSeries0;
       StoredExamSeries.description := ExamSeries.description examSeries0;
       StoredExamSeries.totalExams := ExamSeries.totalExams examSeries0;
       StoredExamSeries.settings := settings;
       StoredExamSeries.time := time;
       StoredExamSeries.createdAt := toISOString (ExamSeries.createdAt examSeries0);
       StoredExamSeries.updatedAt := toISOString now |} ]> (examSeries db) in
  let exams :=
    foldl (fun table exam =>
             <[ SimulatorExam.id exam := storedExamRow exam (ExamSeries.id examSeries0) ]> table)
          (simulatorExams db) (ExamSeries.exams examSeries0) in
  {| examSeries := series; simulatorExams := exams;
     practiceExams := practiceExams db; learningPaths := learningPaths db |}.

(** [orderBy('createdAt').reverse().toArray()] *)
Definition getAllExamSeries (db : ExamDatabase) : list StoredExamSeries.t :=
  map snd
    (reverse
       (merge_sort
          (fun a b => textKeyLe (textOf (StoredExamSeries.createdAt a.2), a.1)
                                (textOf (StoredExamSeries.createdAt b.2), b.1))
          (map_to_list (examSeries db)))).

(** [where('seriesId').equals(seriesId).sortBy('difficultyLevel')] *)
Definition examsOfSeries (db : ExamDatabase) (seriesId : list N)
  : list (list N * StoredExam.t) :=
  merge_sort
    (fun a b => keyLe (StoredExam.difficultyLevel a.2, a.1)
                      (StoredExam.difficultyLevel b.2, b.1))
    (map_to_list (filter (fun kv => StoredExam.seriesId kv.2 = seriesId)
                         (simulatorExams db))).

(** One row turned back into an exam; [None] when [JSON.parse] throws.
    The score, the completion time and the time taken of the row are not
    copied. *)
Definition loadedExam (exam : StoredExam.t) : option SimulatorExam.t :=
  match JSON_parse (StoredExam.questionsData exam) with
  | None => None
  | Some questions => Some {|
      SimulatorExam.id := StoredExam.id exam;
      SimulatorExam.title := StoredExam.title exam;
      SimulatorExam.description := StoredExam.description exam;
      SimulatorExam.instructions := StoredExam.instructions exam;
      SimulatorExam.questions := questions;
      SimulatorExam.totalPoints := StoredExam.totalPoints exam;
      SimulatorExam.estimatedTime := StoredExam.estimatedTime exam;
      SimulatorExam.difficultyLevel := StoredExam.difficultyLevel exam;
      SimulatorExam.difficultyLabel := StoredExam.difficultyLabel exam;
      SimulatorExam.createdAt := newDate (StoredExam.createdAt exam);
      SimulatorExam.score := None;
      SimulatorExam.completedAt := None;
      SimulatorExam.timeTaken := None |}
  end.

(** [None] is the [null] it returns, for a missing series and from its
    [catch]. *)
Definition getExamSeries (db : ExamDatabase) (seriesId : list N) : option ExamSeries.t :=
  match examSeries db !! seriesId with
  | None => None
  | Some series =>
      match mapM (fun kv => loadedExam kv.2) (examsOfSeries db seriesId) with
      | None => None
      | Some simulatorExams0 => Some {|
          ExamSeries.id := StoredExamSeries.id series;
          ExamSeries.topic := StoredExamSeries.topic series;
          ExamSeries.description := StoredExamSeries.description series;
          ExamSeries.exams := simulatorExams0;
          ExamSeries.totalExams := StoredExamSeries.totalExams series;
          ExamSeries.createdAt := newDate (StoredExamSeries.createdAt series) |}
      end
  end.

Definition deleteExamSeries (db : ExamDatabase) (seriesId : list N) : ExamDatabase :=
  {| examSeries := delete seriesId (examSeries db);
     simulatorExams :=
       filter (fun kv => StoredExam.seriesId kv.2 ≠ seriesId) (simulatorExams db);
     practiceExams := practiceExams db;
     learningPaths := learningPaths db |}.

(** The changes [{score, completedAt, timeTaken}] applied to a row. *)
Definition withOutcome (exam : StoredExam.t) (score : Z) (completedAt : isoString)
  (timeTaken : Z) : StoredExam.t :=
  {| StoredExam.id := StoredExam.id exam;
     StoredExam.seriesId := StoredExam.seriesId exam;
     StoredExam.title := StoredExam.title exam;
     StoredExam.description := StoredExam.description exam;
     StoredExam.instructions := StoredExam.instructions exam;
     StoredExam.totalPoints := StoredExam.totalPoints exam;
     StoredExam.estimatedTime := StoredExam.estimatedTime exam;
     StoredExam.difficultyLevel := StoredExam.difficultyLevel exam;
     StoredExam.difficultyLabel := StoredExam.difficultyLabel exam;
     StoredExam.questionsData := StoredExam.questionsData exam;
     StoredExam.score := Some score;
     StoredExam.completedAt := Some completedAt;
     StoredExam.timeTaken := Some timeTaken;
     StoredExam.createdAt := StoredExam.createdAt exam |}.

(** [Table.update(key, changes)]: the row under the key, if there is one,
    takes the three values; nothing happens otherwise. *)
Definition updateExamScore (db : ExamDatabase) (examId : list N)
  (score timeTaken : Z) (now : Z) : ExamDatabase :=
  match simulatorExams db !! examId with
  | None => db
  | Some exam =>
      {| examSeries := examSeries db;
         simulatorExams :=
           <[ examId := withOutcome exam score (toISOString now) timeTaken ]>
             (simulatorExams db);
         practiceExams := practiceExams db;
         learningPaths := learningPaths db |}
  end.

(** What the store answers to a key that is no valid key. *)
Definition DataError : js_error :=
  {| error_name := str "DataError"; error_message := [] |}.

(** [saveLearningPath(learningPath: any)]. Reading a property of [null]
    throws. The tables of the model are keyed by strings, as every id the
    application makes is. A path whose id is a string is stored under
    it. One whose id is absent, null, a boolean, an object or [NaN] is
    refused by the store, these being no valid keys. One whose id is
    another number or an array is stored by the code under that key,
    which the tables of the model do not hold: the model gives no answer
    for it, [None]. *)
Definition saveLearningPath (db : ExamDatabase) (learningPath : jsval) (now : Z)
  : option (outcome ExamDatabase) :=
  match learningPath with
  | JNull => Some (Throws (ErrorInstance TypeError))
  | _ =>
      let get := ExamSimulatorService.prop learningPath in
      match get (str "id") with
      | Some (JStr id) =>
          Some (Returns {|
            examSeries := examSeries db;
            simulatorExams := simulatorExams db;
            practiceExams := practiceExams db;
            learningPaths := <[ id := {|
              StoredLearningPath.id := id;
              StoredLearningPath.topic := get (str "topic");
              StoredLearningPath.description := get (str "description");
              StoredLearningPath.totalEstimatedTime := get (str "totalEstimatedTime");
              StoredLearningPath.difficulty := get (str "difficulty");
              StoredLearningPath.stepsData := JSON_stringify <$> get (str "steps");
              StoredLearningPath.createdAt :=
                match get (str "createdAt") with
                | Some v => if truthy v then inl v else inr (toISOString now)
                | None => inr (toISOString now)
                end |} ]> (learningPaths db) |})
      | Some (JNum NumNaN) | Some JNull | Some (JBool _) | Some (JObj _) | None =>
          Some (Throws (ErrorInstance DataError))
      | Some (JNum _) | Some (JArr _) => None
      end
  end.

Definition getLearningPath (db : ExamDatabase) (pathId : list N)
  : option LoadedLearningPath.t :=
  match learningPaths db !! pathId with
  | None => None
  | Some path =>
      match StoredLearningPath.stepsData path ≫= JSON_parse with
      | None => None
      | Some steps => Some {|
          LoadedLearningPath.id := StoredLearningPath.id path;
          LoadedLearningPath.topic := StoredLearningPath.topic path;
          LoadedLearningPath.description := StoredLearningPath.description path;
          LoadedLearningPath.totalEstimatedTime := StoredLearningPath.totalEstimatedTime path;
          LoadedLearningPath.difficulty := StoredLearningPath.difficulty path;
          LoadedLearningPath.steps := steps;
          LoadedLearningPath.createdAt := StoredLearningPath.createdAt path |}
      end
  end.

(** [exam.answerKey ? true : false] *)
Definition hasAnswerKeyOf (exam : GeneratedExam.t) : bool :=
  match GeneratedExam.answerKey exam with
  | Some v => truthy v
  | None => false
  end.

(** [put] writes the row it is given: a practice exam saved again has no
    score. *)
Definition savePracticeExam (db : ExamDatabase) (exam : GeneratedExam.t)
  (settings : jsval) : ExamDatabase :=
  {| examSeries := examSeries db;
     simulatorExams := simulatorExams db;
     practiceExams := <[ GeneratedExam.id exam := {|
       StoredPracticeExam.id := GeneratedExam.id exam;
       StoredPracticeExam.title := GeneratedExam.title exam;
       StoredPracticeExam.description := GeneratedExam.description exam;
       StoredPracticeExam.instructions := GeneratedExam.instructions exam;
       StoredPracticeExam.totalPoints := GeneratedExam.totalPoints exam;
       StoredPracticeExam.estimatedTime := GeneratedExam.estimatedTime exam;
       StoredPracticeExam.difficulty := GeneratedExam.difficulty exam;
       StoredPracticeExam.questionsData := JSON_stringify (GeneratedExam.questions exam);
       StoredPracticeExam.settings := JSON_stringify settings;
       StoredPracticeExam.hasAnswerKey := hasAnswerKeyOf exam;
       StoredPracticeExam.score := None;
       StoredPracticeExam.completedAt := None;
       StoredPracticeExam.timeTaken := None;
       StoredPracticeExam.createdAt := toISOString (GeneratedExam.createdAt exam) |} ]>
       (practiceExams db);
     learningPaths := learningPaths db |}.

(** [orderBy('createdAt').reverse().toArray()] *)
Definition getAllPracticeExams (db : ExamDatabase) : list StoredPracticeExam.t :=
  map snd
    (reverse
       (merge_sort
          (fun a b => textKeyLe (textOf (StoredPracticeExam.createdAt a.2), a.1)
                                (textOf (StoredPracticeExam.createdAt b.2), b.1))
          (map_to_list (practiceExams db)))).

(** [None] is the [null] it returns, for a missing exam and from its
    [catch]. *)
Definition getPracticeExam (db : ExamDatabase) (examId : list N)
  : option GeneratedExam.t :=
  match practiceExams db !! examId with
  | None => None
  | Some exam =>
      match JSON_parse (StoredPracticeExam.questionsData exam) with
      | None => None
      | Some questions => Some {|
          GeneratedExam.id := StoredPracticeExam.id exam;
          GeneratedExam.title := StoredPracticeExam.title exam;
          GeneratedExam.description := StoredPracticeExam.description exam;
          GeneratedExam.instructions := StoredPracticeExam.instructions exam;
          GeneratedExam.questions := questions;
          GeneratedExam.totalPoints := StoredPracticeExam.totalPoints exam;
          GeneratedExam.estimatedTime := StoredPracticeExam.estimatedTime exam;
          GeneratedExam.difficulty := StoredPracticeExam.difficulty exam;
          GeneratedExam.answerKey :=
            if StoredPracticeExam.hasAnswerKey exam then Some questions else None;
          GeneratedExam.createdAt := newDate (StoredPracticeExam.createdAt exam) |}
      end
  end.

Definition deletePracticeExam (db : ExamDatabase) (examId : list N) : ExamDatabase :=
  {| examSeries := examSeries db;
     simulatorExams := simulatorExams db;
     practiceExams := delete examId (practiceExams db);
     learningPaths := learningPaths db |}.

(** The row is read first; without one nothing is written. *)
Definition updatePracticeExamScore (db : ExamDatabase) (examId : list N)
  (score timeTaken : Z) (now : Z) : ExamDatabase :=
  match practiceExams db !! examId with
  | None => db
  | Some exam =>
      {| examSeries := examSeries db;
         simulatorExams := simulatorExams db;
         practiceExams :=
           <[ examId := {|
             StoredPracticeExam.id := StoredPracticeExam.id exam;
             StoredPracticeExam.title := StoredPracticeExam.title exam;
             StoredPracticeExam.description := StoredPracticeExam.description exam;
             StoredPracticeExam.instructions := StoredPracticeExam.instructions exam;
             StoredPracticeExam.totalPoints := StoredPracticeExam.totalPoints exam;
             StoredPracticeExam.estimatedTime := StoredPracticeExam.estimatedTime exam;
             StoredPracticeExam.difficulty := StoredPracticeExam.difficulty exam;
             StoredPracticeExam.questionsData := StoredPracticeExam.questionsData exam;
             StoredPracticeExam.settings := StoredPracticeExam.settings exam;
             StoredPracticeExam.hasAnswerKey := StoredPracticeExam.hasAnswerKey exam;
             StoredPracticeExam.score := Some score;
             StoredPracticeExam.completedAt := Some (toISOString now);
             StoredPracticeExam.timeTaken := Some timeTaken;
             StoredPracticeExam.createdAt := StoredPracticeExam.createdAt exam |} ]>
             (practiceExams db);
         learningPaths := learningPaths db |}
  end.

Definition deleteLearningPath (db : ExamDatabase) (pathId : list N) : ExamDatabase :=
  {| examSeries := examSeries db;
     simulatorExams := simulatorExams db;
     practiceExams := practiceExams db;
     learningPaths := delete pathId (learningPaths db) |}.

(** The four [count()]s. *)
Definition getStorageStats (db : ExamDatabase) : StorageStats.t :=
  {| StorageStats.examSeries := size (examSeries db);
     StorageStats.simulatorExams := size (simulatorExams db);
     StorageStats.practiceExams := size (practiceExams db);
     StorageStats.learningPaths := size (learningPaths db) |}.

(** The four [clear()]s of one transaction. *)
Definition clearAllData (db : ExamDatabase) : ExamDatabase :=
  {| examSeries := ∅; simulatorExams := ∅; practiceExams := ∅; learningPaths := ∅ |}.

End DatabaseService.

(** ** The clocks of the pages *)

(** [seconds] is a whole number below 2^53 in absolute value, a safe
    integer. There the quotient by 3600 or by 60, once rounded to a
    double, still has the floor of the exact quotient (it is below 2^42,
    resp. 2^48, where half the gap between doubles is smaller than 1/3600,
    resp. 1/60); [%] is exact and takes the sign of the dividend; and the
    numbers are written in plain decimal. Beyond the safe integers the
    definitions do not follow the code, and the properties below do not
    go there. *)
Definition safeInteger (n : Z) : Prop := (- 2 ^ 53 < n < 2 ^ 53)%Z.

Module ExamSimulatorView.

Definition formatTime (seconds : Z) : list N :=
  let hours := (seconds / 3600)%Z in
  let minutes := (Z.rem seconds 3600 / 60)%Z in
  let secs := Z.rem seconds 60 in
  if (hours >? 0)%Z
  then ofZ hours ++ str ":" ++ padStart (ofZ minutes) 2 (str "0") ++ str ":"
       ++ padStart (ofZ secs) 2 (str "0")
  else ofZ minutes ++ str ":" ++ padStart (ofZ secs) 2 (str "0").

End ExamSimulatorView.

Module ExamSimulator.

Definition formatElapsedTime (seconds : Z) : list N :=
  let minutes := (seconds / 60)%Z in
  let remainingSeconds := Z.rem seconds 60 in
  ofZ minutes ++ str ":" ++ padStart (ofZ remainingSeconds) 2 (str "0").

End ExamSimulator.

(** * Properties *)

(** ** Facts about the exam series orchestrator *)

Section GenerationFacts.

Import ExamSimulatorService SimulatorSettings.

Variable E : env.
Variables (seriesTopic examContentDescription : list N).
Variable hasFiles : bool.
Variables (settings : SimulatorSettings.t) (examTime : Z).

(** The exam of one level, from the text that came back for it. *)
Definition levelExam (level : Z) (text : list N) : M SimulatorExam.t :=
  tryCatch (parsedExam E seriesTopic settings examTime level (cleanJsonResponse text))
    (fun _ => fallbackExam E seriesTopic settings level).

Definition labelOfLevel (level : Z) : list N :=
  DifficultyConfig.label (getDifficultyConfig level).

Definition fallbackQuestion (level : Z) : jsval :=
  JObj [
    (str "id", JStr (str "fallback_q" ++ ofZ level ++ str "_1"));
    (str "question",
      JStr (str "Sample Level " ++ ofZ level ++ str " question for " ++ seriesTopic));
    (str "type", JStr (str "multiple-choice"));
    (str "options", JArr [JStr (str "Option A"); JStr (str "Option B");
                         JStr (str "Option C"); JStr (str "Option D")]);
    (str "correctAnswer", JInt 0);
    (str "points", JInt 100);
    (str "explanation", JStr (str "This is a fallback question due to parsing error."));
    (str "difficulty", JStr (str "Medium"))].

Lemma fallbackExam_run level w :
  exists e w',
    fallbackExam E seriesTopic settings level w = (Returns e, w')
    /\ events w' = events w
    /\ SimulatorExam.difficultyLevel e = level
    /\ SimulatorExam.difficultyLabel e = labelOfLevel level
    /\ SimulatorExam.questions e = JArr [fallbackQuestion level].
Proof.
  eexists _, _. split; [reflexivity|]. simpl. auto.
Qed.

Lemma parsedExam_returns level cleanedText w e w' :
  parsedExam E seriesTopic settings examTime level cleanedText w = (Returns e, w') ->
  events w' = events w
  /\ SimulatorExam.difficultyLevel e = level
  /\ SimulatorExam.difficultyLabel e = labelOfLevel level.
Proof.
  unfold parsedExam, bind, lift, ret, throw, dateNow.
  intros H. repeat case_match; simplify_eq; simpl; auto.
Qed.

Lemma parsedExam_throws level cleanedText w t w' :
  parsedExam E seriesTopic settings examTime level cleanedText w = (Throws t, w') ->
  events w' = events w.
Proof.
  unfold parsedExam, bind, lift, ret, throw, dateNow.
  intros H. repeat case_match; simplify_eq; simpl; auto.
Qed.

(** Whatever came back, the level gets an exam, carrying the level and
    the label configured for it. *)
Lemma levelExam_run level text w :
  exists e w',
    levelExam level text w = (Returns e, w')
    /\ events w' = events w
    /\ SimulatorExam.difficultyLevel e = level
    /\ SimulatorExam.difficultyLabel e = labelOfLevel level.
Proof.
  unfold levelExam, tryCatch.
  destruct (parsedExam _ _ _ _ _ _ w) as [[e|t] w1] eqn:Hp.
  - apply parsedExam_returns in Hp. exists e, w1. tauto.
  - apply parsedExam_throws in Hp.
    destruct (fallbackExam_run level w1) as (e & w' & Hf & Hev & Hl & Hb & _).
    exists e, w'. rewrite Hf. repeat split; congruence.
Qed.

(** What one level of a run looked like: the capability was asked with
    the prompt of the level, answered some text, and the exam was built
    from that text. *)
Definition levelOutcome (level : Z) (e : SimulatorExam.t) : Prop :=
  exists history text w w',
    getOssResponse E history
      (createExamSeriesPrompt examContentDescription settings hasFiles level)
    = Returns text
    /\ levelExam level text w = (Returns e, w').

Lemma levelOutcome_level level e :
  levelOutcome level e ->
  SimulatorExam.difficultyLevel e = level
  /\ SimulatorExam.difficultyLabel e = labelOfLevel level.
Proof.
  intros (h & text & w & w' & _ & Hrun).
  destruct (levelExam_run level text w) as (e0 & w0 & Hrun0 & _ & Hl & Hb).
  rewrite Hrun in Hrun0. simplify_eq. auto.
Qed.

Definition generateLevels' :=
  generateLevels E seriesTopic examContentDescription hasFiles settings examTime.

(** A run of the loop that returns has gone through every level. *)
Lemma generateLevels_returns levels : forall exams w result w',
  generateLevels' levels exams w = (Returns result, w') ->
  exists new, result = exams ++ new /\ Forall2 levelOutcome levels new.
Proof.
  unfold generateLevels'.
  induction levels as [|level rest IH]; intros exams w result w' Hrun; simpl in Hrun.
  - unfold ret in Hrun. simplify_eq. exists []. rewrite app_nil_r. auto.
  - unfold bind at 1 in Hrun. unfold awaitOss in Hrun.
    destruct (getOssResponse E (events w) _) as [text|t] eqn:Hresp; [|discriminate].
    unfold bind at 1 in Hrun.
    fold (levelExam level text) in Hrun.
    match type of Hrun with context [levelExam level text ?w1] =>
      destruct (levelExam_run level text w1) as (e & w2 & Hexam & _); rewrite Hexam in Hrun
    end.
    unfold bind at 1 in Hrun.
    match type of Hrun with context [(if ?c then emit _ else ret tt) w2] =>
      assert (exists w3, (if c then emit (Delay 1000) else ret tt) w2 = (Returns tt, w3))
        as [w3 Hw3] by (destruct c; eexists; reflexivity);
      rewrite Hw3 in Hrun
    end.
    apply IH in Hrun as (new & -> & Hall).
    exists (e :: new). split; [by rewrite <- app_assoc|].
    constructor; [|assumption].
    do 4 eexists. split; [exact Hresp|exact Hexam].
Qed.

(** When the capability never throws, the loop returns. *)
Lemma generateLevels_total levels :
  (forall history prompt, exists text, getOssResponse E history prompt = Returns text) ->
  forall exams w, exists result w', generateLevels' levels exams w = (Returns result, w').
Proof.
  intros Hret. unfold generateLevels'.
  induction levels as [|level rest IH]; intros exams w; simpl.
  - eexists _, _. reflexivity.
  - unfold bind at 1. unfold awaitOss.
    destruct (Hret (events w)
                (createExamSeriesPrompt examContentDescription settings hasFiles level))
      as [text ->].
    unfold bind at 1. fold (levelExam level text).
    match goal with |- context [levelExam level text ?w1] =>
      destruct (levelExam_run level text w1) as (e & w2 & Hexam & _); rewrite Hexam
    end.
    unfold bind at 1.
    match goal with |- context [(if ?c then emit _ else ret tt) w2] =>
      assert (exists w3, (if c then emit (Delay 1000) else ret tt) w2 = (Returns tt, w3))
        as [w3 Hw3] by (destruct c; eexists; reflexivity);
      rewrite Hw3
    end.
    apply IH.
Qed.

(** A request that threw ends the loop with what it threw. *)
Lemma generateLevels_thrown levels prompt t : forall exams w result w',
  generateLevels' levels exams w = (result, w') ->
  Request prompt (Throws t) ∈ events w' ->
  Request prompt (Throws t) ∉ events w ->
  result = Throws t.
Proof.
  unfold generateLevels'.
  induction levels as [|level rest IH]; intros exams w result w' Hrun Hin Hnotin;
    simpl in Hrun.
  - unfold ret in Hrun. simplify_eq. contradiction.
  - unfold bind at 1 in Hrun. unfold awaitOss in Hrun.
    destruct (getOssResponse E (events w) _) as [text|t0] eqn:Hresp.
    + unfold bind at 1 in Hrun. fold (levelExam level text) in Hrun.
      match type of Hrun with context [levelExam level text ?w1] =>
        destruct (levelExam_run level text w1) as (e & w2 & Hexam & Hev2 & _);
        rewrite Hexam in Hrun
      end.
      unfold bind at 1 in Hrun.
      match type of Hrun with context [(if ?c then emit _ else ret tt) w2] =>
        assert (exists w3, (if c then emit (Delay 1000) else ret tt) w2 = (Returns tt, w3)
                           /\ (events w3 = events w2 \/ events w3 = events w2 ++ [Delay 1000]))
          as (w3 & Hw3 & Hev3) by (destruct c; eexists; split; try reflexivity; auto);
        rewrite Hw3 in Hrun
      end.
      eapply IH; [exact Hrun|exact Hin|].
      simpl in Hev2.
      destruct Hev3 as [-> | ->]; rewrite Hev2; intros Hbad;
        repeat (apply elem_of_app in Hbad as [Hbad|Hbad]); try contradiction;
        apply list_elem_of_singleton in Hbad; discriminate.
    + simplify_eq. simpl in Hin.
      apply elem_of_app in Hin as [Hin|Hin]; [contradiction|].
      apply list_elem_of_singleton in Hin. congruence.
Qed.

(** Reading the files issues no request, and fails only with the error
    the loop makes for the file. *)
Lemma processFiles_run files : forall w result w',
  processFiles E files w = (result, w') ->
  (forall prompt response,
      Request prompt response ∈ events w' -> Request prompt response ∈ events w)
  /\ match result with
     | Returns _ => True
     | Throws t => exists e, t = ErrorInstance e
     end.
Proof.
  induction files as [|file rest IH]; intros w result w' Hrun; simpl in Hrun.
  - unfold ret in Hrun. simplify_eq. auto.
  - unfold bind at 1, tryCatch, bind, awaitFile, ret, throw in Hrun.
    destruct (fileToBase64 E file) as [b|t] eqn:Hfile.
    + apply IH in Hrun as [Hreq Hres]. split; [|assumption].
      intros p r Hin. apply Hreq in Hin. simpl in Hin.
      apply elem_of_app in Hin as [Hin|Hin]; [assumption|].
      apply list_elem_of_singleton in Hin. discriminate.
    + simplify_eq. split; [|eauto].
      intros p r Hin. simpl in Hin.
      apply elem_of_app in Hin as [Hin|Hin]; [assumption|].
      apply list_elem_of_singleton in Hin. discriminate.
Qed.

Lemma processFiles_total files :
  Forall (fun file => exists b, fileToBase64 E file = Returns b) files ->
  forall w, exists w', processFiles E files w = (Returns tt, w').
Proof.
  induction 1 as [|file rest [b Hb] _ IH]; intros w; simpl.
  - eexists. reflexivity.
  - unfold bind at 1, tryCatch, bind, awaitFile, ret. rewrite Hb. apply IH.
Qed.

End GenerationFacts.

(** ** The exam series orchestrator: the series it returns *)

Section SeriesFacts.

Import ExamSimulatorService SimulatorSettings.

Variable E : env.
Variables (seriesTopic examContentDescription : list N).
Variable files : list File.
Variables (settings : SimulatorSettings.t) (examTime : Z).

Definition hasFilesOf (fs : list File) : bool := negb (bool_decide (length fs = 0%nat)).

Definition generateExamSeries' :=
  generateExamSeries E seriesTopic examContentDescription files settings examTime.

Definition rethrown (t : thrown) : thrown :=
  match t with
  | ErrorInstance _ => t
  | OtherValue _ =>
      ErrorInstance (Error (str "An unexpected error occurred while generating the exam series. Please check your files and try again."))
  end.

Lemma generateExamSeries_returns w series w' :
  generateExamSeries' w = (Returns series, w') ->
  ExamSeries.topic series = seriesTopic
  /\ ExamSeries.totalExams series = numberOfExams settings
  /\ Forall2 (levelOutcome E seriesTopic examContentDescription (hasFilesOf files)
                settings examTime)
       (seqZ 1 (numberOfExams settings)) (ExamSeries.exams series).
Proof.
  unfold generateExamSeries', generateExamSeries.
  destruct (_ && _); [discriminate|].
  unfold tryCatch, bind at 1.
  destruct (processFiles E files w) as [[[]|t] w1] eqn:Hfiles;
    [|destruct t; discriminate].
  unfold bind at 1.
  destruct (generateLevels _ _ _ _ _ _ _ _ w1) as [[exams|t] w2] eqn:Hlevels;
    [|destruct t; discriminate].
  apply generateLevels_returns in Hlevels as (new & -> & Hall).
  unfold bind, dateNow, ret. intros Heq. simplify_eq. simpl. auto.
Qed.

Lemma generateExamSeries_total w :
  trim examContentDescription ≠ [] \/ files ≠ [] ->
  Forall (fun file => exists b, fileToBase64 E file = Returns b) files ->
  (forall history prompt, exists text, getOssResponse E history prompt = Returns text) ->
  exists series w', generateExamSeries' w = (Returns series, w').
Proof.
  intros Hinput Hfiles Hret.
  unfold generateExamSeries', generateExamSeries.
  destruct (_ && _) eqn:Hcheck.
  { apply andb_prop in Hcheck as [H1 H2].
    apply bool_decide_eq_true in H1, H2.
    destruct Hinput as [Hd|Hf]; [contradiction|].
    destruct files; [contradiction|discriminate]. }
  unfold tryCatch, bind at 1.
  destruct (processFiles_total E files Hfiles w) as [w1 ->].
  unfold bind at 1.
  destruct (generateLevels_total E seriesTopic examContentDescription (hasFilesOf files)
              settings examTime (seqZ 1 (numberOfExams settings)) Hret [] w1)
    as (exams & w2 & Hlevels).
  unfold generateLevels', hasFilesOf in Hlevels. rewrite Hlevels.
  eexists _, _. reflexivity.
Qed.

Lemma generateExamSeries_thrown_request w result w' prompt t :
  generateExamSeries' w = (result, w') ->
  Request prompt (Throws t) ∈ events w' ->
  Request prompt (Throws t) ∉ events w ->
  result = Throws (rethrown t).
Proof.
  unfold generateExamSeries', generateExamSeries.
  destruct (_ && _).
  { unfold throw. intros Heq Hin Hnotin. simplify_eq. contradiction. }
  unfold tryCatch, bind at 1.
  destruct (processFiles E files w) as [[[]|t0] w1] eqn:Hfiles.
  - apply processFiles_run in Hfiles as [Hreq _].
    unfold bind at 1.
    destruct (generateLevels _ _ _ _ _ _ _ _ w1) as [[exams|t1] w2] eqn:Hlevels.
    + unfold bind, dateNow, ret. intros Heq Hin Hnotin. simplify_eq. simpl in Hin.
      eapply generateLevels_thrown in Hlevels; [discriminate|exact Hin|].
      intros Hbad. apply Hnotin, Hreq, Hbad.
    + intros Heq Hin Hnotin.
      assert (w' = w2) as -> by (destruct t1; unfold throw in Heq; congruence).
      eapply generateLevels_thrown in Hlevels; [|exact Hin|].
      * simplify_eq. destruct t; unfold throw in Heq; simpl; congruence.
      * intros Hbad. apply Hnotin, Hreq, Hbad.
  - apply processFiles_run in Hfiles as [Hreq _].
    intros Heq Hin Hnotin.
    assert (w' = w1) as -> by (destruct t0; unfold throw in Heq; congruence).
    exfalso. apply Hnotin, Hreq, Hin.
Qed.

End SeriesFacts.

(** ** The difficulty table *)

Import ExamSimulatorService.

Definition difficultyLabels : list (list N) :=
  [str "Foundation"; str "Beginner"; str "Intermediate"; str "Advanced";
   str "Expert"; str "Master"; str "Genius"].

Lemma labelOfLevel_table n :
  (1 <= n <= 7)%Z ->
  map labelOfLevel (seqZ 1 n) = take (Z.to_nat n) difficultyLabels.
Proof.
  intros Hn.
  assert (n = 1 \/ n = 2 \/ n = 3 \/ n = 4 \/ n = 5 \/ n = 6 \/ n = 7)%Z as Hcases by lia.
  repeat destruct Hcases as [->|Hcases]; try subst n; reflexivity.
Qed.

Lemma take_difficultyLabels n :
  Forall (fun l => l ≠ [] /\ l ∈ difficultyLabels) (take n difficultyLabels).
Proof.
  assert (Forall (fun l => l ≠ [] /\ l ∈ difficultyLabels) difficultyLabels) as Hall.
  { unfold difficultyLabels. repeat constructor; try discriminate;
      repeat first [apply list_elem_of_here | apply list_elem_of_further]. }
  apply Forall_take, Hall.
Qed.

Lemma levelOutcomes_levels E topic desc hasFiles settings examTime levels exams :
  Forall2 (levelOutcome E topic desc hasFiles settings examTime) levels exams ->
  map SimulatorExam.difficultyLevel exams = levels
  /\ map SimulatorExam.difficultyLabel exams = map labelOfLevel levels.
Proof.
  induction 1 as [|level e levels exams Hone _ [IH1 IH2]]; [split; reflexivity|].
  apply levelOutcome_level in Hone as [Hl Hb]. simpl. split; congruence.
Qed.



(** C3. With a description that is empty or white space only and no
    reference file, [generateExamSeries] throws the input error at once:
    the world is as it was, no request issued, no clock read, and no
    series comes back. *)
Theorem generateExamSeries_no_content
  (E : env) (seriesTopic examContentDescription : list N)
  (settings : SimulatorSettings.t) (examTime : Z) (w : world) :
  trim examContentDescription = [] ->
  generateExamSeries E seriesTopic examContentDescription [] settings examTime w
  = (Throws (ErrorInstance (Error
       (str "Please provide either an exam description or upload reference materials."))),
     w).
Proof.
  intros Hblank. unfold generateExamSeries. rewrite Hblank. reflexivity.
Qed.

Definition stubEnv (respond : list N -> outcome (list N)) : env :=
  {| clock := fun n => (1700000000000 + Z.of_nat n)%Z;
     getOssResponse := fun _ prompt => respond prompt;
     fileToBase64 := fun _ => Returns (str "QUJD") |}.

Definition twoExams : SimulatorSettings.t :=
  {| SimulatorSettings.numberOfExams := 2;
     SimulatorSettings.questionsPerExam := None;
     SimulatorSettings.timePerExam := None |}.

Definition wellFormedResponse : list N :=
  str "{" ++ quoted "title" ++ str ": " ++ quoted "Linear equations"
  ++ str ", " ++ quoted "questions" ++ str ": [{" ++ quoted "question" ++ str ": "
  ++ quoted "Solve 2x = 4" ++ str ", " ++ quoted "points" ++ str ": 5}]}".

Lemma generateExamSeries_no_content_witness :
  trim (str "   ") = []
  /\ generateExamSeries (stubEnv (fun _ => Returns wellFormedResponse))
       (str "Algebra Basics") (str "   ") [] twoExams 30 initialWorld
     = (Throws (ErrorInstance (Error
          (str "Please provide either an exam description or upload reference materials."))),
        initialWorld).
Proof.
  split; [reflexivity|].
  apply (generateExamSeries_no_content _ _ (str "   ")). reflexivity.
Defined.

(** C2. With [numberOfExams = N] between 1 and 7, a content source, files
    that can be read and a capability that answers (whatever the text),
    [generateExamSeries] returns a series of exactly N exams, at the levels
    1..N in this order, labelled with the first N entries of the
    vocabulary. *)
Theorem generateExamSeries_levels
  (E : env) (seriesTopic examContentDescription : list N) (files : list File)
  (settings : SimulatorSettings.t) (examTime : Z) (w : world) :
  (1 <= SimulatorSettings.numberOfExams settings <= 7)%Z ->
  trim examContentDescription ≠ [] \/ files ≠ [] ->
  Forall (fun file => exists b, fileToBase64 E file = Returns b) files ->
  (forall history prompt, exists text, getOssResponse E history prompt = Returns text) ->
  exists series w',
    generateExamSeries E seriesTopic examContentDescription files settings examTime w
    = (Returns series, w')
    /\ ExamSeries.totalExams series = SimulatorSettings.numberOfExams settings
    /\ Z.of_nat (length (ExamSeries.exams series)) = SimulatorSettings.numberOfExams settings
    /\ map SimulatorExam.difficultyLevel (ExamSeries.exams series)
       = seqZ 1 (SimulatorSettings.numberOfExams settings)
    /\ map SimulatorExam.difficultyLabel (ExamSeries.exams series)
       = take (Z.to_nat (SimulatorSettings.numberOfExams settings)) difficultyLabels
    /\ Forall (fun e => SimulatorExam.difficultyLabel e ≠ []
                        /\ SimulatorExam.difficultyLabel e ∈ difficultyLabels)
         (ExamSeries.exams series).
Proof.
  intros Hn Hinput Hfiles Hret.
  destruct (generateExamSeries_total E seriesTopic examContentDescription files settings
              examTime w Hinput Hfiles Hret) as (series & w' & Hrun).
  exists series, w'. split; [exact Hrun|].
  apply generateExamSeries_returns in Hrun as (_ & Htotal & Hall).
  apply levelOutcomes_levels in Hall as [Hlevels Hlabels].
  rewrite labelOfLevel_table in Hlabels by assumption.
  repeat split; try assumption.
  - rewrite <- (length_map SimulatorExam.difficultyLevel), Hlevels, length_seqZ. lia.
  - pose proof (take_difficultyLabels
                  (Z.to_nat (SimulatorSettings.numberOfExams settings))) as Hvoc.
    rewrite <- Hlabels in Hvoc. apply Forall_map in Hvoc. exact Hvoc.
Qed.

(** The example scenario of the specification. *)
Lemma generateExamSeries_levels_witness :
  exists series w',
    generateExamSeries (stubEnv (fun _ => Returns wellFormedResponse))
      (str "Algebra Basics") (str "covers linear equations") [] twoExams 30 initialWorld
    = (Returns series, w')
    /\ ExamSeries.totalExams series = 2%Z
    /\ map SimulatorExam.difficultyLevel (ExamSeries.exams series) = [1; 2]%Z
    /\ map SimulatorExam.difficultyLabel (ExamSeries.exams series)
       = [str "Foundation"; str "Beginner"].
Proof.
  destruct (generateExamSeries_levels (stubEnv (fun _ => Returns wellFormedResponse))
              (str "Algebra Basics") (str "covers linear equations") [] twoExams 30
              initialWorld)
    as (series & w' & Hrun & Htotal & _ & Hlevels & Hlabels & _).
  - simpl. lia.
  - left. vm_compute. discriminate.
  - constructor.
  - intros history prompt. eexists. reflexivity.
  - exists series, w'. auto.
Defined.

(** Beyond the table: the eighth exam of a series of eight carries the
    label of level 1. *)
Lemma eighth_exam_is_foundation :
  let settings := {| SimulatorSettings.numberOfExams := 8;
                     SimulatorSettings.questionsPerExam := None;
                     SimulatorSettings.timePerExam := None |} in
  (fun run => match run.1 with
              | Returns series =>
                  map SimulatorExam.difficultyLabel
                    (drop 6 (ExamSeries.exams series))
              | Throws _ => []
              end)
    (generateExamSeries (stubEnv (fun _ => Returns wellFormedResponse))
       (str "Algebra Basics") (str "covers linear equations") [] settings 30 initialWorld)
  = [str "Genius"; str "Foundation"].
Proof. vm_compute. reflexivity. Qed.

(** ** A capability that throws *)

(** C4. When a request of the run threw, [generateExamSeries] rejects and
    returns no series, whatever the earlier levels produced. What
    [getOssResponse] throws is an instance of [Error] (one of its own, or
    what [fetch] and the reading of the answer threw), and the run
    rejects with that very error. The outer [catch] would replace a
    thrown value that is no [Error] by an [Error] of its own
    ([rethrown]). *)
Theorem generateExamSeries_rejects_when_request_throws
  (E : env) (seriesTopic examContentDescription : list N) (files : list File)
  (settings : SimulatorSettings.t) (examTime : Z) (w : world)
  (result : outcome ExamSeries.t) (w' : world) (prompt : list N) (t : thrown) :
  generateExamSeries E seriesTopic examContentDescription files settings examTime w
  = (result, w') ->
  Request prompt (Throws t) ∈ events w' ->
  Request prompt (Throws t) ∉ events w ->
  result = Throws (rethrown t)
  /\ (forall e, t = ErrorInstance e -> result = Throws t).
Proof.
  intros Hrun Hin Hnotin.
  pose proof (generateExamSeries_thrown_request E seriesTopic examContentDescription files
                settings examTime w result w' prompt t Hrun Hin Hnotin) as Hres.
  split; [exact Hres|]. intros e ->. exact Hres.
Qed.

Definition threeExams : SimulatorSettings.t :=
  {| SimulatorSettings.numberOfExams := 3;
     SimulatorSettings.questionsPerExam := None;
     SimulatorSettings.timePerExam := None |}.

Definition promptOfLevel (settings : SimulatorSettings.t) (level : Z) : list N :=
  createExamSeriesPrompt (str "covers linear equations") settings false level.

(** Answers [special] to the prompt of level 2, a well-formed exam to any
    other. *)
Definition levelTwoStub (special : outcome (list N)) : env :=
  stubEnv (fun prompt =>
             if decide (prompt = promptOfLevel threeExams 2) then special
             else Returns wellFormedResponse).

Definition tooManyRequests : thrown :=
  ErrorInstance (Error (str "429 Too Many Requests")).

Lemma generateExamSeries_rejects_when_request_throws_witness :
  exists w',
    generateExamSeries (levelTwoStub (Throws tooManyRequests))
      (str "Algebra Basics") (str "covers linear equations") [] threeExams 30 initialWorld
    = (Throws tooManyRequests, w')
    /\ Request (promptOfLevel threeExams 2) (Throws tooManyRequests) ∈ events w'.
Proof.
  destruct (generateExamSeries (levelTwoStub (Throws tooManyRequests))
      (str "Algebra Basics") (str "covers linear equations") [] threeExams 30 initialWorld)
    as [result w'] eqn:Hrun.
  assert (Request (promptOfLevel threeExams 2) (Throws tooManyRequests) ∈ events w') as Hin.
  { replace w' with
      (snd (generateExamSeries (levelTwoStub (Throws tooManyRequests))
              (str "Algebra Basics") (str "covers linear equations") [] threeExams 30
              initialWorld)) by (rewrite Hrun; reflexivity).
    vm_compute. do 2 apply list_elem_of_further. apply list_elem_of_here. }
  destruct (generateExamSeries_rejects_when_request_throws _ _ _ _ _ _ _ _ _ _ _
              Hrun Hin (not_elem_of_nil _)) as [Hres _].
  exists w'. split; [|exact Hin]. rewrite Hres. reflexivity.
Defined.

(** ** A response that does not parse *)

Definition readable (E : env) (file : File) : Prop :=
  exists b, fileToBase64 E file = Returns b.

(** C5 as the specification words it: the text that comes back for level
    2 is not JSON, the texts for levels 1 and 3 are. *)
Definition invalid_json_gives_fallback : Prop :=
  forall E topic desc files settings examTime w invalid,
    SimulatorSettings.numberOfExams settings = 3%Z ->
    trim desc ≠ [] \/ files ≠ [] ->
    Forall (readable E) files ->
    JSON_parse invalid = None ->
    (forall history,
        getOssResponse E history
          (createExamSeriesPrompt desc settings (hasFilesOf files) 2) = Returns invalid) ->
    (forall history level, level = 1%Z \/ level = 3%Z ->
        exists text,
          getOssResponse E history
            (createExamSeriesPrompt desc settings (hasFilesOf files) level) = Returns text
          /\ JSON_parse text ≠ None) ->
    exists series w' e2 q,
      generateExamSeries E topic desc files settings examTime w = (Returns series, w')
      /\ length (ExamSeries.exams series) = 3%nat
      /\ ExamSeries.exams series !! 1%nat = Some e2
      /\ SimulatorExam.questions e2 = JArr [q]
      /\ SimulatorExam.difficultyLabel e2 = labelOfLevel 2.

Definition chattyResponse : list N :=
  str "oops {" ++ quoted "questions" ++ str ":[]}".

Definition questionsOfSecond (run : outcome ExamSeries.t * world) : option jsval :=
  match run with
  | (Returns series, _) => SimulatorExam.questions <$> ExamSeries.exams series !! 1%nat
  | _ => None
  end.

(** A text that is not JSON as it stands, prose before an object, is
    cleaned into JSON that parses: level 2 gets the exam the text
    describes, here one without questions, not the fallback. *)
Lemma invalid_json_gives_fallback_fails : ¬ invalid_json_gives_fallback.
Proof.
  intros Hclaim.
  destruct (Hclaim (levelTwoStub (Returns chattyResponse))
              (str "Algebra Basics") (str "covers linear equations") [] threeExams 30%Z
              initialWorld chattyResponse)
    as (series & w' & e2 & q & Hrun & _ & He2 & Hq & _).
  - reflexivity.
  - left. vm_compute. discriminate.
  - constructor.
  - vm_compute. reflexivity.
  - intros history. vm_compute. reflexivity.
  - intros history level [-> | ->]; exists wellFormedResponse;
      (split; [vm_compute; reflexivity | vm_compute; discriminate]).
  - assert (questionsOfSecond
              (generateExamSeries (levelTwoStub (Returns chattyResponse))
                 (str "Algebra Basics") (str "covers linear equations") [] threeExams 30%Z
                 initialWorld) = Some (JArr [])) as Hreal by (vm_compute; reflexivity).
    rewrite Hrun in Hreal. simpl in Hreal. rewrite He2 in Hreal. simpl in Hreal.
    congruence.
Qed.

(** ** Facts about the JSON reader *)

Ltac app_solve :=
  subst; simpl; rewrite <- ?app_assoc; simpl;
  repeat (f_equal; rewrite <- ?app_assoc; simpl); reflexivity.

Section ParserFacts.

Lemma skipWs_split s :
  exists ws, s = ws ++ skipWs s /\ Forall (fun c => isJsonWs c = true) ws.
Proof.
  induction s as [|c s (ws & Hs & Hws)]; simpl.
  - exists []. auto.
  - destruct (isJsonWs c) eqn:Hc.
    + exists (c :: ws). split; [simpl; congruence|by constructor].
    + exists []. auto.
Qed.

Lemma skipWs_head s c r : skipWs s = c :: r -> isJsonWs c = false.
Proof.
  induction s as [|c0 s IH]; simpl; [discriminate|].
  destruct (isJsonWs c0) eqn:Hc; [exact IH|]. intros Heq. by simplify_eq.
Qed.

Lemma skipWs_no_ws c r : isJsonWs c = false -> skipWs (c :: r) = c :: r.
Proof. intros Hc. simpl. by rewrite Hc. Qed.

Lemma skipWs_app ws s :
  Forall (fun c => isJsonWs c = true) ws -> skipWs (ws ++ s) = skipWs s.
Proof. induction 1 as [|c ws Hc _ IH]; simpl; [reflexivity|by rewrite Hc]. Qed.

Lemma skipWs_idem s : skipWs (skipWs s) = skipWs s.
Proof.
  destruct (skipWs s) as [|c r] eqn:Hs; [reflexivity|].
  apply skipWs_no_ws. eapply skipWs_head, Hs.
Qed.

Lemma skipWs_length s : (length (skipWs s) <= length s)%nat.
Proof.
  destruct (skipWs_split s) as (ws & Hs & _).
  rewrite Hs at 2. rewrite length_app. lia.
Qed.

(** What a parser has read: the text is what was read followed by what is
    left, and something was read. *)
Definition consumed (s r : list N) : Prop :=
  exists pre, s = pre ++ r /\ pre ≠ [].

Lemma consumed_cons c s r : consumed s r -> consumed (c :: s) r.
Proof. intros (pre & -> & _). by exists (c :: pre). Qed.

Lemma consumed_here c r : consumed (c :: r) r.
Proof. by exists [c]. Qed.

Lemma consumed_length s r : consumed s r -> (length r < length s)%nat.
Proof.
  intros (pre & -> & Hpre). rewrite length_app.
  destruct pre; [done|simpl; lia].
Qed.

Lemma consChar_ok c k t r : consChar c k = POk t r -> exists t', k = POk t' r.
Proof. destruct k; simpl; intros; simplify_eq; eauto. Qed.

Lemma parseChars_consumed s : forall t r, parseChars s = POk t r -> consumed s r.
Proof.
  induction s as [s IH] using (induction_ltof1 _ (@length N)). unfold ltof in IH.
  intros t r. destruct s as [|c s]; simpl; [discriminate|].
  destruct (c =? 34). { intros Heq. simplify_eq. apply consumed_here. }
  destruct (c =? 92).
  - destruct s as [|e s]; [discriminate|].
    repeat match goal with
           | |- (if ?b then _ else _) = _ -> _ => destruct b
           | |- consChar _ (parseChars s) = _ -> _ =>
               intros (t' & Hk)%consChar_ok;
               apply IH in Hk; [by do 2 apply consumed_cons|simpl; lia]
           end; try discriminate.
    destruct s as [|h1 [|h2 [|h3 [|h4 s]]]]; try discriminate.
    destruct (hexValue h1), (hexValue h2), (hexValue h3), (hexValue h4); try discriminate.
    intros (t' & Hk)%consChar_ok.
    apply IH in Hk; [by do 6 apply consumed_cons|simpl; lia].
  - destruct (c <? 32); [discriminate|].
    intros (t' & Hk)%consChar_ok.
    apply IH in Hk; [by apply consumed_cons|simpl; lia].
Qed.

Lemma startsWith_app s p : startsWith s p = true -> s = p ++ drop (length p) s.
Proof.
  revert s. induction p as [|a p IH]; intros s; simpl; [reflexivity|].
  destruct s as [|c s]; [discriminate|].
  intros [Hc Hp]%andb_prop. apply N.eqb_eq in Hc. subst. simpl. f_equal. by apply IH.
Qed.

Lemma spanNumber_app s : forall lit r, spanNumber s = (lit, r) -> s = lit ++ r.
Proof.
  induction s as [|c s IH]; simpl; intros lit r Heq; [by simplify_eq|].
  destruct (isNumberChar c); [|by simplify_eq].
  destruct (spanNumber s) as [a b]. simplify_eq. simpl. f_equal. by apply IH.
Qed.

Lemma spanNumber_all s : forall lit r,
  spanNumber s = (lit, r) -> forallb isNumberChar lit = true.
Proof.
  induction s as [|c s IH]; simpl; intros lit r Heq; [by simplify_eq|].
  destruct (isNumberChar c) eqn:Hc; [|by simplify_eq].
  destruct (spanNumber s) as [a b]. simplify_eq. simpl. rewrite Hc. eauto.
Qed.

Definition isContainer (v : jsval) : bool :=
  match v with
  | JArr _ | JObj _ => true
  | _ => false
  end.

Lemma parseAtom_consumed s v r :
  parseAtom s = POk v r -> consumed s r /\ isContainer v = false.
Proof.
  unfold parseAtom.
  destruct (startsWith s (str "null")) eqn:H1.
  { intros Heq. simplify_eq. split; [|reflexivity].
    exists (str "null"). split; [by apply startsWith_app in H1|discriminate]. }
  destruct (startsWith s (str "true")) eqn:H2.
  { intros Heq. simplify_eq. split; [|reflexivity].
    exists (str "true"). split; [by apply startsWith_app in H2|discriminate]. }
  destruct (startsWith s (str "false")) eqn:H3.
  { intros Heq. simplify_eq. split; [|reflexivity].
    exists (str "false"). split; [by apply startsWith_app in H3|discriminate]. }
  destruct (spanNumber s) as [lit rest] eqn:Hspan.
  destruct (isNumberLiteral lit) eqn:Hlit; [|discriminate].
  intros Heq. simplify_eq. split; [|reflexivity].
  exists lit. split; [by apply spanNumber_app|].
  intros ->. discriminate.
Qed.

(** What was read for a value: for an object it starts with the opening
    brace and ends with the closing one, likewise for an array. *)
Definition delimited (v : jsval) (pre : list N) : Prop :=
  match v with
  | JObj _ => exists mid, pre = ch "{" :: mid ++ [ch "}"]
  | JArr _ => exists mid, pre = ch "[" :: mid ++ [ch "]"]
  | _ => True
  end.

Definition valueRead (s : list N) (v : jsval) (r : list N) : Prop :=
  exists pre, skipWs s = pre ++ r /\ pre ≠ [] /\ delimited v pre.

Definition elementsRead (s : list N) (v : jsval) (r : list N) : Prop :=
  exists pre l, s = pre ++ ch "]" :: r /\ v = JArr l.

Definition membersRead (s : list N) (v : jsval) (r : list N) : Prop :=
  exists pre m, s = pre ++ ch "}" :: r /\ v = JObj m.

Lemma valueStep_read elements members s v r :
  (forall s acc v r, elements s acc = POk v r -> elementsRead s v r) ->
  (forall s acc v r, members s acc = POk v r -> membersRead s v r) ->
  valueStep elements members s = POk v r -> valueRead s v r.
Proof.
  intros He Hm. unfold valueStep, valueRead.
  destruct (skipWs s) as [|c r0] eqn:Hs; [discriminate|].
  destruct (N.eqb_spec c (ch "{")) as [->|_].
  { destruct (skipWs_split r0) as (ws & Hr0 & _).
    destruct (skipWs r0) as [|c' r'] eqn:Hs'; [discriminate|].
    destruct (N.eqb_spec c' (ch "}")) as [->|_].
    - intros Heq. simplify_eq. exists (ch "{" :: ws ++ [ch "}"]).
      split; [|split; [discriminate|by exists ws]].
      simpl. by rewrite <- ?app_assoc.
    - intros (pre & m & Hpre & ->)%Hm.
      exists (ch "{" :: (ws ++ pre) ++ [ch "}"]).
      split; [|split; [discriminate|by eexists]].
      rewrite Hr0, Hpre. simpl. by rewrite <- ?app_assoc. }
  destruct (N.eqb_spec c (ch "[")) as [->|_].
  { destruct (skipWs_split r0) as (ws & Hr0 & _).
    destruct (skipWs r0) as [|c' r'] eqn:Hs'; [discriminate|].
    destruct (N.eqb_spec c' (ch "]")) as [->|_].
    - intros Heq. simplify_eq. exists (ch "[" :: ws ++ [ch "]"]).
      split; [|split; [discriminate|by exists ws]].
      simpl. by rewrite <- ?app_assoc.
    - intros (pre & l & Hpre & ->)%He.
      exists (ch "[" :: (ws ++ pre) ++ [ch "]"]).
      split; [|split; [discriminate|by eexists]].
      rewrite Hr0, Hpre. simpl. by rewrite <- ?app_assoc. }
  destruct (c =? 34).
  { destruct (parseChars r0) as [t rest| |] eqn:Hchars; try discriminate.
    intros Heq. simplify_eq.
    apply parseChars_consumed in Hchars as (pre & -> & _).
    exists (c :: pre). split; [reflexivity|split; [discriminate|exact I]]. }
  intros [(pre & Hpre & Hne) Hatom]%parseAtom_consumed.
  exists pre. split; [assumption|split; [assumption|]].
  destruct v; try exact I; discriminate.
Qed.

Lemma valueRead_text s v r :
  valueRead s v r -> exists ws pre, s = ws ++ pre ++ r /\ pre ≠ [].
Proof.
  intros (pre & Hs & Hne & _). destruct (skipWs_split s) as (ws & Hsplit & _).
  exists ws, pre. by rewrite <- Hs.
Qed.

Lemma elementsStep_read value elements s acc v r :
  (forall s v r, value s = POk v r -> valueRead s v r) ->
  (forall s acc v r, elements s acc = POk v r -> elementsRead s v r) ->
  elementsStep value elements s acc = POk v r -> elementsRead s v r.
Proof.
  intros Hv He. unfold elementsStep, elementsRead.
  destruct (value s) as [v1 r1| |] eqn:Hval; try discriminate.
  apply Hv, valueRead_text in Hval as (ws & pre & -> & _).
  destruct (skipWs_split r1) as (ws1 & Hr1 & _).
  destruct (skipWs r1) as [|c r2]; [discriminate|].
  destruct (N.eqb_spec c (ch ",")) as [->|_].
  - intros (pre2 & l & -> & ->)%He.
    exists (ws ++ pre ++ ws1 ++ ch "," :: pre2), l. split; [|reflexivity].
    rewrite Hr1. by rewrite <- !app_assoc.
  - destruct (N.eqb_spec c (ch "]")) as [->|_]; [|discriminate].
    intros Heq. simplify_eq.
    exists (ws ++ pre ++ ws1), (acc ++ [v1]). split; [|reflexivity].
    by rewrite <- !app_assoc.
Qed.

Lemma membersStep_read value members s acc v r :
  (forall s v r, value s = POk v r -> valueRead s v r) ->
  (forall s acc v r, members s acc = POk v r -> membersRead s v r) ->
  membersStep value members s acc = POk v r -> membersRead s v r.
Proof.
  intros Hv Hm. unfold membersStep, membersRead.
  destruct (skipWs_split s) as (ws0 & Hs & _).
  destruct (skipWs s) as [|c r0]; [discriminate|].
  destruct (c =? 34); [|discriminate].
  destruct (parseChars r0) as [k r1| |] eqn:Hchars; try discriminate.
  apply parseChars_consumed in Hchars as (pre0 & -> & _).
  destruct (skipWs_split r1) as (ws1 & Hr1 & _).
  destruct (skipWs r1) as [|c1 r2]; [discriminate|].
  destruct (c1 =? ch ":"); [|discriminate].
  destruct (value r2) as [v1 r3| |] eqn:Hval; try discriminate.
  apply Hv, valueRead_text in Hval as (ws2 & pre2 & -> & _).
  destruct (skipWs_split r3) as (ws3 & Hr3 & _).
  destruct (skipWs r3) as [|c3 r4]; [discriminate|].
  destruct (N.eqb_spec c3 (ch ",")) as [->|_].
  - intros (pre4 & m & -> & ->)%Hm.
    exists (ws0 ++ c :: pre0 ++ ws1 ++ c1 :: ws2 ++ pre2 ++ ws3 ++ ch "," :: pre4), m.
    split; [|reflexivity]. app_solve.
  - destruct (N.eqb_spec c3 (ch "}")) as [->|_]; [|discriminate].
    intros Heq. simplify_eq.
    exists (ws0 ++ c :: pre0 ++ ws1 ++ c1 :: ws2 ++ pre2 ++ ws3), (obj_set k v1 acc).
    split; [|reflexivity]. app_solve.
Qed.

Lemma parse_read fuel :
  (forall s v r, parseValue fuel s = POk v r -> valueRead s v r)
  /\ (forall s acc v r, parseElements fuel s acc = POk v r -> elementsRead s v r)
  /\ (forall s acc v r, parseMembers fuel s acc = POk v r -> membersRead s v r).
Proof.
  induction fuel as [|fuel (IHv & IHe & IHm)]; [repeat split; discriminate|].
  repeat split; simpl.
  - intros s v r. by apply valueStep_read.
  - intros s acc v r. by apply elementsStep_read.
  - intros s acc v r. by apply membersStep_read.
Qed.

End ParserFacts.

Section FuelFacts.

(** More fuel does not change an answer. *)
Lemma valueStep_mono e1 m1 e2 m2 s res :
  (forall s acc res, e1 s acc = res -> res ≠ POutOfFuel -> e2 s acc = res) ->
  (forall s acc res, m1 s acc = res -> res ≠ POutOfFuel -> m2 s acc = res) ->
  valueStep e1 m1 s = res -> res ≠ POutOfFuel -> valueStep e2 m2 s = res.
Proof.
  intros He Hm. unfold valueStep. repeat case_match; eauto.
Qed.

Lemma elementsStep_mono v1 e1 v2 e2 s acc res :
  (forall s res, v1 s = res -> res ≠ POutOfFuel -> v2 s = res) ->
  (forall s acc res, e1 s acc = res -> res ≠ POutOfFuel -> e2 s acc = res) ->
  elementsStep v1 e1 s acc = res -> res ≠ POutOfFuel -> elementsStep v2 e2 s acc = res.
Proof.
  intros Hv He. unfold elementsStep.
  destruct (v1 s) as [x r| |] eqn:H1; intros Hres Hset.
  - rewrite (Hv s (POk x r)) by done. revert Hres Hset. repeat case_match; eauto.
  - by rewrite (Hv s PSyntaxError).
  - congruence.
Qed.

Lemma membersStep_mono v1 m1 v2 m2 s acc res :
  (forall s res, v1 s = res -> res ≠ POutOfFuel -> v2 s = res) ->
  (forall s acc res, m1 s acc = res -> res ≠ POutOfFuel -> m2 s acc = res) ->
  membersStep v1 m1 s acc = res -> res ≠ POutOfFuel -> membersStep v2 m2 s acc = res.
Proof.
  intros Hv Hm. unfold membersStep.
  destruct (skipWs s) as [|c r0]; [done|].
  destruct (c =? 34); [|done].
  destruct (parseChars r0) as [k r1| |]; try done.
  destruct (skipWs r1) as [|c1 r2]; [done|].
  destruct (c1 =? ch ":"); [|done].
  destruct (v1 r2) as [x r3| |] eqn:H1; intros Hres Hset.
  - rewrite (Hv r2 (POk x r3)) by done. revert Hres Hset. repeat case_match; eauto.
  - by rewrite (Hv r2 PSyntaxError).
  - congruence.
Qed.

Lemma parse_mono_step fuel :
  (forall s res, parseValue fuel s = res -> res ≠ POutOfFuel ->
                 parseValue (S fuel) s = res)
  /\ (forall s acc res, parseElements fuel s acc = res -> res ≠ POutOfFuel ->
                        parseElements (S fuel) s acc = res)
  /\ (forall s acc res, parseMembers fuel s acc = res -> res ≠ POutOfFuel ->
                        parseMembers (S fuel) s acc = res).
Proof.
  induction fuel as [|fuel (IHv & IHe & IHm)].
  - repeat split; simpl; congruence.
  - repeat split.
    + intros s res. apply valueStep_mono; assumption.
    + intros s acc res. apply elementsStep_mono; assumption.
    + intros s acc res. apply membersStep_mono; assumption.
Qed.

Lemma parseValue_mono fuel fuel' s res :
  (fuel <= fuel')%nat -> parseValue fuel s = res -> res ≠ POutOfFuel ->
  parseValue fuel' s = res.
Proof.
  induction 1 as [|fuel' _ IH]; [done|].
  intros Hres Hset. apply parse_mono_step; auto.
Qed.

Lemma parseElements_mono fuel fuel' s acc res :
  (fuel <= fuel')%nat -> parseElements fuel s acc = res -> res ≠ POutOfFuel ->
  parseElements fuel' s acc = res.
Proof.
  induction 1 as [|fuel' _ IH]; [done|].
  intros Hres Hset. apply parse_mono_step; auto.
Qed.

Lemma parseMembers_mono fuel fuel' s acc res :
  (fuel <= fuel')%nat -> parseMembers fuel s acc = res -> res ≠ POutOfFuel ->
  parseMembers fuel' s acc = res.
Proof.
  induction 1 as [|fuel' _ IH]; [done|].
  intros Hres Hset. apply parse_mono_step; auto.
Qed.

Lemma valueRead_length s v r : valueRead s v r -> (length r < length s)%nat.
Proof.
  intros (ws & pre & -> & Hne)%valueRead_text. rewrite !length_app.
  destruct pre; [done|simpl; lia].
Qed.

Lemma skipWs_cons_length s c r : skipWs s = c :: r -> (length r < length s)%nat.
Proof. intros Hs. pose proof (skipWs_length s) as Hl. rewrite Hs in Hl. simpl in Hl. lia. Qed.

Lemma parseAtom_settled s : parseAtom s ≠ POutOfFuel.
Proof. unfold parseAtom. repeat case_match; discriminate. Qed.

(** The fuel [parseFuel] grants is never used up. *)
Lemma valueStep_settled e m s :
  (forall s' acc, (length s' < length s)%nat -> e s' acc ≠ POutOfFuel) ->
  (forall s' acc, (length s' < length s)%nat -> m s' acc ≠ POutOfFuel) ->
  valueStep e m s ≠ POutOfFuel.
Proof.
  intros He Hm. unfold valueStep.
  destruct (skipWs s) as [|c r0] eqn:Hs; [discriminate|].
  apply skipWs_cons_length in Hs.
  destruct (c =? ch "{").
  { destruct (skipWs r0) as [|c' r'] eqn:Hs'; [discriminate|].
    pose proof (skipWs_length r0) as Hl. rewrite Hs' in Hl.
    destruct (c' =? ch "}"); [discriminate|]. apply Hm. lia. }
  destruct (c =? ch "[").
  { destruct (skipWs r0) as [|c' r'] eqn:Hs'; [discriminate|].
    pose proof (skipWs_length r0) as Hl. rewrite Hs' in Hl.
    destruct (c' =? ch "]"); [discriminate|]. apply He. lia. }
  destruct (c =? 34); [by destruct (parseChars r0)|apply parseAtom_settled].
Qed.

Lemma elementsStep_settled v e s acc :
  v s ≠ POutOfFuel ->
  (forall x r, v s = POk x r -> (length r < length s)%nat) ->
  (forall s' acc', (length s' + 1 < length s)%nat -> e s' acc' ≠ POutOfFuel) ->
  elementsStep v e s acc ≠ POutOfFuel.
Proof.
  intros Hv Hlen He. unfold elementsStep.
  destruct (v s) as [x r| |] eqn:Hval; [|discriminate|done].
  specialize (Hlen x r eq_refl).
  destruct (skipWs r) as [|c r'] eqn:Hs; [discriminate|].
  apply skipWs_cons_length in Hs.
  destruct (c =? ch ","); [apply He; lia|].
  destruct (c =? ch "]"); discriminate.
Qed.

Lemma membersStep_settled v m s acc :
  (forall s', (length s' < length s)%nat -> v s' ≠ POutOfFuel) ->
  (forall s' x r, v s' = POk x r -> (length r < length s')%nat) ->
  (forall s' acc', (length s' + 1 < length s)%nat -> m s' acc' ≠ POutOfFuel) ->
  membersStep v m s acc ≠ POutOfFuel.
Proof.
  intros Hv Hlen Hm. unfold membersStep.
  destruct (skipWs s) as [|c r0] eqn:Hs; [discriminate|].
  apply skipWs_cons_length in Hs.
  destruct (c =? 34); [|discriminate].
  destruct (parseChars r0) as [k r1| |] eqn:Hchars; try discriminate.
  apply parseChars_consumed, consumed_length in Hchars.
  destruct (skipWs r1) as [|c1 r2] eqn:Hs1; [discriminate|].
  apply skipWs_cons_length in Hs1.
  destruct (c1 =? ch ":"); [|discriminate].
  destruct (v r2) as [x r3| |] eqn:Hval; [|discriminate|].
  - apply Hlen in Hval.
    destruct (skipWs r3) as [|c3 r4] eqn:Hs3; [discriminate|].
    apply skipWs_cons_length in Hs3.
    destruct (c3 =? ch ","); [apply Hm; lia|].
    destruct (c3 =? ch "}"); discriminate.
  - exfalso. eapply Hv; [|exact Hval]. lia.
Qed.

Lemma parse_settled fuel :
  (forall s, (2 * length s < fuel)%nat -> parseValue fuel s ≠ POutOfFuel)
  /\ (forall s acc, (2 * length s + 1 < fuel)%nat -> parseElements fuel s acc ≠ POutOfFuel)
  /\ (forall s acc, (2 * length s + 1 < fuel)%nat -> parseMembers fuel s acc ≠ POutOfFuel).
Proof.
  induction fuel as [|fuel (IHv & IHe & IHm)]; [repeat split; intros; lia|].
  repeat split.
  - intros s Hf. simpl. apply valueStep_settled.
    + intros s' acc Hl. apply IHe. lia.
    + intros s' acc Hl. apply IHm. lia.
  - intros s acc Hf. simpl. apply elementsStep_settled.
    + apply IHv. lia.
    + intros x r Hval. eapply valueRead_length, parse_read, Hval.
    + intros s' acc' Hl. apply IHe. lia.
  - intros s acc Hf. simpl. apply membersStep_settled.
    + intros s' Hl. apply IHv. lia.
    + intros s' x r Hval. eapply valueRead_length, parse_read, Hval.
    + intros s' acc' Hl. apply IHm. lia.
Qed.

Lemma parseValue_parseFuel s : parseValue (parseFuel s) s ≠ POutOfFuel.
Proof. apply parse_settled. unfold parseFuel. lia. Qed.

(** An answer found with some fuel is the answer with the fuel
    [JSON_parse] grants. *)
Lemma parseValue_at_parseFuel fuel s v r :
  parseValue fuel s = POk v r -> parseValue (parseFuel s) s = POk v r.
Proof.
  intros Hok.
  destruct (Nat.le_ge_cases fuel (parseFuel s)) as [Hle|Hge].
  - eapply parseValue_mono; [exact Hle|exact Hok|discriminate].
  - rewrite <- Hok. symmetry.
    eapply parseValue_mono; [exact Hge|reflexivity|apply parseValue_parseFuel].
Qed.

End FuelFacts.

Section RoundTrip.

Lemma jsval_nested_ind (P : jsval -> Prop) :
  P JNull ->
  (forall b, P (JBool b)) ->
  (forall n, P (JNum n)) ->
  (forall s, P (JStr s)) ->
  (forall l, Forall P l -> P (JArr l)) ->
  (forall m, Forall (fun kv => P kv.2) m -> P (JObj m)) ->
  forall v, P v.
Proof.
  intros Hnull Hbool Hnum Hstr Harr Hobj.
  fix IH 1. intros [ |b|n|s|l|m].
  - exact Hnull.
  - apply Hbool.
  - apply Hnum.
  - apply Hstr.
  - apply Harr. induction l as [|x l IHl]; constructor; [apply IH|exact IHl].
  - apply Hobj. induction m as [|[k x] m IHm]; constructor; [apply IH|exact IHm].
Qed.

Lemma hexValue_hexDigit n : n < 16 -> hexValue (hexDigit n) = Some n.
Proof.
  intros Hn. unfold hexValue, hexDigit, isDigit.
  destruct (N.ltb_spec n 10).
  - replace ((48 <=? 48 + n) && (48 + n <=? 57)) with true
      by (symmetry; apply andb_true_intro; split; apply N.leb_le; lia).
    f_equal. lia.
  - replace ((48 <=? 87 + n) && (87 + n <=? 57)) with false
      by (symmetry; apply andb_false_iff; right; apply N.leb_gt; lia).
    replace ((97 <=? 87 + n) && (87 + n <=? 102)) with true
      by (symmetry; apply andb_true_intro; split; apply N.leb_le; lia).
    f_equal. lia.
Qed.

Lemma parseChars_quoteChar c tl :
  parseChars (quoteChar c ++ tl) = consChar c (parseChars tl).
Proof.
  unfold quoteChar.
  destruct (N.eqb_spec c 8) as [->|?]; [reflexivity|].
  destruct (N.eqb_spec c 9) as [->|?]; [reflexivity|].
  destruct (N.eqb_spec c 10) as [->|?]; [reflexivity|].
  destruct (N.eqb_spec c 12) as [->|?]; [reflexivity|].
  destruct (N.eqb_spec c 13) as [->|?]; [reflexivity|].
  destruct (N.eqb_spec c 34) as [->|?]; [reflexivity|].
  destruct (N.eqb_spec c 92) as [->|?]; [reflexivity|].
  destruct (N.ltb_spec c 32) as [Hlt|Hge].
  - change (match hexValue (hexDigit (c / 16)), hexValue (hexDigit (c mod 16)) with
            | Some a, Some b => consChar (4096 * 0 + 256 * 0 + 16 * a + b) (parseChars tl)
            | _, _ => PSyntaxError
            end = consChar c (parseChars tl)).
    rewrite !hexValue_hexDigit.
    + f_equal. pose proof (N.div_mod c 16). lia.
    + apply N.mod_lt. lia.
    + apply N.Div0.div_lt_upper_bound; lia.
  - simpl.
    destruct (N.eqb_spec c 34); [done|].
    destruct (N.eqb_spec c 92); [done|].
    destruct (N.ltb_spec c 32); [lia|reflexivity].
Qed.

Lemma parseChars_quote s rest :
  parseChars (concat (map quoteChar s) ++ 34 :: rest) = POk s rest.
Proof.
  induction s as [|c s IH]; [reflexivity|].
  simpl. rewrite <- app_assoc, parseChars_quoteChar, IH. reflexivity.
Qed.

(** What may follow a value in a text that [JSON_stringify] wrote: the
    end, or a character no number continues with. *)
Definition tailOk (rest : list N) : Prop :=
  match rest with
  | [] => True
  | c :: _ => isNumberChar c = false
  end.

Lemma spanNumber_exact lit rest :
  forallb isNumberChar lit = true -> tailOk rest -> spanNumber (lit ++ rest) = (lit, rest).
Proof.
  intros Hall Hrest. induction lit as [|c lit IH]; simpl in *.
  - destruct rest as [|c r]; [reflexivity|]. simpl in *. by rewrite Hrest.
  - apply andb_prop in Hall as [Hc Hall]. rewrite Hc, IH by assumption. reflexivity.
Qed.

Lemma isNumberChar_first c :
  isNumberChar c = true ->
  isJsonWs c = false
  /\ (c =? ch "{") = false /\ (c =? ch "[") = false /\ (c =? 34) = false
  /\ (c =? ch "]") = false /\ (c =? ch "}") = false
  /\ (c =? ch "n") = false /\ (c =? ch "t") = false /\ (c =? ch "f") = false.
Proof.
  unfold isNumberChar, isDigit, isJsonWs, ch. simpl.
  rewrite !orb_true_iff, andb_true_iff, !N.eqb_eq, !N.leb_le.
  intros Hc. repeat split; rewrite ?orb_false_iff; repeat split; apply N.eqb_neq; lia.
Qed.

Lemma isNumberLiteral_nonempty lit : isNumberLiteral lit = true -> lit ≠ [].
Proof. by intros Hlit ->. Qed.

(** A number that is written without loss is written as it is. *)
Lemma representable_number lit :
  lossless lit && (forallb isNumberChar lit && isNumberLiteral lit) = true ->
  writtenNumber lit = lit /\ forallb isNumberChar lit = true /\ isNumberLiteral lit = true.
Proof.
  intros [Hloss [Hall Hlit]%andb_prop]%andb_prop.
  apply andb_prop in Hloss as [Hinf Hzero]. unfold writtenNumber.
  apply negb_true_iff in Hinf as ->. apply negb_true_iff in Hzero as ->. done.
Qed.

(** The first and the last character that [JSON_stringify] writes. *)
Lemma JSON_stringify_first v :
  jsonRepresentable v = true ->
  exists c r, JSON_stringify v = c :: r
              /\ isJsonWs c = false /\ (c =? ch "]") = false /\ (c =? ch "}") = false.
Proof.
  destruct v as [ |[]|[lit| |]|s|[|x l]|[|[k x] m]]; simpl; intros Hrep;
    try discriminate; try (by eexists _, _).
  apply representable_number in Hrep as (-> & Hall & Hlit).
  destruct lit as [|c lit]; [discriminate|].
  simpl in Hall. apply andb_prop in Hall as [Hc _].
  apply isNumberChar_first in Hc. exists c, lit. tauto.
Qed.

Lemma JSON_stringify_last v :
  jsonRepresentable v = true ->
  exists pre c, JSON_stringify v = pre ++ [c] /\ isJsonWs c = false.
Proof.
  destruct v as [ |[]|[lit| |]|s|[|x l]|[|[k x] m]]; simpl; intros Hrep;
    try discriminate.
  - by exists (str "nul"), (ch "l").
  - by exists (str "tru"), (ch "e").
  - by exists (str "fals"), (ch "e").
  - apply representable_number in Hrep as (-> & Hall & Hlit).
    destruct (exists_last (isNumberLiteral_nonempty lit Hlit)) as (pre & c & ->).
    exists pre, c. split; [reflexivity|].
    rewrite forallb_app in Hall. apply andb_prop in Hall as [_ Hc]. simpl in Hc.
    rewrite andb_true_r in Hc. by apply isNumberChar_first in Hc as [? _].
  - unfold quote. exists ([34] ++ concat (map quoteChar s)), 34.
    split; [by rewrite <- app_assoc|reflexivity].
  - by exists (str "["), (ch "]").
  - match goal with
    | |- context [concat ?tail] =>
        exists (str "[" ++ JSON_stringify x ++ concat tail), (ch "]")
    end.
    split; [|reflexivity]. by rewrite <- !app_assoc.
  - by exists (str "{"), (ch "}").
  - match goal with
    | |- context [concat (map ?f m)] =>
        exists (str "{" ++ quote k ++ str ":" ++ JSON_stringify x ++ concat (map f m)),
               (ch "}")
    end.
    split; [|reflexivity]. unfold quote. app_solve.
Qed.

Lemma obj_set_fresh k v acc :
  k ∉ map fst acc -> obj_set k v acc = acc ++ [(k, v)].
Proof.
  induction acc as [|[k' v'] acc IH]; simpl; [reflexivity|].
  intros [Hne Hk]%not_elem_of_cons.
  destruct (decide (k' = k)); [congruence|]. by rewrite IH.
Qed.

(** Setting the properties of a list one after the other. *)
Definition setAll (acc l : list (list N * jsval)) : list (list N * jsval) :=
  foldl (fun acc '(k, x) => obj_set k x acc) acc l.

Lemma setAll_fresh l : forall acc,
  NoDup (map fst (acc ++ l)) -> setAll acc l = acc ++ l.
Proof.
  induction l as [|[k x] l IH]; intros acc Hnodup; simpl.
  - by rewrite app_nil_r.
  - rewrite obj_set_fresh.
    + unfold setAll in IH. rewrite IH; rewrite <- app_assoc; [reflexivity|exact Hnodup].
    + rewrite map_app in Hnodup. apply NoDup_app in Hnodup as (_ & Hdisj & _).
      intros Hin. apply (Hdisj k Hin). simpl. apply list_elem_of_here.
Qed.

Definition reads (v : jsval) : Prop :=
  jsonRepresentable v = true ->
  forall rest, tailOk rest ->
    exists fuel, parseValue fuel (JSON_stringify v ++ rest) = POk v rest.

Definition elementText (y : jsval) : list N := str "," ++ JSON_stringify y.

Definition memberText (kv : list N * jsval) : list N :=
  str "," ++ quote kv.1 ++ str ":" ++ JSON_stringify kv.2.

Lemma elements_read l : forall x acc rest,
  Forall reads (x :: l) ->
  forallb jsonRepresentable (x :: l) = true ->
  exists fuel,
    parseElements fuel
      (JSON_stringify x ++ concat (map elementText l) ++ ch "]" :: rest) acc
    = POk (JArr (acc ++ x :: l)) rest.
Proof.
  induction l as [|y l IH]; intros x acc rest Hreads Hrep;
    apply Forall_cons in Hreads as [Hx Hreads];
    simpl in Hrep; apply andb_prop in Hrep as [Hrx Hrep].
  - destruct (Hx Hrx (ch "]" :: rest)) as [fx Hfx]; [reflexivity|].
    exists (S fx). simpl. unfold elementsStep. rewrite Hfx. reflexivity.
  - simpl.
    destruct (IH y (acc ++ [x]) rest Hreads Hrep) as [fl Hfl].
    destruct (Hx Hrx (ch "," :: JSON_stringify y ++ concat (map elementText l)
                        ++ ch "]" :: rest)) as [fx Hfx]; [reflexivity|].
    exists (S (Nat.max fx fl)). simpl. unfold elementsStep.
    rewrite <- !app_assoc.
    rewrite (parseValue_mono fx _ _ _ (Nat.le_max_l fx fl) Hfx) by discriminate.
    simpl.
    rewrite (parseElements_mono fl _ _ _ _ (Nat.le_max_r fx fl) Hfl) by discriminate.
    by rewrite <- app_assoc.
Qed.

Lemma members_read l : forall k x acc rest,
  Forall (fun kv => reads kv.2) ((k, x) :: l) ->
  forallb (fun kv => jsonRepresentable kv.2) ((k, x) :: l) = true ->
  exists fuel,
    parseMembers fuel
      (quote k ++ str ":" ++ JSON_stringify x ++ concat (map memberText l)
       ++ ch "}" :: rest) acc
    = POk (JObj (setAll acc ((k, x) :: l))) rest.
Proof.
  induction l as [|[k' y] l IH]; intros k x acc rest Hreads Hrep;
    apply Forall_cons in Hreads as [Hx Hreads];
    simpl in Hrep; apply andb_prop in Hrep as [Hrx Hrep]; simpl in Hx.
  - destruct (Hx Hrx (ch "}" :: rest)) as [fx Hfx]; [reflexivity|].
    exists (S fx). simpl. unfold membersStep. simpl.
    rewrite <- ?app_assoc. simpl. rewrite parseChars_quote. simpl.
    rewrite Hfx. reflexivity.
  - destruct (IH k' y (obj_set k x acc) rest Hreads Hrep) as [fl Hfl].
    destruct (Hx Hrx (ch "," :: quote k' ++ str ":" ++ JSON_stringify y
                        ++ concat (map memberText l) ++ ch "}" :: rest))
      as [fx Hfx]; [reflexivity|].
    unfold quote in Hfx, Hfl. simpl in Hfx, Hfl.
    rewrite <- ?app_assoc in Hfx, Hfl. simpl in Hfx, Hfl.
    exists (S (Nat.max fx fl)). simpl. unfold membersStep. simpl.
    rewrite <- ?app_assoc. simpl. rewrite parseChars_quote. simpl.
    rewrite (parseValue_mono fx _ _ _ (Nat.le_max_l fx fl) Hfx) by discriminate.
    simpl.
    rewrite (parseMembers_mono fl _ _ _ _ (Nat.le_max_r fx fl) Hfl) by discriminate.
    reflexivity.
Qed.

Lemma JSON_stringify_reads v : reads v.
Proof.
  induction v as [ |b|n|s|l IH|m IH] using jsval_nested_ind; intros Hrep rest Hrest.
  - exists 1%nat. vm_compute. reflexivity.
  - exists 1%nat. destruct b; vm_compute; reflexivity.
  - destruct n as [lit| |]; try discriminate. simpl in Hrep.
    apply representable_number in Hrep as (Hwritten & Hall & Hlit).
    change (JSON_stringify (JNum (NumLit lit))) with (writtenNumber lit).
    rewrite Hwritten. clear Hwritten.
    destruct lit as [|c lit]; [discriminate|].
    pose proof Hall as Hall'. simpl in Hall'. apply andb_prop in Hall' as [Hc _].
    apply isNumberChar_first in Hc as (Hws & H1 & H2 & H3 & _ & _ & H4 & H5 & H6).
    exists 1%nat. simpl. unfold valueStep. simpl. rewrite Hws, H1, H2, H3.
    unfold parseAtom.
    replace (startsWith (c :: lit ++ rest) (str "null")) with false
      by (simpl; by rewrite H4).
    replace (startsWith (c :: lit ++ rest) (str "true")) with false
      by (simpl; by rewrite H5).
    replace (startsWith (c :: lit ++ rest) (str "false")) with false
      by (simpl; by rewrite H6).
    change (c :: lit ++ rest) with ((c :: lit) ++ rest).
    rewrite spanNumber_exact by assumption. by rewrite Hlit.
  - exists 1%nat. simpl. unfold valueStep, quote. simpl.
    rewrite <- app_assoc. simpl. by rewrite parseChars_quote.
  - destruct l as [|x l]; [exists 1%nat; vm_compute; reflexivity|].
    simpl in Hrep.
    destruct (elements_read l x [] rest IH Hrep) as [fuel Hfuel].
    pose proof Hrep as Hrx. apply andb_prop in Hrx as [Hrx _].
    destruct (JSON_stringify_first x Hrx) as (c & r & Hx & Hws & Hc & _).
    exists (S fuel). simpl. unfold valueStep. simpl. rewrite <- !app_assoc.
    rewrite Hx in *. simpl. rewrite Hws, Hc. exact Hfuel.
  - destruct m as [|[k x] m]; [exists 1%nat; vm_compute; reflexivity|].
    simpl in Hrep. apply andb_prop in Hrep as [Hnodup Hrep].
    apply bool_decide_eq_true in Hnodup.
    destruct (members_read m k x [] rest IH Hrep) as [fuel Hfuel].
    rewrite (setAll_fresh _ []) in Hfuel by exact Hnodup.
    exists (S fuel). simpl. unfold valueStep. simpl. rewrite <- !app_assoc.
    unfold quote, memberText in *. simpl in *. rewrite <- ?app_assoc in *. simpl in *.
    exact Hfuel.
Qed.

Lemma trimWs_id s c r pre d :
  s = c :: r -> s = pre ++ [d] -> isJsonWs c = false -> isJsonWs d = false ->
  trimWs s = s.
Proof.
  intros Hhead Hlast Hc Hd. unfold trimWs.
  rewrite Hhead, skipWs_no_ws by assumption. rewrite <- Hhead, Hlast.
  rewrite rev_app_distr. simpl. rewrite Hd. simpl. by rewrite rev_involutive.
Qed.

(** What [JSON.stringify] wrote without loss, [JSON.parse] reads back. *)
Lemma JSON_parse_stringify v :
  jsonRepresentable v = true -> JSON_parse (JSON_stringify v) = Some v.
Proof.
  intros Hrep. unfold JSON_parse.
  destruct (JSON_stringify_first v Hrep) as (c & r & Hfirst & Hc & _).
  destruct (JSON_stringify_last v Hrep) as (pre & d & Hlast & Hd).
  rewrite (trimWs_id _ c r pre d Hfirst Hlast Hc Hd).
  destruct (JSON_stringify_reads v Hrep [] I) as [fuel Hfuel].
  rewrite app_nil_r in Hfuel.
  by rewrite (parseValue_at_parseFuel _ _ _ _ Hfuel).
Qed.

End RoundTrip.

(** ** Facts about the store *)

Section StoreFacts.

Import DatabaseService.

(** The order of an index is total and transitive. *)
Lemma keyLe_total (a b : Z * list N) : keyLe a b \/ keyLe b a.
Proof.
  unfold keyLe.
  destruct (trichotomy (lexico (A:=Z * list N)) a b) as [Hlt|[->|Hgt]].
  - left. intros Hba. exact (irreflexivity lexico a (transitivity Hlt Hba)).
  - left. apply irreflexivity, _.
  - right. intros Hab. exact (irreflexivity lexico a (transitivity Hab Hgt)).
Qed.

Lemma keyLe_trans (a b c : Z * list N) : keyLe a b -> keyLe b c -> keyLe a c.
Proof.
  unfold keyLe. intros Hab Hbc Hca.
  destruct (trichotomy (lexico (A:=Z * list N)) a b) as [Hlt|[->|Hgt]].
  - apply Hbc. exact (transitivity Hca Hlt).
  - contradiction.
  - contradiction.
Qed.

Lemma keyLe_fst (a b : Z * list N) : keyLe a b -> (a.1 <= b.1)%Z.
Proof.
  unfold keyLe. intros Hab.
  destruct (Z.le_gt_cases a.1 b.1) as [|Hgt]; [assumption|].
  exfalso. apply Hab. destruct a, b. left. simpl in *. unfold lexico, Z_lexico. lia.
Qed.

Section Sorting.

Context {A : Type} (key : A -> Z * list N).

Definition byKey (a b : A) : Prop := keyLe (key a) (key b).

#[global] Instance byKey_total : Total byKey.
Proof. intros a b. apply keyLe_total. Qed.

#[global] Instance byKey_trans : Transitive byKey.
Proof. intros a b c. apply keyLe_trans. Qed.

Lemma sorted_byKey (l : list A) :
  StronglySorted byKey l -> Sorted Z.le (map (fun a => (key a).1) l).
Proof.
  intros Hs. apply StronglySorted_Sorted.
  apply (StronglySorted_fmap _ byKey Z.le); [|assumption].
  intros a b. apply keyLe_fst.
Qed.

End Sorting.

Lemma examsOfSeries_sorted db seriesId :
  Sorted Z.le (map (fun kv => StoredExam.difficultyLevel kv.2) (examsOfSeries db seriesId)).
Proof.
  apply (sorted_byKey (fun kv : list N * StoredExam.t =>
                         (StoredExam.difficultyLevel kv.2, kv.1))).
  apply (StronglySorted_merge_sort _).
Qed.

Lemma examsOfSeries_elem db seriesId k exam :
  (k, exam) ∈ examsOfSeries db seriesId
  <-> simulatorExams db !! k = Some exam /\ StoredExam.seriesId exam = seriesId.
Proof.
  unfold examsOfSeries. rewrite merge_sort_Permutation, elem_of_map_to_list.
  apply map_lookup_filter_Some.
Qed.

(** Writing the exams of a series one after the other. *)
Definition putExams (seriesId : list N) (table : gmap (list N) StoredExam.t)
  (exams : list SimulatorExam.t) : gmap (list N) StoredExam.t :=
  foldl (fun table exam => <[ SimulatorExam.id exam := storedExamRow exam seriesId ]> table)
    table exams.

Lemma putExams_other seriesId exams : forall table k,
  k ∉ map SimulatorExam.id exams ->
  putExams seriesId table exams !! k = table !! k.
Proof.
  induction exams as [|e rest IH]; intros table k Hk; [reflexivity|].
  simpl in *. apply not_elem_of_cons in Hk as [Hne Hk].
  unfold putExams in *. simpl. rewrite IH by assumption.
  by rewrite lookup_insert_ne.
Qed.

Lemma putExams_written seriesId exams : forall table e,
  NoDup (map SimulatorExam.id exams) ->
  e ∈ exams ->
  putExams seriesId table exams !! (SimulatorExam.id e) = Some (storedExamRow e seriesId).
Proof.
  induction exams as [|e0 rest IH]; intros table e Hnodup Hin.
  - by apply elem_of_nil in Hin.
  - simpl in Hnodup. apply NoDup_cons in Hnodup as [Hfresh Hnodup].
    unfold putExams in *. simpl.
    apply elem_of_cons in Hin as [->|Hin].
    + fold (putExams seriesId (<[SimulatorExam.id e0:=storedExamRow e0 seriesId]> table) rest).
      rewrite putExams_other by assumption. apply lookup_insert_eq.
    + by apply IH.
Qed.

Lemma putExams_lookup seriesId exams table k row :
  NoDup (map SimulatorExam.id exams) ->
  (putExams seriesId table exams) !! k = Some row ->
  (exists e, e ∈ exams /\ k = SimulatorExam.id e /\ row = storedExamRow e seriesId)
  \/ ((k ∉ map SimulatorExam.id exams) /\ table !! k = Some row).
Proof.
  intros Hnodup Hlook.
  destruct (decide (k ∈ map SimulatorExam.id exams)) as [Hin|Hnotin].
  - left. apply list_elem_of_fmap in Hin as (e & -> & Hin).
    exists e. rewrite putExams_written in Hlook by assumption. by simplify_eq.
  - right. rewrite putExams_other in Hlook by assumption. auto.
Qed.

End StoreFacts.

(** ** Saving and loading an exam series *)

Section SaveLoad.

Import DatabaseService.

(** An exam without the outcome of an attempt: the store is given none
    by [saveExamSeries] and [getExamSeries] returns none. *)
Definition unattempted (exam : SimulatorExam.t) : SimulatorExam.t :=
  {| SimulatorExam.id := SimulatorExam.id exam;
     SimulatorExam.title := SimulatorExam.title exam;
     SimulatorExam.description := SimulatorExam.description exam;
     SimulatorExam.instructions := SimulatorExam.instructions exam;
     SimulatorExam.questions := SimulatorExam.questions exam;
     SimulatorExam.totalPoints := SimulatorExam.totalPoints exam;
     SimulatorExam.estimatedTime := SimulatorExam.estimatedTime exam;
     SimulatorExam.difficultyLevel := SimulatorExam.difficultyLevel exam;
     SimulatorExam.difficultyLabel := SimulatorExam.difficultyLabel exam;
     SimulatorExam.createdAt := SimulatorExam.createdAt exam;
     SimulatorExam.score := None;
     SimulatorExam.completedAt := None;
     SimulatorExam.timeTaken := None |}.

Lemma loadedExam_storedExamRow exam seriesId :
  jsonRepresentable (SimulatorExam.questions exam) = true ->
  loadedExam (storedExamRow exam seriesId) = Some (unattempted exam).
Proof.
  intros Hq. unfold loadedExam, storedExamRow. simpl.
  by rewrite JSON_parse_stringify by assumption.
Qed.

(** No row of another series, or of an earlier state of this one, is
    tagged with the id of the series and missing from it. *)
Definition noStaleExams (db : ExamDatabase) (series : ExamSeries.t) : Prop :=
  forall k row,
    simulatorExams db !! k = Some row ->
    StoredExam.seriesId row = ExamSeries.id series ->
    k ∈ map SimulatorExam.id (ExamSeries.exams series).

Lemma examsOfSeries_saved db series settings time now :
  NoDup (map SimulatorExam.id (ExamSeries.exams series)) ->
  noStaleExams db series ->
  examsOfSeries (saveExamSeries db series settings time now) (ExamSeries.id series)
  ≡ₚ map (fun e => (SimulatorExam.id e, storedExamRow e (ExamSeries.id series)))
       (ExamSeries.exams series).
Proof.
  intros Hnodup Hstale.
  apply NoDup_Permutation.
  - unfold examsOfSeries. rewrite merge_sort_Permutation. apply NoDup_map_to_list.
  - apply (NoDup_fmap_1 fst). rewrite <- list_fmap_compose. exact Hnodup.
  - intros [k row]. rewrite examsOfSeries_elem. simpl.
    fold (putExams (ExamSeries.id series) (simulatorExams db) (ExamSeries.exams series)).
    rewrite list_elem_of_fmap. split.
    + intros [Hlook Hsid].
      apply putExams_lookup in Hlook; [|assumption].
      destruct Hlook as [(e & Hin & -> & ->)|[Hnotin Hold]]; [eauto|].
      exfalso. apply Hnotin. eapply Hstale; eassumption.
    + intros (e & Heq & Hin). simplify_eq. split; [|reflexivity].
      by apply putExams_written.
Qed.

Lemma getExamSeries_saveExamSeries db series settings time now :
  NoDup (map SimulatorExam.id (ExamSeries.exams series)) ->
  noStaleExams db series ->
  Forall (fun e => jsonRepresentable (SimulatorExam.questions e) = true)
    (ExamSeries.exams series) ->
  exists loaded,
    getExamSeries (saveExamSeries db series settings time now) (ExamSeries.id series)
    = Some loaded
    /\ ExamSeries.id loaded = ExamSeries.id series
    /\ ExamSeries.topic loaded = ExamSeries.topic series
    /\ ExamSeries.description loaded = ExamSeries.description series
    /\ ExamSeries.totalExams loaded = ExamSeries.totalExams series
    /\ ExamSeries.createdAt loaded = ExamSeries.createdAt series
    /\ Sorted Z.le (map SimulatorExam.difficultyLevel (ExamSeries.exams loaded))
    /\ ExamSeries.exams loaded ≡ₚ map unattempted (ExamSeries.exams series).
Proof.
  intros Hnodup Hstale Hquestions.
  pose proof (examsOfSeries_saved db series settings time now Hnodup Hstale) as Hperm.
  apply Permutation_map_inv in Hperm as (exams' & Hsorted & Hperm').
  assert (mapM (fun kv => loadedExam kv.2)
            (examsOfSeries (saveExamSeries db series settings time now)
               (ExamSeries.id series)) = Some (map unattempted exams')) as HmapM.
  { rewrite Hsorted.
    replace (map (fun e => (SimulatorExam.id e, storedExamRow e (ExamSeries.id series)))
               exams')
      with (map (fun e => (SimulatorExam.id e, storedExamRow e (ExamSeries.id series)))
              (map unattempted exams'))
      by (rewrite map_map; reflexivity).
    apply (mapM_fmap_Forall_Some (fun kv : list N * StoredExam.t => loadedExam kv.2)
             (fun e => (SimulatorExam.id e, storedExamRow e (ExamSeries.id series)))).
    apply Forall_fmap. rewrite <- Hperm'. eapply Forall_impl; [exact Hquestions|].
    intros e He. simpl. by apply (loadedExam_storedExamRow (unattempted e)). }
  unfold getExamSeries.
  assert (examSeries (saveExamSeries db series settings time now) !! ExamSeries.id series
          = Some {|
       StoredExamSeries.id := ExamSeries.id series;
       StoredExamSeries.topic := ExamSeries.topic series;
       StoredExamSeries.description := ExamSeries.description series;
       StoredExamSeries.totalExams := ExamSeries.totalExams series;
       StoredExamSeries.settings := settings;
       StoredExamSeries.time := time;
       StoredExamSeries.createdAt := toISOString (ExamSeries.createdAt series);
       StoredExamSeries.updatedAt := toISOString now |}) as ->
    by apply lookup_insert_eq.
  rewrite HmapM. eexists. split; [reflexivity|]. simpl.
  repeat split; [|by rewrite Hperm'].
  pose proof (examsOfSeries_sorted (saveExamSeries db series settings time now)
                (ExamSeries.id series)) as Hs.
  rewrite Hsorted in Hs. rewrite !map_map in *. exact Hs.
Qed.

End SaveLoad.

(** ** Scores and deletion *)

Import DatabaseService.

(** C6. [updateExamScore] on a stored exam changes the three fields
    [score], [completedAt] and [timeTaken] of that row and nothing else:
    every other field of the row, [questionsData] among them, every other
    row and every other table stay as they were. A second call leaves
    what a single call with the second values leaves: nothing of the
    first attempt is kept. *)
Theorem updateExamScore_partial_update
  (db : ExamDatabase) (examId : list N) (exam : StoredExam.t)
  (score timeTaken now : Z) :
  simulatorExams db !! examId = Some exam ->
  (exists exam',
      simulatorExams (updateExamScore db examId score timeTaken now) !! examId = Some exam'
      /\ StoredExam.score exam' = Some score
      /\ StoredExam.completedAt exam' = Some (toISOString now)
      /\ StoredExam.timeTaken exam' = Some timeTaken
      /\ StoredExam.questionsData exam' = StoredExam.questionsData exam
      /\ StoredExam.id exam' = StoredExam.id exam
      /\ StoredExam.seriesId exam' = StoredExam.seriesId exam
      /\ StoredExam.title exam' = StoredExam.title exam
      /\ StoredExam.description exam' = StoredExam.description exam
      /\ StoredExam.instructions exam' = StoredExam.instructions exam
      /\ StoredExam.totalPoints exam' = StoredExam.totalPoints exam
      /\ StoredExam.estimatedTime exam' = StoredExam.estimatedTime exam
      /\ StoredExam.difficultyLevel exam' = StoredExam.difficultyLevel exam
      /\ StoredExam.difficultyLabel exam' = StoredExam.difficultyLabel exam
      /\ StoredExam.createdAt exam' = StoredExam.createdAt exam)
  /\ (forall other, other ≠ examId ->
        simulatorExams (updateExamScore db examId score timeTaken now) !! other
        = simulatorExams db !! other)
  /\ examSeries (updateExamScore db examId score timeTaken now) = examSeries db
  /\ practiceExams (updateExamScore db examId score timeTaken now) = practiceExams db
  /\ learningPaths (updateExamScore db examId score timeTaken now) = learningPaths db
  /\ (forall score2 timeTaken2 now2,
        updateExamScore (updateExamScore db examId score timeTaken now)
          examId score2 timeTaken2 now2
        = updateExamScore db examId score2 timeTaken2 now2).
Proof.
  intros Hstored. unfold updateExamScore at 1 2 3 4 5 6. rewrite Hstored. simpl.
  split; [|split; [|repeat split]].
  - eexists. split; [apply lookup_insert_eq|]. simpl. repeat split.
  - intros other Hother. by apply lookup_insert_ne.
  - intros score2 timeTaken2 now2. unfold updateExamScore. rewrite Hstored. simpl.
    rewrite lookup_insert_eq. simpl. by rewrite insert_insert_eq.
Qed.

Definition sampleRow : StoredExam.t :=
  {| StoredExam.id := str "exam_1_1";
     StoredExam.seriesId := str "series_1";
     StoredExam.title := JStr (str "Level 1");
     StoredExam.description := JNull;
     StoredExam.instructions := JNull;
     StoredExam.totalPoints := JInt 100;
     StoredExam.estimatedTime := Some 30%Z;
     StoredExam.difficultyLevel := 1;
     StoredExam.difficultyLabel := str "Foundation";
     StoredExam.questionsData := str "[]";
     StoredExam.score := None;
     StoredExam.completedAt := None;
     StoredExam.timeTaken := None;
     StoredExam.createdAt := ISO 0 |}.

Definition sampleStore : ExamDatabase :=
  {| examSeries := ∅;
     simulatorExams := {[ str "exam_1_1" := sampleRow ]};
     practiceExams := ∅;
     learningPaths := ∅ |}.

Lemma updateExamScore_partial_update_witness :
  simulatorExams sampleStore !! str "exam_1_1" = Some sampleRow
  /\ updateExamScore (updateExamScore sampleStore (str "exam_1_1") 40 900 1000)
       (str "exam_1_1") 85 700 2000
     = updateExamScore sampleStore (str "exam_1_1") 85 700 2000.
Proof.
  assert (simulatorExams sampleStore !! str "exam_1_1" = Some sampleRow) as Hstored
    by apply lookup_singleton_eq.
  split; [exact Hstored|].
  apply (updateExamScore_partial_update sampleStore (str "exam_1_1") sampleRow 40 900 1000
           Hstored).
Defined.

(** C7. After [deleteExamSeries], the rows [getAllExamSeries] lists are
    those stored under another id, the exam rows left are those of other
    series, and no exam row references the deleted series: nothing can be
    loaded under its id. *)
Theorem deleteExamSeries_cascade (db : ExamDatabase) (seriesId : list N) :
  (forall row, row ∈ getAllExamSeries (deleteExamSeries db seriesId)
               <-> exists k, k ≠ seriesId /\ examSeries db !! k = Some row)
  /\ examSeries (deleteExamSeries db seriesId) !! seriesId = None
  /\ (forall k exam,
        simulatorExams (deleteExamSeries db seriesId) !! k = Some exam
        <-> simulatorExams db !! k = Some exam /\ StoredExam.seriesId exam ≠ seriesId)
  /\ examsOfSeries (deleteExamSeries db seriesId) seriesId = []
  /\ getExamSeries (deleteExamSeries db seriesId) seriesId = None.
Proof.
  assert (forall k exam,
             simulatorExams (deleteExamSeries db seriesId) !! k = Some exam
             <-> simulatorExams db !! k = Some exam /\ StoredExam.seriesId exam ≠ seriesId)
    as Hexams.
  { intros k exam. simpl. apply map_lookup_filter_Some. }
  split; [|split; [|split; [|split]]].
  - intros row. unfold getAllExamSeries. split.
    + intros Hin.
      apply list_elem_of_fmap in Hin as ([k row'] & -> & Hin).
      rewrite reverse_Permutation, merge_sort_Permutation in Hin.
      apply elem_of_map_to_list in Hin. simpl in Hin.
      apply lookup_delete_Some in Hin as [Hne Hlook]. eauto.
    + intros (k & Hne & Hlook).
      apply list_elem_of_fmap. exists (k, row). split; [reflexivity|].
      rewrite reverse_Permutation, merge_sort_Permutation.
      apply elem_of_map_to_list. simpl. apply lookup_delete_Some. auto.
  - apply lookup_delete_eq.
  - exact Hexams.
  - destruct (examsOfSeries (deleteExamSeries db seriesId) seriesId) as [|[k exam] rest] eqn:Hl;
      [reflexivity|].
    assert ((k, exam) ∈ examsOfSeries (deleteExamSeries db seriesId) seriesId) as Hin
      by (rewrite Hl; apply list_elem_of_here).
    apply examsOfSeries_elem in Hin as [Hlook Hsid].
    apply Hexams in Hlook as [_ Hne]. contradiction.
  - unfold getExamSeries. simpl. by rewrite lookup_delete_eq.
Qed.

(** ** The round trip of an exam series *)

Definition idAndQuestions (e : SimulatorExam.t) : list N * jsval :=
  (SimulatorExam.id e, SimulatorExam.questions e).

(** C1 as the specification words it: whatever the series and the store. *)
Definition loads_what_was_saved : Prop :=
  forall db series settings time now,
    exists loaded,
      getExamSeries (saveExamSeries db series settings time now) (ExamSeries.id series)
      = Some loaded
      /\ ExamSeries.topic loaded = ExamSeries.topic series
      /\ ExamSeries.description loaded = ExamSeries.description series
      /\ ExamSeries.totalExams loaded = ExamSeries.totalExams series
      /\ Sorted Z.le (map SimulatorExam.difficultyLevel (ExamSeries.exams loaded))
      /\ map idAndQuestions (ExamSeries.exams loaded)
         ≡ₚ map idAndQuestions (ExamSeries.exams series).

Definition sampleExam (id : string) (level : Z) (questions : list jsval) : SimulatorExam.t :=
  {| SimulatorExam.id := str id;
     SimulatorExam.title := JStr (str "Practice exam");
     SimulatorExam.description := JStr (str "An exam");
     SimulatorExam.instructions := JStr (str "Answer every question");
     SimulatorExam.questions := JArr questions;
     SimulatorExam.totalPoints := JInt 100;
     SimulatorExam.estimatedTime := Some 30%Z;
     SimulatorExam.difficultyLevel := level;
     SimulatorExam.difficultyLabel := labelOfLevel level;
     SimulatorExam.createdAt := 1700000000000;
     SimulatorExam.score := None;
     SimulatorExam.completedAt := None;
     SimulatorExam.timeTaken := None |}.

Definition sampleSeries (exams : list SimulatorExam.t) : ExamSeries.t :=
  {| ExamSeries.id := str "series_1700000000000";
     ExamSeries.topic := str "Algebra Basics";
     ExamSeries.description := str "covers linear equations";
     ExamSeries.exams := exams;
     ExamSeries.totalExams := Z.of_nat (length exams);
     ExamSeries.createdAt := 1700000000000 |}.

Definition sampleQuestion (text : string) : jsval :=
  JObj [(str "id", JStr (str "q1")); (str "question", JStr (str text));
        (str "points", JInt 5)].

Definition bareQuestionResponse : list N :=
  str "{" ++ quoted "questions" ++ str ": [{" ++ quoted "question" ++ str ": "
  ++ quoted "Solve 2x = 4" ++ str "}]}".

(** A series as [generateExamSeries] makes it, for settings without
    [questionsPerExam] (the simulator page never sets it) and a response
    whose question carries no points: the points default to
    [Math.round(100 / undefined)], which is [NaN], and [JSON.stringify]
    writes [NaN] as [null]. The questions loaded are not the questions
    saved. *)
Lemma loads_what_was_saved_fails : ¬ loads_what_was_saved.
Proof.
  intros Hclaim.
  destruct (generateExamSeries (stubEnv (fun _ => Returns bareQuestionResponse))
              (str "Algebra Basics") (str "covers linear equations") [] twoExams 30
              initialWorld) as [[series|t] w'] eqn:Hrun;
    [|vm_compute in Hrun; discriminate].
  destruct (Hclaim emptyDatabase series twoExams 30%Z 1700000000009%Z)
    as (loaded & Hload & _ & _ & _ & _ & Hperm).
  vm_compute in Hrun. injection Hrun as <- _.
  vm_compute in Hload. injection Hload as <-.
  apply Permutation_length_2_inv in Hperm as [Heq|Heq]; vm_compute in Heq; discriminate.
Qed.

(** C1, amended. A series whose exams have different ids and whose
    questions are JSON data (every number finite and not the negative
    zero, no repeated property name), saved into a store that holds no
    other exam row tagged with its id, loads back under its id with the
    same topic, description and totalExams, its exams in ascending order
    of difficultyLevel, and the question content of each exam identical
    to what was saved. The exams loaded are the exams saved in every
    field but [score], [completedAt] and [timeTaken], which the store is
    not given. *)
Theorem saveExamSeries_then_getExamSeries
  (db : ExamDatabase) (series : ExamSeries.t) (settings : SimulatorSettings.t)
  (time now : Z) :
  NoDup (map SimulatorExam.id (ExamSeries.exams series)) ->
  noStaleExams db series ->
  Forall (fun e => jsonRepresentable (SimulatorExam.questions e) = true)
    (ExamSeries.exams series) ->
  exists loaded,
    getExamSeries (saveExamSeries db series settings time now) (ExamSeries.id series)
    = Some loaded
    /\ ExamSeries.id loaded = ExamSeries.id series
    /\ ExamSeries.topic loaded = ExamSeries.topic series
    /\ ExamSeries.description loaded = ExamSeries.description series
    /\ ExamSeries.totalExams loaded = ExamSeries.totalExams series
    /\ ExamSeries.createdAt loaded = ExamSeries.createdAt series
    /\ Sorted Z.le (map SimulatorExam.difficultyLevel (ExamSeries.exams loaded))
    /\ map idAndQuestions (ExamSeries.exams loaded)
       ≡ₚ map idAndQuestions (ExamSeries.exams series)
    /\ ExamSeries.exams loaded ≡ₚ map unattempted (ExamSeries.exams series).
Proof.
  intros Hnodup Hstale Hquestions.
  destruct (getExamSeries_saveExamSeries db series settings time now Hnodup Hstale
              Hquestions)
    as (loaded & Hload & Hid & Htopic & Hdescr & Htotal & Hcreated & Hsorted & Hperm).
  exists loaded. repeat (split; [assumption|]). split; [|assumption].
  rewrite Hperm, map_map. reflexivity.
Qed.

Definition twoLevels : ExamSeries.t :=
  sampleSeries [sampleExam "exam_2" 2 [sampleQuestion "3x = 9"];
                sampleExam "exam_1" 1 [sampleQuestion "2x = 4"]].

Lemma noStaleExams_empty series : noStaleExams emptyDatabase series.
Proof. intros k row Hrow. simpl in Hrow. by rewrite lookup_empty in Hrow. Qed.

Lemma saveExamSeries_then_getExamSeries_witness :
  exists loaded,
    getExamSeries (saveExamSeries emptyDatabase twoLevels twoExams 30 1700000000001)
      (ExamSeries.id twoLevels) = Some loaded
    /\ ExamSeries.topic loaded = str "Algebra Basics"
    /\ Sorted Z.le (map SimulatorExam.difficultyLevel (ExamSeries.exams loaded))
    /\ map idAndQuestions (ExamSeries.exams loaded)
       ≡ₚ map idAndQuestions (ExamSeries.exams twoLevels)
    /\ ExamSeries.exams loaded ≡ₚ map unattempted (ExamSeries.exams twoLevels).
Proof.
  destruct (saveExamSeries_then_getExamSeries emptyDatabase twoLevels twoExams 30
              1700000000001)
    as (loaded & Hload & _ & Htopic & _ & _ & _ & Hsorted & Hquestions & Hperm).
  - apply (bool_decide_unpack _). vm_compute. reflexivity.
  - apply noStaleExams_empty.
  - repeat constructor.
  - exists loaded. auto.
Defined.

(** The other conditions are needed as well. Of two exams of one series
    under the same id, the second [put] replaces the row of the first, and
    one exam comes back. *)
Lemma exams_sharing_an_id_are_merged :
  let series := sampleSeries [sampleExam "exam_1" 1 [sampleQuestion "2x = 4"];
                              sampleExam "exam_1" 2 [sampleQuestion "3x = 9"]] in
  (map SimulatorExam.difficultyLevel <$> (ExamSeries.exams <$>
     getExamSeries (saveExamSeries emptyDatabase series twoExams 30 1700000000001)
       (ExamSeries.id series)))
  = Some [2%Z].
Proof. vm_compute. reflexivity. Qed.

(** A row left by an earlier save under the same series id comes back
    with the series. *)
Lemma stale_rows_are_loaded :
  let earlier := sampleSeries [sampleExam "exam_0" 1 [sampleQuestion "x = 1"]] in
  let later := sampleSeries [sampleExam "exam_1" 1 [sampleQuestion "2x = 4"]] in
  (map SimulatorExam.id <$> (ExamSeries.exams <$>
     getExamSeries
       (saveExamSeries (saveExamSeries emptyDatabase earlier twoExams 30 1) later twoExams 30 2)
       (ExamSeries.id later)))
  = Some [str "exam_0"; str "exam_1"].
Proof. vm_compute. reflexivity. Qed.

(** The outcome of an attempt, which the simulator page writes on the
    exam object, is not stored with the series. *)
Lemma outcome_is_not_stored :
  let attempted :=
    {| SimulatorExam.id := str "exam_1";
       SimulatorExam.title := JStr (str "Practice exam");
       SimulatorExam.description := JStr (str "An exam");
       SimulatorExam.instructions := JStr (str "Answer every question");
       SimulatorExam.questions := JArr [sampleQuestion "2x = 4"];
       SimulatorExam.totalPoints := JInt 100;
       SimulatorExam.estimatedTime := Some 30%Z;
       SimulatorExam.difficultyLevel := 1;
       SimulatorExam.difficultyLabel := labelOfLevel 1;
       SimulatorExam.createdAt := 1700000000000;
       SimulatorExam.score := Some (JInt 80);
       SimulatorExam.completedAt := Some (JsDate.isoText 1700000600000);
       SimulatorExam.timeTaken := Some (JInt 600) |} in
  let series := sampleSeries [attempted] in
  (map SimulatorExam.score <$> (ExamSeries.exams <$>
     getExamSeries (saveExamSeries emptyDatabase series twoExams 30 1700000700000)
       (ExamSeries.id series)))
  = Some [None].
Proof. vm_compute. reflexivity. Qed.

(** A number that is not finite, such as the default points of a
    question when [questionsPerExam] is absent, is written as [null]. *)
Lemma non_finite_points_become_null :
  let question := JObj [(str "id", JStr (str "q1")); (str "points", defaultPoints twoExams)] in
  let series := sampleSeries [sampleExam "exam_1" 1 [question]] in
  defaultPoints twoExams = JNum NumNaN
  /\ (map SimulatorExam.questions <$> (ExamSeries.exams <$>
        getExamSeries (saveExamSeries emptyDatabase series twoExams 30 1)
          (ExamSeries.id series)))
     = Some [JArr [JObj [(str "id", JStr (str "q1")); (str "points", JNull)]]].
Proof. split; vm_compute; reflexivity. Qed.

(** ** What [JSON_parse] returns is well formed *)

Section ParsedValues.

Lemma spanNumber_chars s : forallb isNumberChar (spanNumber s).1 = true.
Proof.
  induction s as [|c s IH]; simpl; [reflexivity|].
  destruct (isNumberChar c) eqn:Hc; [|reflexivity].
  destruct (spanNumber s) as [a b]. simpl in *. by rewrite Hc.
Qed.

Lemma parseAtom_wellFormed s v r :
  parseAtom s = POk v r -> wellFormed v = true.
Proof.
  unfold parseAtom. repeat case_match; intros Heq; simplify_eq; try reflexivity.
  simpl. apply andb_true_intro. split; [|assumption].
  match goal with H : spanNumber s = _ |- _ =>
    pose proof (spanNumber_chars s) as Hchars; by rewrite H in Hchars end.
Qed.

Lemma obj_set_keys k v acc x :
  x ∈ map fst (obj_set k v acc) -> x = k \/ x ∈ map fst acc.
Proof.
  induction acc as [|[k' v'] rest IH]; simpl.
  - intros ->%list_elem_of_singleton. by left.
  - destruct (decide (k' = k)) as [->|Hne]; simpl.
    + intros [->|Hin]%elem_of_cons; [by left|right; by right].
    + intros [->|Hin]%elem_of_cons; [right; by left|].
      destruct (IH Hin) as [->|Hrest]; [by left|right; by right].
Qed.

Lemma obj_set_wellFormed k v acc :
  wellFormed (JObj acc) = true -> wellFormed v = true ->
  wellFormed (JObj (obj_set k v acc)) = true.
Proof.
  simpl. intros [Hkeys Hvals]%andb_prop Hv. apply bool_decide_eq_true in Hkeys.
  apply andb_true_intro.
  induction acc as [|[k' v'] rest IH]; simpl.
  - by rewrite Hv.
  - simpl in Hkeys, Hvals. apply andb_prop in Hvals as [Hv' Hvals].
    apply NoDup_cons in Hkeys as [Hfresh Hkeys].
    destruct (decide (k' = k)) as [->|Hne]; simpl.
    + rewrite Hv, Hvals. split; [|reflexivity]. apply bool_decide_eq_true.
      by constructor.
    + destruct (IH Hkeys Hvals) as [Hkeys' Hvals']. rewrite Hv', Hvals'.
      split; [|reflexivity]. apply bool_decide_eq_true in Hkeys'.
      apply bool_decide_eq_true. constructor; [|assumption].
      intros [->|Hin]%obj_set_keys; [done|by apply Hfresh].
Qed.

Lemma valueStep_wellFormed elements members s v r :
  (forall s acc v r, elements s acc = POk v r ->
     wellFormed (JArr acc) = true -> wellFormed v = true) ->
  (forall s acc v r, members s acc = POk v r ->
     wellFormed (JObj acc) = true -> wellFormed v = true) ->
  valueStep elements members s = POk v r -> wellFormed v = true.
Proof.
  intros He Hm. unfold valueStep.
  repeat case_match; intros Heq; simplify_eq; try reflexivity.
  - eapply Hm; [eassumption|reflexivity].
  - eapply He; [eassumption|reflexivity].
  - by eapply parseAtom_wellFormed.
Qed.

Lemma elementsStep_wellFormed value elements s acc v r :
  (forall s v r, value s = POk v r -> wellFormed v = true) ->
  (forall s acc v r, elements s acc = POk v r ->
     wellFormed (JArr acc) = true -> wellFormed v = true) ->
  elementsStep value elements s acc = POk v r ->
  wellFormed (JArr acc) = true -> wellFormed v = true.
Proof.
  intros Hv He. unfold elementsStep.
  destruct (value s) as [v1 r1| |] eqn:Hval; try discriminate.
  apply Hv in Hval.
  assert (wellFormed (JArr acc) = true ->
          wellFormed (JArr (acc ++ [v1])) = true) as Hacc.
  { simpl. intros Hacc. by rewrite forallb_app, Hacc; simpl; rewrite Hval. }
  repeat case_match; intros Heq Hrep; simplify_eq.
  - eapply He; [eassumption|by apply Hacc].
  - by apply Hacc.
Qed.

Lemma membersStep_wellFormed value members s acc v r :
  (forall s v r, value s = POk v r -> wellFormed v = true) ->
  (forall s acc v r, members s acc = POk v r ->
     wellFormed (JObj acc) = true -> wellFormed v = true) ->
  membersStep value members s acc = POk v r ->
  wellFormed (JObj acc) = true -> wellFormed v = true.
Proof.
  intros Hv Hm. unfold membersStep.
  destruct (skipWs s) as [|c r0]; [discriminate|].
  destruct (c =? 34); [|discriminate].
  destruct (parseChars r0) as [k r1| |]; try discriminate.
  destruct (skipWs r1) as [|c1 r2]; [discriminate|].
  destruct (c1 =? ch ":"); [|discriminate].
  destruct (value r2) as [v1 r3| |] eqn:Hval; try discriminate.
  apply Hv in Hval.
  destruct (skipWs r3) as [|c3 r4]; [discriminate|].
  destruct (c3 =? ch ",").
  { intros Heq Hrep. eapply Hm; [eassumption|by apply obj_set_wellFormed]. }
  destruct (c3 =? ch "}"); [|discriminate].
  intros Heq Hrep. simplify_eq. by apply obj_set_wellFormed.
Qed.

Lemma parse_wellFormed fuel :
  (forall s v r, parseValue fuel s = POk v r -> wellFormed v = true)
  /\ (forall s acc v r, parseElements fuel s acc = POk v r ->
        wellFormed (JArr acc) = true -> wellFormed v = true)
  /\ (forall s acc v r, parseMembers fuel s acc = POk v r ->
        wellFormed (JObj acc) = true -> wellFormed v = true).
Proof.
  induction fuel as [|fuel (IHv & IHe & IHm)]; [by repeat split|].
  split; [|split]; simpl.
  - intros s v r. by apply valueStep_wellFormed.
  - intros s acc v r. by apply elementsStep_wellFormed.
  - intros s acc v r. by apply membersStep_wellFormed.
Qed.

Lemma JSON_parse_wellFormed s v :
  JSON_parse s = Some v -> wellFormed v = true.
Proof.
  unfold JSON_parse.
  destruct (parseValue _ (trimWs s)) as [v' [|]| |] eqn:Hval; try discriminate.
  intros Heq. simplify_eq.
  by eapply (proj1 (parse_wellFormed _)).
Qed.

Lemma jsonRepresentable_wellFormed v : jsonRepresentable v = true -> wellFormed v = true.
Proof.
  induction v as [ |b|n|s|l IH|m IH] using jsval_nested_ind; simpl; try done.
  - destruct n as [lit| |]; [|done..]. by intros [_ ?]%andb_prop.
  - intros Hl. apply forallb_forall. intros x Hx.
    rewrite forallb_forall in Hl. rewrite Forall_forall in IH.
    apply IH; [by apply list_elem_of_In|by apply Hl].
  - intros [Hkeys Hm]%andb_prop. rewrite Hkeys. simpl.
    apply forallb_forall. intros kv Hkv.
    rewrite forallb_forall in Hm. rewrite Forall_forall in IH.
    apply IH; [by apply list_elem_of_In|by apply Hm].
Qed.

Lemma obj_get_wellFormed k props v :
  wellFormed (JObj props) = true -> obj_get k props = Some v -> wellFormed v = true.
Proof.
  simpl. intros [_ Hvals]%andb_prop.
  induction props as [|[k' v'] rest IH]; simpl in *; [discriminate|].
  apply andb_prop in Hvals as [Hv' Hvals].
  destruct (decide (k' = k)); [intros Heq; by simplify_eq|by apply IH].
Qed.

Lemma obj_get_representable k props v :
  jsonRepresentable (JObj props) = true -> obj_get k props = Some v ->
  jsonRepresentable v = true.
Proof.
  simpl. intros [_ Hvals]%andb_prop.
  induction props as [|[k' v'] rest IH]; simpl in *; [discriminate|].
  apply andb_prop in Hvals as [Hv' Hvals].
  destruct (decide (k' = k)); [intros Heq; by simplify_eq|by apply IH].
Qed.

End ParsedValues.

(** ** The decimal text of an integer *)

Section IntegerFacts.

Lemma ch_pretty_N_char (x : N) : x < 10 -> ch (pretty_N_char x) = 48 + x.
Proof.
  intros Hx.
  assert (x = 0 \/ x = 1 \/ x = 2 \/ x = 3 \/ x = 4 \/ x = 5 \/ x = 6 \/ x = 7
          \/ x = 8 \/ x = 9) as Hcases by lia.
  repeat (destruct Hcases as [->|Hcases]; [reflexivity|]). by subst.
Qed.

Lemma isDigit_range c : isDigit c = true <-> 48 <= c <= 57.
Proof.
  unfold isDigit. rewrite andb_true_iff, !N.leb_le. reflexivity.
Qed.

(** The digits of a positive number: one at least, the first not 0. *)
Lemma pretty_N_go_digits (x : N) (s : string) :
  0 < x ->
  exists d ds,
    str (pretty_N_go x s) = d :: ds ++ str s
    /\ isDigit d = true /\ d ≠ 48 /\ forallb isDigit ds = true.
Proof.
  revert s. induction (N.lt_wf_0 x) as [x _ IH]. intros s Hx.
  rewrite pretty_N_go_step by assumption.
  assert (ch (pretty_N_char (x mod 10)) = 48 + x mod 10) as Hlast.
  { apply ch_pretty_N_char. by apply N.mod_lt. }
  destruct (decide (x / 10 = 0)) as [Hsmall|Hlarge].
  - rewrite Hsmall, pretty_N_go_0.
    apply N.div_small_iff in Hsmall; [|done].
    exists (ch (pretty_N_char (x mod 10))), []. split; [reflexivity|].
    rewrite Hlast, N.mod_small by assumption.
    split; [apply isDigit_range; lia|]. split; [lia|reflexivity].
  - destruct (IH (x / 10)) with (s := String (pretty_N_char (x mod 10)) s)
      as (d & ds & Htext & Hd & Hnz & Hds).
    { by apply N.div_lt. }
    { by apply N.neq_0_lt_0. }
    exists d, (ds ++ [ch (pretty_N_char (x mod 10))]). split.
    { rewrite Htext. by rewrite <- app_assoc. }
    split; [assumption|]. split; [assumption|].
    rewrite forallb_app, Hds. simpl. rewrite Hlast.
    assert (x mod 10 < 10) as Hlt by (by apply N.mod_lt).
    rewrite (proj2 (isDigit_range _)); [reflexivity|].
    clear -Hlt. revert Hlt. generalize (x mod 10). intros m Hm. lia.
Qed.

Lemma ofZ_digits (z : Z) :
  ofZ z = [48]
  \/ exists sign d ds,
       ofZ z = sign ++ d :: ds
       /\ (sign = [] \/ sign = [ch "-"])
       /\ isDigit d = true /\ d ≠ 48 /\ forallb isDigit ds = true.
Proof.
  unfold ofZ. destruct z as [|p|p].
  - by left.
  - right. destruct (pretty_N_go_digits (N.pos p) EmptyString) as (d & ds & Htext & Hd);
      [done|].
    exists [], d, ds. split; [|split; [by left|assumption]].
    rewrite app_nil_r in Htext. exact Htext.
  - right. destruct (pretty_N_go_digits (N.pos p) EmptyString) as (d & ds & Htext & Hd);
      [done|].
    exists [ch "-"], d, ds. split; [|split; [by right|assumption]].
    rewrite app_nil_r in Htext.
    change (str (pretty (Z.neg p))) with (ch "-" :: str (pretty_N_go (N.pos p) EmptyString)).
    simpl. f_equal. exact Htext.
Qed.

Lemma ch_inj a b : ch a = ch b -> a = b.
Proof.
  unfold ch. intros Heq.
  assert (byte_of_ascii a = byte_of_ascii b) as Hbytes.
  { apply (f_equal Byte.of_N) in Heq. rewrite !Byte.of_to_N in Heq. congruence. }
  apply (f_equal ascii_of_byte) in Hbytes. by rewrite !ascii_of_byte_of_ascii in Hbytes.
Qed.

Lemma str_inj s t : str s = str t -> s = t.
Proof.
  revert t. induction s as [|a s IH]; intros [|b t]; try discriminate; [reflexivity|].
  change (ch a :: str s = ch b :: str t -> String a s = String b t).
  intros Heq. injection Heq as Hhead Htail. f_equal; [by apply ch_inj|by apply IH].
Qed.

Lemma ofZ_inj a b : ofZ a = ofZ b -> a = b.
Proof. unfold ofZ. intros Heq%str_inj. by apply (inj pretty). Qed.

End IntegerFacts.

(** ** The numbering of the steps of a learning path *)

Section ObjectFacts.

Lemma obj_get_set_eq k v props : obj_get k (obj_set k v props) = Some v.
Proof.
  induction props as [|[k' v'] rest IH]; simpl.
  - by rewrite decide_True.
  - destruct (decide (k' = k)) as [->|Hne]; simpl.
    + by rewrite decide_True.
    + by rewrite decide_False.
Qed.

Lemma obj_get_set_ne k k' v props :
  k ≠ k' -> obj_get k (obj_set k' v props) = obj_get k props.
Proof.
  intros Hne. induction props as [|[k0 v0] rest IH]; simpl.
  - by rewrite decide_False.
  - destruct (decide (k0 = k')) as [->|Hne']; simpl.
    + by rewrite !decide_False.
    + by rewrite IH.
Qed.

End ObjectFacts.

(** The steps are numbered 1, 2, ... in the order of the array. *)
Definition numberedByPosition (steps : list jsval) : Prop :=
  forall (i : nat) step,
    steps !! i = Some step -> prop step (str "step") = Some (JInt (Z.of_nat i + 1)).

Section PathFacts.
Import LearningRoadService.
Variable E : env.

Lemma renumbered_numberedByPosition l : numberedByPosition (imap renumberStep l).
Proof.
  intros i step Hstep. rewrite list_lookup_imap in Hstep.
  destruct (l !! i); [|discriminate]. simpl in Hstep. simplify_eq.
  apply obj_get_set_eq.
Qed.

Lemma validatedPath_returns cleanedText w path w' :
  validatedPath E cleanedText w = (Returns path, w') ->
  exists steps,
    prop path (str "id") = Some (JStr (str "path_" ++ ofZ (clock E (clockReads w))))
    /\ prop path (str "steps") = Some (JArr steps)
    /\ numberedByPosition steps.
Proof.
  unfold validatedPath, bind, lift, dateNow, ret.
  destruct (JSON_parse cleanedText) as [learningPath|] eqn:Hparse; [|discriminate].
  assert (forall l idv copied,
    prop (JObj (obj_set (str "steps") (JArr (imap renumberStep l))
                  (obj_set (str "id") idv copied))) (str "id") = Some idv
    /\ prop (JObj (obj_set (str "steps") (JArr (imap renumberStep l))
                  (obj_set (str "id") idv copied))) (str "steps")
       = Some (JArr (imap renumberStep l))) as Hprops.
  { intros l idv copied. simpl. split.
    - rewrite obj_get_set_ne by discriminate. apply obj_get_set_eq.
    - apply obj_get_set_eq. }
  destruct learningPath as [| | | | |props]; try discriminate.
  destruct (prop (JObj props) (str "steps")) as [[| | | |l|]|] eqn:Hsteps; try discriminate.
  intros Heq. simplify_eq.
  exists (imap renumberStep l). split; [apply Hprops|]. split; [apply Hprops|].
  apply renumbered_numberedByPosition.
Qed.

Lemma createFallbackLearningPath_run topic w :
  exists path steps,
    createFallbackLearningPath E topic w
    = (Returns path, {| clockReads := S (clockReads w); events := events w |})
    /\ prop path (str "id") = Some (JStr (str "fallback_" ++ ofZ (clock E (clockReads w))))
    /\ prop path (str "steps") = Some (JArr steps)
    /\ length steps = 3%nat
    /\ numberedByPosition steps
    /\ jsonRepresentable (JArr steps) = true.
Proof.
  unfold createFallbackLearningPath, bind, dateNow, ret.
  eexists _, _. split; [reflexivity|]. split; [reflexivity|]. split; [reflexivity|].
  split; [reflexivity|]. split; [|vm_compute; reflexivity].
  intros [|[|[|i]]] step Hstep; simpl in Hstep; by simplify_eq.
Qed.

Lemma generateLearningPath_returns topic language w path w' :
  generateLearningPath E topic language w = (Returns path, w') ->
  exists id steps,
    prop path (str "id") = Some (JStr id)
    /\ prop path (str "steps") = Some (JArr steps)
    /\ numberedByPosition steps.
Proof.
  unfold generateLearningPath, tryCatch at 1, bind at 1, awaitOss, throw.
  destruct (getOssResponse E (events w) _) as [text|t]; [|discriminate].
  unfold tryCatch.
  match goal with |- context [validatedPath E ?c ?w0] =>
    destruct (validatedPath E c w0) as [[validated|t] w1] eqn:Hval end.
  - intros Heq. simplify_eq.
    apply validatedPath_returns in Hval as (steps & Hid & Hsteps & Hnum).
    eauto 10.
  - match goal with |- context [createFallbackLearningPath E topic ?w0] =>
      destruct (createFallbackLearningPath_run topic w0)
        as (fallback & steps & Hrun & Hid & Hsteps & _ & Hnum & _) end.
    rewrite Hrun. intros Heq. simplify_eq. eauto 10.
Qed.

(** When the request returns a text, a path is returned. *)
Lemma generateLearningPath_total topic language w text :
  getOssResponse E (events w)
    (createLearningPathPrompt topic (LanguageService.getLanguageNameByCode language)) = Returns text ->
  exists path w', generateLearningPath E topic language w = (Returns path, w').
Proof.
  intros Hreq.
  unfold generateLearningPath, tryCatch at 1, bind at 1, awaitOss, throw.
  rewrite Hreq. unfold tryCatch.
  match goal with |- context [validatedPath E ?c ?w0] =>
    destruct (validatedPath E c w0) as [[validated|t] w1] eqn:Hval end; [eauto|].
  match goal with |- context [createFallbackLearningPath E topic ?w0] =>
    destruct (createFallbackLearningPath_run topic w0) as (fallback & steps & Hrun & _) end.
  rewrite Hrun. eauto.
Qed.

End PathFacts.

Lemma getLearningPath_saveLearningPath db path id steps now :
  prop path (str "id") = Some (JStr id) ->
  prop path (str "steps") = Some steps ->
  jsonRepresentable steps = true ->
  exists db' loaded,
    saveLearningPath db path now = Some (Returns db')
    /\ getLearningPath db' id = Some loaded
    /\ LoadedLearningPath.id loaded = id
    /\ LoadedLearningPath.steps loaded = steps.
Proof.
  intros Hid Hsteps Hrep. unfold saveLearningPath.
  destruct path; try discriminate. rewrite Hid, Hsteps.
  eexists _, _. split; [reflexivity|].
  unfold getLearningPath. simpl. rewrite lookup_insert_eq. simpl.
  rewrite JSON_parse_stringify by done. simpl. done.
Qed.

(** C8 as the specification words it: [saveLearningPath] numbers the
    steps it stores. *)
Definition save_renumbers_steps : Prop :=
  forall db path id steps now,
    prop path (str "id") = Some (JStr id) ->
    prop path (str "steps") = Some (JArr steps) ->
    exists db' loaded renumbered,
      saveLearningPath db path now = Some (Returns db')
      /\ getLearningPath db' id = Some loaded
      /\ LoadedLearningPath.steps loaded = JArr renumbered
      /\ length renumbered = length steps
      /\ numberedByPosition renumbered.

Definition misnumberedPath : jsval :=
  JObj [(str "id", JStr (str "path_1"));
        (str "topic", JStr (str "Algebra Basics"));
        (str "steps", JArr [JObj [(str "step", JInt 3); (str "title", JStr (str "first"))];
                            JObj [(str "step", JInt 3); (str "title", JStr (str "second"))]])].

(** A path whose two steps both carry the number 3 is stored and loaded
    with these numbers. *)
Lemma save_renumbers_steps_fails : ¬ save_renumbers_steps.
Proof.
  intros Hclaim.
  destruct (Hclaim emptyDatabase misnumberedPath (str "path_1") _ 5%Z eq_refl eq_refl)
    as (db' & loaded & renumbered & Hsave & Hload & Hsteps & _ & Hnum).
  vm_compute in Hsave. simplify_eq.
  vm_compute in Hload. simplify_eq.
  simpl in Hsteps. simplify_eq.
  specialize (Hnum 0%nat _ eq_refl). vm_compute in Hnum. discriminate.
Qed.

(** C8, amended. The numbering is the work of [generateLearningPath]:
    every path it returns, the fallback path included, has an id and an
    array of steps whose [step] fields are 1, 2, ... in the order of the
    array. [saveLearningPath] writes the steps as it is given them, and
    [getLearningPath] returns them unchanged when they are JSON data. So
    a path that was generated and whose steps are JSON data loads, once
    saved, with its steps numbered by position. *)
Theorem steps_numbered_at_generation_and_kept_by_the_store :
  (forall E topic language w path w',
      LearningRoadService.generateLearningPath E topic language w = (Returns path, w') ->
      exists id steps,
        prop path (str "id") = Some (JStr id)
        /\ prop path (str "steps") = Some (JArr steps)
        /\ numberedByPosition steps)
  /\ (forall db path id steps now,
        prop path (str "id") = Some (JStr id) ->
        prop path (str "steps") = Some steps ->
        jsonRepresentable steps = true ->
        exists db' loaded,
          saveLearningPath db path now = Some (Returns db')
          /\ getLearningPath db' id = Some loaded
          /\ LoadedLearningPath.steps loaded = steps)
  /\ (forall E topic language w path w' db now steps,
        LearningRoadService.generateLearningPath E topic language w = (Returns path, w') ->
        prop path (str "steps") = Some (JArr steps) ->
        jsonRepresentable (JArr steps) = true ->
        exists id db' loaded,
          prop path (str "id") = Some (JStr id)
          /\ saveLearningPath db path now = Some (Returns db')
          /\ getLearningPath db' id = Some loaded
          /\ LoadedLearningPath.steps loaded = JArr steps
          /\ numberedByPosition steps).
Proof.
  split; [|split].
  - intros E topic language w path w' Hrun.
    destruct (generateLearningPath_returns E topic language w path w' Hrun)
      as (id & steps & ? & ? & ?).
    eauto.
  - intros db path id steps now Hid Hsteps Hrep.
    destruct (getLearningPath_saveLearningPath db path id steps now Hid Hsteps Hrep)
      as (db' & loaded & ? & ? & ? & ?).
    eauto.
  - intros E topic language w path w' db now steps Hrun Hsteps Hrep.
    destruct (generateLearningPath_returns E topic language w path w' Hrun)
      as (id & steps' & Hid & Hsteps' & Hnum).
    assert (steps' = steps) as -> by congruence.
    destruct (getLearningPath_saveLearningPath db path id _ now Hid Hsteps Hrep)
      as (db' & loaded & ? & ? & ? & ?).
    exists id, db', loaded. repeat (split; [assumption|]). assumption.
Qed.

Definition pathResponse : list N :=
  str "```json" ++ [10] ++ str "{" ++ quoted "topic" ++ str ": " ++ quoted "Algebra Basics"
  ++ str ", " ++ quoted "steps" ++ str ": [{" ++ quoted "step" ++ str ": 7, "
  ++ quoted "title" ++ str ": " ++ quoted "Variables" ++ str "}, {"
  ++ quoted "title" ++ str ": " ++ quoted "Equations" ++ str "}]}" ++ [10] ++ str "```".

Lemma steps_numbered_at_generation_and_kept_by_the_store_witness :
  exists path w' db' loaded steps,
    LearningRoadService.generateLearningPath (stubEnv (fun _ => Returns pathResponse))
      (str "Algebra Basics") (str "en") initialWorld = (Returns path, w')
    /\ saveLearningPath emptyDatabase path 1700000000005 = Some (Returns db')
    /\ getLearningPath db' (str "path_1700000000000") = Some loaded
    /\ LoadedLearningPath.steps loaded = JArr steps
    /\ length steps = 2%nat
    /\ numberedByPosition steps.
Proof.
  destruct steps_numbered_at_generation_and_kept_by_the_store as (_ & _ & Hchain).
  destruct (LearningRoadService.generateLearningPath (stubEnv (fun _ => Returns pathResponse))
              (str "Algebra Basics") (str "en") initialWorld) as [[path|t] w'] eqn:Hrun;
    [|vm_compute in Hrun; discriminate Hrun].
  pose proof Hrun as Hpath. vm_compute in Hpath. injection Hpath as Hpath _.
  destruct (prop path (str "steps")) as [[| | | |steps|]|] eqn:Hsteps;
    try (rewrite <- Hpath in Hsteps; vm_compute in Hsteps; discriminate Hsteps).
  assert (jsonRepresentable (JArr steps) = true) as Hrep.
  { rewrite <- Hpath in Hsteps. vm_compute in Hsteps. injection Hsteps as <-.
    vm_compute. reflexivity. }
  destruct (Hchain _ _ _ _ _ _ emptyDatabase 1700000000005%Z steps Hrun Hsteps Hrep)
    as (id & db' & loaded & Hid & Hsave & Hload & Hloaded & Hnum).
  pose proof Hid as Hid'. rewrite <- Hpath in Hid'. vm_compute in Hid'.
  injection Hid' as Hid'.
  pose proof Hsteps as Hsteps'. rewrite <- Hpath in Hsteps'. vm_compute in Hsteps'.
  injection Hsteps' as Hsteps'.
  exists path, w', db', loaded, steps. split; [reflexivity|]. split; [exact Hsave|].
  split; [rewrite <- Hload, <- Hid'; reflexivity|]. split; [exact Hloaded|].
  split; [by rewrite <- Hsteps'|exact Hnum].
Defined.

Definition hugeHoursResponse : list N :=
  str "{" ++ quoted "steps" ++ str ": [{" ++ quoted "title" ++ str ": " ++ quoted "Variables"
  ++ str ", " ++ quoted "hours" ++ str ": 1e400}]}".

(** Without the condition the steps are not kept: a number of the
    response that is too large for a double is an infinity in the path
    that was generated and [null] in the path that is loaded. The
    numbering is not affected. *)
Example infinite_number_becomes_null :
  match LearningRoadService.generateLearningPath
          (stubEnv (fun _ => Returns hugeHoursResponse))
          (str "Algebra Basics") (str "en") initialWorld with
  | (Returns path, _) =>
      match saveLearningPath emptyDatabase path 1700000000005 with
      | Some (Returns db') =>
          (prop path (str "steps"),
           LoadedLearningPath.steps <$> getLearningPath db' (str "path_1700000000000"))
      | _ => (None, None)
      end
  | _ => (None, None)
  end
  = (Some (JArr [JObj [(str "title", JStr (str "Variables"));
                       (str "hours", JNum (NumLit (str "1e400")));
                       (str "step", JInt 1)]]),
     Some (JArr [JObj [(str "title", JStr (str "Variables"));
                       (str "hours", JNull);
                       (str "step", JInt 1)]])).
Proof. vm_compute. reflexivity. Qed.

(** ** Cleaning a wrapped JSON payload *)

Section StringFacts.
Implicit Types s p ws : list N.

Definition blank ws : Prop := Forall (fun c => isWhiteSpace c = true) ws.

(** A text of at least two code units with no white space at either end. *)
Definition tight s : Prop :=
  exists c mid d, s = c :: mid ++ [d] /\ isWhiteSpace c = false /\ isWhiteSpace d = false.

Lemma blank_app ws ws' : blank ws -> blank ws' -> blank (ws ++ ws').
Proof. apply Forall_app_2. Qed.

Lemma forallb_blank ws : forallb isWhiteSpace ws = true -> blank ws.
Proof.
  induction ws as [|c ws IH]; simpl; [constructor|].
  intros [Hc Hws]%andb_prop. constructor; [exact Hc|exact (IH Hws)].
Qed.

Lemma isJsonWs_isWhiteSpace c : isJsonWs c = true -> isWhiteSpace c = true.
Proof.
  unfold isJsonWs. intros H.
  repeat (apply orb_prop in H as [H|H]); apply N.eqb_eq in H; by subst.
Qed.

Lemma jsonWs_blank ws : Forall (fun c => isJsonWs c = true) ws -> blank ws.
Proof.
  intros Hws. eapply Forall_impl; [exact Hws|]. intros c. apply isJsonWs_isWhiteSpace.
Qed.

Lemma trimStart_blank ws s : blank ws -> trimStart (ws ++ s) = trimStart s.
Proof. induction 1 as [|c ws Hc _ IH]; simpl; [reflexivity|by rewrite Hc]. Qed.

Lemma trimStart_head c r : isWhiteSpace c = false -> trimStart (c :: r) = c :: r.
Proof. intros Hc. simpl. by rewrite Hc. Qed.

Lemma trimEnd_blank s ws : blank ws -> trimEnd (s ++ ws) = trimEnd s.
Proof.
  intros Hws. unfold trimEnd. rewrite rev_app_distr, trimStart_blank; [reflexivity|].
  by apply List.Forall_rev.
Qed.

Lemma trimEnd_last pre d : isWhiteSpace d = false -> trimEnd (pre ++ [d]) = pre ++ [d].
Proof.
  intros Hd. unfold trimEnd. rewrite rev_app_distr. simpl. rewrite Hd.
  change (d :: rev pre) with (rev [d] ++ rev pre).
  by rewrite <- rev_app_distr, rev_involutive.
Qed.

Lemma trim_tight ws1 ws2 s : blank ws1 -> blank ws2 -> tight s -> trim (ws1 ++ s ++ ws2) = s.
Proof.
  intros H1 H2 (c & mid & d & -> & Hc & Hd). unfold trim.
  rewrite trimStart_blank by assumption. simpl. rewrite Hc.
  change (c :: (mid ++ [d]) ++ ws2) with ((c :: mid ++ [d]) ++ ws2).
  rewrite trimEnd_blank by assumption.
  by apply (trimEnd_last (c :: mid)).
Qed.

Lemma trim_tight_id s : tight s -> trim s = s.
Proof.
  intros Hs. rewrite <- (trim_tight [] [] s) at 2; [|constructor|constructor|assumption].
  simpl. by rewrite app_nil_r.
Qed.

Lemma startsWith_prefix p s : startsWith (p ++ s) p = true.
Proof. induction p as [|a p IH]; simpl; [reflexivity|]. by rewrite N.eqb_refl. Qed.

Lemma startsWith_common p s q : startsWith (p ++ s) (p ++ q) = startsWith s q.
Proof.
  induction p as [|a p IH]; simpl; [by destruct q|]. by rewrite N.eqb_refl.
Qed.

Lemma startsWith_head_ne c r a p : c ≠ a -> startsWith (c :: r) (a :: p) = false.
Proof. intros Hne. simpl. by apply N.eqb_neq in Hne as ->. Qed.

Lemma substringFrom_drop s (n : nat) :
  (n <= length s)%nat -> substringFrom s (Z.of_nat n) = drop n s.
Proof.
  intros Hn. unfold substringFrom, substring, clampIndex.
  rewrite Z.min_l, Z.max_r, Nat2Z.id by lia.
  rewrite Z.min_id, Z.max_r, Nat2Z.id by lia.
  rewrite Nat.min_l, Nat.max_r by lia.
  apply take_ge. rewrite length_drop. lia.
Qed.

Lemma substring_take s (n : nat) :
  (n <= length s)%nat -> substring s 0 (Z.of_nat n) = take n s.
Proof.
  intros Hn. unfold substring, clampIndex.
  rewrite (Z.min_l 0), (Z.max_l 0 0) by lia.
  rewrite Z.min_l, Z.max_r, Nat2Z.id by lia. simpl.
  by rewrite Nat.sub_0_r.
Qed.

Lemma indexOfFrom_range s p i :
  indexOfFrom s p i = (-1)%Z \/ (i <= indexOfFrom s p i)%Z.
Proof.
  revert i. induction s as [|c s IH]; intros i; simpl.
  - destruct (startsWith [] p); [right; lia|by left].
  - destruct (startsWith (c :: s) p); [right; lia|].
    destruct (IH (i + 1)%Z) as [->|Hle]; [by left|right; lia].
Qed.

Lemma indexOf_head c r : indexOf (c :: r) [c] = 0%Z.
Proof. unfold indexOf. simpl. by rewrite N.eqb_refl. Qed.

Lemma indexOf_later c r a :
  c ≠ a -> indexOf (c :: r) [a] = (-1)%Z \/ (1 <= indexOf (c :: r) [a])%Z.
Proof.
  intros Hne. unfold indexOf. simpl. apply N.eqb_neq in Hne as ->. simpl.
  apply indexOfFrom_range.
Qed.

Lemma lastIndexOfFrom_last pre c i found :
  lastIndexOfFrom (pre ++ [c]) [c] i found = (i + Z.of_nat (length pre))%Z.
Proof.
  revert i found. induction pre as [|a pre IH]; intros i found.
  - simpl. rewrite N.eqb_refl. simpl. lia.
  - change ((a :: pre) ++ [c]) with (a :: (pre ++ [c])).
    cbn [lastIndexOfFrom]. rewrite IH. simpl length. lia.
Qed.

Lemma lastIndexOf_last pre c : lastIndexOf (pre ++ [c]) [c] = Z.of_nat (length pre).
Proof. unfold lastIndexOf. by rewrite lastIndexOfFrom_last. Qed.

Lemma lastIndexOf_enclosed c mid d :
  lastIndexOf (c :: mid ++ [d]) [d] = Z.of_nat (length (c :: mid)).
Proof. apply (lastIndexOf_last (c :: mid)). Qed.

End StringFacts.

Section CleaningFacts.
Import ExamSimulatorService.

(** The two services hold the same function. *)
Lemma cleanJsonResponse_same text :
  LearningRoadService.cleanJsonResponse text = cleanJsonResponse text.
Proof. reflexivity. Qed.

(** The stages of [cleanJsonResponse]: the opening fence, the closing
    fence, then the outermost delimiters. *)
Definition stripOpening (cleaned : list N) : list N :=
  if startsWith cleaned (str "```json") then substringFrom cleaned 7
  else if startsWith cleaned (str "```") then substringFrom cleaned 3
  else cleaned.

Definition stripClosing (cleaned : list N) : list N :=
  if endsWith cleaned (str "```")
  then substring cleaned 0 (Z.of_nat (length cleaned) - 3)
  else cleaned.

Definition extractJson (cleaned : list N) : list N :=
  let openBrace := indexOf cleaned (str "{") in
  let openBracket := indexOf cleaned (str "[") in
  let closeBrace := lastIndexOf cleaned (str "}") in
  let closeBracket := lastIndexOf cleaned (str "]") in
  let '(startIndex, endIndex) :=
    if negb (openBrace =? -1)%Z && ((openBracket =? -1)%Z || (openBrace <? openBracket)%Z)
    then (openBrace, closeBrace)
    else if negb (openBracket =? -1)%Z
    then (openBracket, closeBracket)
    else ((-1)%Z, (-1)%Z) in
  let cleaned :=
    if negb (startIndex =? -1)%Z && negb (endIndex =? -1)%Z && (startIndex <? endIndex)%Z
    then substring cleaned startIndex (endIndex + 1)
    else cleaned in
  trim cleaned.

Lemma cleanJsonResponse_stages text :
  cleanJsonResponse text = extractJson (trim (stripClosing (stripOpening (trim text)))).
Proof. reflexivity. Qed.

(** The text of an object or of an array, from its opening to its closing
    delimiter. *)
Definition enclosed (s : list N) : Prop :=
  exists mid, s = ch "{" :: mid ++ [ch "}"] \/ s = ch "[" :: mid ++ [ch "]"].

Lemma delimited_enclosed v s : isContainer v = true -> delimited v s -> enclosed s.
Proof.
  destruct v; try discriminate; intros _ [mid ->]; exists mid; auto.
Qed.

Lemma enclosed_tight s : enclosed s -> tight s.
Proof. intros [mid [->| ->]]; eexists _, mid, _; by repeat split. Qed.

Lemma extractJson_enclosed s : enclosed s -> extractJson s = s.
Proof.
  assert (forall c mid d, substring (c :: mid ++ [d]) 0 (Z.of_nat (length (c :: mid)) + 1)
                          = c :: mid ++ [d]) as Hwhole.
  { intros c mid d.
    replace (Z.of_nat (length (c :: mid)) + 1)%Z
      with (Z.of_nat (length (c :: mid ++ [d]))) by (simpl; rewrite length_app; simpl; lia).
    rewrite substring_take by lia. apply firstn_all. }
  assert (forall (c : N) mid,
             (negb (0 =? -1) && negb (Z.of_nat (length (c :: mid)) =? -1)
              && (0 <? Z.of_nat (length (c :: mid))))%Z = true) as Hspan.
  { intros c mid. simpl length.
    rewrite (proj2 (Z.eqb_neq _ _)), (proj2 (Z.ltb_lt _ _)) by lia. reflexivity. }
  assert (forall (other close : Z) (X : Z * Z),
             other = (-1)%Z \/ (1 <= other)%Z ->
             (if (negb (0 =? -1) && ((other =? -1) || (0 <? other)))%Z
              then (0%Z, close) else X) = (0%Z, close)) as Hobject.
  { intros other close X [->|Hother]; [reflexivity|].
    by rewrite (proj2 (Z.ltb_lt 0 _)), orb_true_r by lia. }
  assert (forall (other close : Z) (X Y : Z * Z),
             other = (-1)%Z \/ (1 <= other)%Z ->
             (if (negb (other =? -1) && ((0 =? -1) || (other <? 0)))%Z
              then X else if negb (0 =? -1)%Z then (0%Z, close) else Y) = (0%Z, close))
    as Harray.
  { intros other close X Y [->|Hother]; [reflexivity|].
    by rewrite (proj2 (Z.ltb_ge _ 0)), andb_false_r by lia. }
  intros Hs. pose proof (trim_tight_id s (enclosed_tight s Hs)) as Htrim.
  destruct Hs as [mid [->| ->]]; unfold extractJson;
    change (str "{") with [ch "{"]; change (str "[") with [ch "["];
    change (str "}") with [ch "}"]; change (str "]") with [ch "]"];
    rewrite indexOf_head, lastIndexOf_enclosed.
  - rewrite Hobject by (by apply indexOf_later).
    cbv beta iota. by rewrite Hspan, Hwhole.
  - rewrite Harray by (by apply indexOf_later).
    cbv beta iota. by rewrite Hspan, Hwhole.
Qed.

Lemma endsWith_last_ne pre d p a : d ≠ a -> endsWith (pre ++ [d]) (p ++ [a]) = false.
Proof.
  intros Hne. unfold endsWith. rewrite !rev_app_distr. by apply startsWith_head_ne.
Qed.

Lemma stripOpening_plain c r : c ≠ ch "`" -> stripOpening (c :: r) = c :: r.
Proof.
  intros Hc. unfold stripOpening.
  replace (startsWith (c :: r) (str "```json")) with false
    by (symmetry; by apply startsWith_head_ne).
  replace (startsWith (c :: r) (str "```")) with false
    by (symmetry; by apply startsWith_head_ne).
  reflexivity.
Qed.

Lemma stripClosing_plain pre d : d ≠ ch "`" -> stripClosing (pre ++ [d]) = pre ++ [d].
Proof.
  intros Hd. unfold stripClosing.
  change (str "```") with (str "``" ++ [ch "`"]).
  by rewrite endsWith_last_ne.
Qed.

Lemma stripFences_enclosed s : enclosed s -> stripClosing (stripOpening s) = s.
Proof.
  intros [mid [->| ->]]; rewrite stripOpening_plain by discriminate.
  - by apply (stripClosing_plain (ch "{" :: mid)).
  - by apply (stripClosing_plain (ch "[" :: mid)).
Qed.

(** What follows an opening fence without a tag does not start with the
    tag. *)
Lemma startsWith_json ws s rest :
  blank ws -> enclosed s -> startsWith (ws ++ s ++ rest) (str "json") = false.
Proof.
  intros Hws [mid Hs]. destruct Hws as [|w ws Hw _].
  - destruct Hs as [->| ->]; by apply startsWith_head_ne.
  - apply startsWith_head_ne. intros ->. discriminate.
Qed.

Lemma stripOpening_fenced (tagged : bool) rest :
  startsWith rest (str "json") = false ->
  stripOpening (str "```" ++ (if tagged then str "json" else []) ++ rest) = rest.
Proof.
  intros Hrest. unfold stripOpening. destruct tagged.
  - change (str "```" ++ str "json" ++ rest) with (str "```json" ++ rest).
    rewrite startsWith_prefix.
    by rewrite (substringFrom_drop _ 7) by (rewrite length_app; simpl; lia).
  - change (str "```" ++ [] ++ rest) with (str "```" ++ rest).
    change (str "```json") with (str "```" ++ str "json").
    rewrite startsWith_common, Hrest, startsWith_prefix.
    by rewrite (substringFrom_drop _ 3) by (rewrite length_app; simpl; lia).
Qed.

Lemma stripClosing_fenced body : stripClosing (body ++ str "```") = body.
Proof.
  unfold stripClosing, endsWith. rewrite rev_app_distr, startsWith_prefix.
  replace (Z.of_nat (length (body ++ str "```")) - 3)%Z with (Z.of_nat (length body))
    by (rewrite length_app; simpl; lia).
  rewrite substring_take by (rewrite length_app; lia).
  by rewrite take_app_length.
Qed.

Lemma stripFences_fenced (tagged : bool) ws s ws' :
  blank ws -> enclosed s ->
  stripClosing (stripOpening
    (str "```" ++ (if tagged then str "json" else []) ++ ws ++ s ++ ws' ++ str "```"))
  = ws ++ s ++ ws'.
Proof.
  intros Hws Hs. rewrite stripOpening_fenced by by apply startsWith_json.
  replace (ws ++ s ++ ws' ++ str "```") with ((ws ++ s ++ ws') ++ str "```")
    by (by rewrite <- !app_assoc).
  apply stripClosing_fenced.
Qed.

(** A text that [JSON_parse] reads as an object or an array is that
    value's text between JSON white space. *)
Lemma JSON_parse_enclosed payload v :
  JSON_parse payload = Some v -> isContainer v = true ->
  exists ws s ws',
    payload = ws ++ s ++ ws' /\ blank ws /\ blank ws' /\ enclosed s
    /\ JSON_parse s = Some v.
Proof.
  unfold JSON_parse. intros Hparse Hv.
  destruct (parseValue _ (trimWs payload)) as [v' [|]| |] eqn:Hval; try discriminate.
  simplify_eq.
  destruct (parse_read (parseFuel (trimWs payload))) as (Hread & _).
  pose proof Hval as Hok.
  apply Hread in Hval as (pre & Hpre & Hne & Hdel). rewrite app_nil_r in Hpre.
  apply (delimited_enclosed _ _ Hv) in Hdel.
  destruct (skipWs_split payload) as (ws & Hpayload & Hws).
  destruct (skipWs_split (rev (skipWs payload))) as (ws' & Hrev & Hws').
  assert (skipWs payload = trimWs payload ++ rev ws') as Hcore.
  { unfold trimWs. rewrite <- rev_app_distr, <- Hrev. by rewrite rev_involutive. }
  assert (trimWs payload = pre) as Htext.
  { rewrite <- Hpre. symmetry.
    destruct (trimWs payload) as [|c r] eqn:Ht; [reflexivity|].
    apply skipWs_no_ws. apply (skipWs_head payload c (r ++ rev ws')). by rewrite Hcore. }
  exists ws, pre, (rev ws'). split; [by rewrite <- Htext, <- Hcore|].
  split; [by apply jsonWs_blank|]. split.
  { by apply jsonWs_blank, List.Forall_rev. }
  split; [assumption|].
  assert (trimWs pre = pre) as Hid.
  { destruct Hdel as [mid [->| ->]].
    - by apply (trimWs_id _ (ch "{") (mid ++ [ch "}"]) (ch "{" :: mid) (ch "}")).
    - by apply (trimWs_id _ (ch "[") (mid ++ [ch "]"]) (ch "[" :: mid) (ch "]")). }
  by rewrite Hid, <- Htext, Hok.
Qed.

End CleaningFacts.

(** The wrappings of C9: no fence, or one pair of fences whose opening
    one may carry the tag. *)
Inductive fence := Bare | Fenced (tagged : bool).

(** The payload between white space [ws1] and [ws4] and, when fenced,
    between the fences and the white space [ws2] and [ws3] inside them. *)
Definition wrapped (f : fence) (ws1 ws2 ws3 ws4 payload : list N) : list N :=
  match f with
  | Bare => ws1 ++ payload ++ ws4
  | Fenced tagged =>
      ws1 ++ str "```" ++ (if tagged then str "json" else []) ++ ws2
      ++ payload ++ ws3 ++ str "```" ++ ws4
  end.

Lemma cleanJsonResponse_wrapped f ws1 ws2 ws3 ws4 payload v :
  JSON_parse payload = Some v ->
  isContainer v = true ->
  forallb isWhiteSpace (ws1 ++ ws2 ++ ws3 ++ ws4) = true ->
  exists s,
    ExamSimulatorService.cleanJsonResponse (wrapped f ws1 ws2 ws3 ws4 payload) = s
    /\ enclosed s /\ JSON_parse s = Some v.
Proof.
  intros Hparse Hv Hws.
  apply forallb_blank in Hws. unfold blank in Hws.
  apply Forall_app in Hws as [H1 Hws]. apply Forall_app in Hws as [H2 Hws].
  apply Forall_app in Hws as [H3 H4].
  destruct (JSON_parse_enclosed payload v Hparse Hv)
    as (wsa & s & wsb & -> & Hwsa & Hwsb & Hs & Hparsed).
  exists s. split; [|by split].
  rewrite cleanJsonResponse_stages.
  assert (extractJson (trim s) = s) as Hrest.
  { rewrite (trim_tight_id s) by by apply enclosed_tight.
    by apply extractJson_enclosed. }
  destruct f as [|tagged]; unfold wrapped.
  - replace (ws1 ++ (wsa ++ s ++ wsb) ++ ws4) with ((ws1 ++ wsa) ++ s ++ (wsb ++ ws4))
      by (by rewrite <- !app_assoc).
    rewrite trim_tight by (try apply blank_app; try apply enclosed_tight; assumption).
    rewrite stripFences_enclosed by assumption. exact Hrest.
  - set (fenced := str "```" ++ (if tagged then str "json" else [])
                   ++ (ws2 ++ wsa) ++ s ++ (wsb ++ ws3) ++ str "```").
    replace (ws1 ++ str "```" ++ (if tagged then str "json" else []) ++ ws2
             ++ (wsa ++ s ++ wsb) ++ ws3 ++ str "```" ++ ws4)
      with (ws1 ++ fenced ++ ws4)
      by (unfold fenced; destruct tagged; simpl; by rewrite <- !app_assoc).
    rewrite trim_tight; [|assumption|assumption|].
    + unfold fenced. rewrite stripFences_fenced by (try apply blank_app; assumption).
      rewrite trim_tight by (try apply blank_app; try apply enclosed_tight; assumption).
      by apply extractJson_enclosed.
    + exists (ch "`"), (ch "`" :: ch "`" :: (if tagged then str "json" else [])
                        ++ (ws2 ++ wsa) ++ s ++ (wsb ++ ws3) ++ [ch "`"; ch "`"]), (ch "`").
      split; [|by split]. unfold fenced. simpl. do 3 f_equal.
      rewrite <- !app_assoc. reflexivity.
Qed.

(** C9. A JSON text of an object or of an array, put between white space
    and at most one pair of triple-backtick fences (the opening one with
    or without the tag json, white space allowed inside the fences),
    then cleaned by [cleanJsonResponse] of either service and read by
    [JSON.parse], gives the value that the payload alone reads as. *)
Theorem cleanJsonResponse_then_parse_recovers_payload
  (f : fence) (ws1 ws2 ws3 ws4 payload : list N) (v : jsval) :
  JSON_parse payload = Some v ->
  isContainer v = true ->
  forallb isWhiteSpace (ws1 ++ ws2 ++ ws3 ++ ws4) = true ->
  JSON_parse (ExamSimulatorService.cleanJsonResponse (wrapped f ws1 ws2 ws3 ws4 payload))
  = Some v
  /\ JSON_parse (LearningRoadService.cleanJsonResponse (wrapped f ws1 ws2 ws3 ws4 payload))
     = Some v.
Proof.
  intros Hparse Hv Hws.
  destruct (cleanJsonResponse_wrapped f ws1 ws2 ws3 ws4 payload v Hparse Hv Hws)
    as (s & Hclean & _ & Hs).
  split; [|rewrite cleanJsonResponse_same]; by rewrite Hclean.
Qed.

Lemma cleanJsonResponse_then_parse_recovers_payload_witness :
  let payload := str " {" ++ quoted "steps" ++ str ": [1, 2]} " in
  let value := JObj [(str "steps", JArr [JInt 1; JInt 2])] in
  JSON_parse payload = Some value
  /\ JSON_parse (ExamSimulatorService.cleanJsonResponse
                   (wrapped (Fenced true) [10; 32] [10] [13; 10] [9] payload)) = Some value
  /\ JSON_parse (LearningRoadService.cleanJsonResponse
                   (wrapped (Fenced true) [10; 32] [10] [13; 10] [9] payload)) = Some value.
Proof.
  intros payload value. split; [vm_compute; reflexivity|].
  apply (cleanJsonResponse_then_parse_recovers_payload
           (Fenced true) [10; 32] [10] [13; 10] [9] payload value);
    vm_compute; reflexivity.
Defined.

(** ** Sanity checks of the model *)

Example clean_fenced :
  ExamSimulatorService.cleanJsonResponse
    (str "  ```json
{}
```  ") = str "{}".
Proof. vm_compute. reflexivity. Qed.

Example parse_obj :
  JSON_parse (str " {  } ") = Some (JObj []).
Proof. vm_compute. reflexivity. Qed.

Example parse_nested :
  JSON_parse (str "{'a': [1, -2.5e3, true, null, 'x\nA'], 'a': {}}") = None.
Proof. vm_compute. reflexivity. Qed.

Example parse_nested2 :
  JSON_parse ([123;34;97;34;58] ++ str "[1, -2.5e3 , true,null , [] ]" ++ [44;34;97;34;58] ++ str " {}}")
  = Some (JObj [(str "a", JObj [])]).
Proof. vm_compute. reflexivity. Qed.

Example parse_str :
  JSON_parse ([34] ++ str "x\nA\u00e9" ++ [34]) = Some (JStr [120; 10; 65; 233]).
Proof. vm_compute. reflexivity. Qed.

Example stringify_ex :
  JSON_stringify (JArr [JObj [(str "k", JStr [10; 1; 65; 34]); (str "n", JInt (-12))]; JNum NumNaN; JBool true])
  = str "[{" ++ [34] ++ str "k" ++ [34] ++ str ":" ++ [34] ++ str "\n\u0001A\" ++ [34;34] ++ str "," ++ [34] ++ str "n" ++ [34] ++ str ":-12},null,true]".
Proof. vm_compute. reflexivity. Qed.

Example bad_numbers :
  map JSON_parse [str "01"; str "1."; str ".5"; str "-"; str "1e"; str "1e+"; str "+1"; str "1 2"; str "[1,]"; str "nul"; str "tru e"; str "0.0e-0"; str "-0"; str "10"]
  = [None; None; None; None; None; None; None; None; None; None; None; Some (JNum (NumLit (str "0.0e-0"))); Some (JNum (NumLit (str "-0"))); Some (JInt 10)].
Proof. vm_compute. reflexivity. Qed.

(** A literal too small for a double is zero, hence falsy; one too large
    is [Infinity], which [JSON.stringify] writes as [null]; the negative
    zero is written as [0]. *)
Example numbers_at_the_limits :
  map (fun lit => truthy (JNum (NumLit (str lit))))
    ["1e-400"; "2e-324"; "3e-324"; "-0.0"; "1e400"]%string
  = [false; false; true; false; true]
  /\ JSON_stringify (JArr (map (fun lit => JNum (NumLit (str lit)))
                           ["1e400"; "1.7976931348623158e308"; "1.7976931348623159e308";
                            "-0"; "-1e-400"; "12.5"]%string))
     = str "[null,1.7976931348623158e308,null,0,0,12.5]".
Proof. split; vm_compute; reflexivity. Qed.

(** * Further properties of the store *)

(** ** The calendar and the text of a date *)

Section CalendarFacts.
Import JsDate.
Local Open Scope Z_scope.

Lemma DayFromYear_scaled y :
  exists e, 400 * DayFromYear y = 146097 * (y - 1970) + e /\ -506 <= e <= 589.
Proof.
  unfold DayFromYear. eexists (400 * DayFromYear y - 146097 * (y - 1970)).
  unfold DayFromYear. split; [lia|]. Z.div_mod_to_equations. lia.
Qed.

Lemma DayFromYear_next y : DayFromYear (y + 1) = DayFromYear y + DaysInYear y.
Proof.
  unfold DayFromYear, DaysInYear.
  replace (y + 1 - 1969) with (y - 1969 + 1) by lia.
  replace (y + 1 - 1901) with (y - 1901 + 1) by lia.
  replace (y + 1 - 1601) with (y - 1601 + 1) by lia.
  destruct (Z.eqb_spec (y mod 4) 0), (Z.eqb_spec (y mod 100) 0),
    (Z.eqb_spec (y mod 400) 0); cbn [negb]; cbv iota;
    Z.div_mod_to_equations; lia.
Qed.

Lemma DaysInYear_cases y : DaysInYear y = 365 \/ DaysInYear y = 366.
Proof. unfold DaysInYear. repeat case_match; auto. Qed.

Lemma DayFromYear_lt y1 y2 : y1 < y2 -> DayFromYear y1 < DayFromYear y2.
Proof.
  intros Hlt.
  destruct (DayFromYear_scaled y1) as (e1 & H1 & ?).
  destruct (DayFromYear_scaled y2) as (e2 & H2 & ?). lia.
Qed.

Lemma DayFromYear_le y1 y2 : y1 <= y2 -> DayFromYear y1 <= DayFromYear y2.
Proof.
  intros Hle. destruct (Z.eq_dec y1 y2) as [->|]; [lia|].
  apply Z.lt_le_incl, DayFromYear_lt. lia.
Qed.

(** [YearFromDay] is the year the day falls in. *)
Lemma YearFromDay_spec day :
  DayFromYear (YearFromDay day) <= day < DayFromYear (YearFromDay day + 1).
Proof.
  unfold YearFromDay. set (y := 1970 + 400 * day / 146097).
  assert (146097 * (y - 1970) <= 400 * day < 146097 * (y - 1970) + 146097) as Hy.
  { unfold y. Z.div_mod_to_equations. lia. }
  destruct (DayFromYear_scaled (y - 1)) as (e0 & H0 & ?).
  destruct (DayFromYear_scaled (y + 1 + 1)) as (e2 & H2 & ?).
  destruct (Z.ltb_spec day (DayFromYear y)).
  - replace (y - 1 + 1) with y by lia. lia.
  - destruct (Z.leb_spec (DayFromYear (y + 1)) day); lia.
Qed.

Lemma YearFromDay_le d1 d2 : d1 <= d2 -> YearFromDay d1 <= YearFromDay d2.
Proof.
  intros Hle. pose proof (YearFromDay_spec d1). pose proof (YearFromDay_spec d2).
  destruct (Z.le_gt_cases (YearFromDay d1) (YearFromDay d2)) as [|Hgt]; [assumption|].
  pose proof (DayFromYear_le (YearFromDay d2 + 1) (YearFromDay d1) ltac:(lia)). lia.
Qed.

Lemma DayWithinYear_range t :
  0 <= DayWithinYear t < 365 + InLeapYear t.
Proof.
  unfold DayWithinYear, InLeapYear, YearFromTime.
  pose proof (YearFromDay_spec (Day t)) as Hspec.
  rewrite DayFromYear_next in Hspec.
  destruct (DaysInYear_cases (YearFromDay (Day t))) as [Hd|Hd]; rewrite Hd in *;
    simpl; lia.
Qed.

Lemma InLeapYear_cases t : InLeapYear t = 0 \/ InLeapYear t = 1.
Proof. unfold InLeapYear. case_match; auto. Qed.

Lemma MonthFromTime_range t : 0 <= MonthFromTime t <= 11.
Proof. unfold MonthFromTime. repeat case_match; lia. Qed.

Lemma DateFromTime_range t : 1 <= DateFromTime t <= 31.
Proof.
  pose proof (DayWithinYear_range t) as Hd.
  unfold DateFromTime, MonthFromTime. cbv zeta.
  generalize dependent (DayWithinYear t). intros d Hd.
  destruct (InLeapYear_cases t) as [Hleap|Hleap]; rewrite Hleap in *;
    repeat (match goal with |- context [Z.ltb ?a ?b] => destruct (Z.ltb_spec a b) end;
            cbv beta iota); lia.
Qed.

(** Within a year, a later day has a later month or the same month and a
    later date. *)
Lemma month_and_date_lt t1 t2 :
  YearFromTime t1 = YearFromTime t2 -> Day t1 < Day t2 ->
  MonthFromTime t1 < MonthFromTime t2
  \/ MonthFromTime t1 = MonthFromTime t2 /\ DateFromTime t1 < DateFromTime t2.
Proof.
  intros Hyear Hday.
  assert (DayWithinYear t1 < DayWithinYear t2) as Hlt
    by (unfold DayWithinYear; rewrite Hyear; lia).
  assert (InLeapYear t1 = InLeapYear t2) as Hleap
    by (unfold InLeapYear; by rewrite Hyear).
  unfold DateFromTime, MonthFromTime. cbv zeta. rewrite Hleap.
  generalize dependent (DayWithinYear t1). intros d1.
  generalize dependent (DayWithinYear t2). intros d2 Hlt.
  destruct (InLeapYear_cases t2) as [Hl|Hl]; rewrite Hl;
    repeat (match goal with |- context [Z.ltb ?a ?b] => destruct (Z.ltb_spec a b) end;
            cbv beta iota); lia.
Qed.

(** Year, month and date depend on the day only. *)
Lemma same_day t1 t2 :
  Day t1 = Day t2 ->
  YearFromTime t1 = YearFromTime t2 /\ MonthFromTime t1 = MonthFromTime t2
  /\ DateFromTime t1 = DateFromTime t2.
Proof.
  intros Hday.
  unfold DateFromTime, MonthFromTime, InLeapYear, DayWithinYear, YearFromTime.
  by rewrite Hday.
Qed.

Lemma time_of_day_lt t1 t2 :
  Day t1 = Day t2 -> t1 < t2 ->
  HourFromTime t1 < HourFromTime t2
  \/ HourFromTime t1 = HourFromTime t2
     /\ (MinFromTime t1 < MinFromTime t2
         \/ MinFromTime t1 = MinFromTime t2
            /\ (SecFromTime t1 < SecFromTime t2
                \/ SecFromTime t1 = SecFromTime t2 /\ msFromTime t1 < msFromTime t2)).
Proof.
  unfold Day, msPerDay, HourFromTime, MinFromTime, SecFromTime, msFromTime.
  intros Hday Hlt.
  replace 86400000 with (3600000 * 24) in Hday by reflexivity.
  rewrite <- !Z.div_div in Hday by lia.
  replace 3600000 with (60000 * 60) in * by reflexivity.
  rewrite <- !Z.div_div in * by lia.
  replace 60000 with (1000 * 60) in * by reflexivity.
  rewrite <- !Z.div_div in * by lia.
  Z.div_mod_to_equations. lia.
Qed.

Lemma time_of_day_range t :
  0 <= HourFromTime t < 24 /\ 0 <= MinFromTime t < 60
  /\ 0 <= SecFromTime t < 60 /\ 0 <= msFromTime t < 1000.
Proof.
  unfold HourFromTime, MinFromTime, SecFromTime, msFromTime.
  repeat split; apply Z.mod_pos_bound; lia.
Qed.

End CalendarFacts.

Section TextFacts.
Import JsDate.
Local Open Scope Z_scope.

Lemma lexico_cons (x1 x2 : N) (l1 l2 : list N) :
  lexico (x1 :: l1) (x2 :: l2) <-> (x1 < x2)%N \/ x1 = x2 /\ lexico l1 l2.
Proof. reflexivity. Qed.

Lemma lexico_app_r (a x y : list N) : lexico x y -> lexico (a ++ x) (a ++ y).
Proof.
  intros Hxy. induction a as [|c a IH]; [assumption|].
  simpl. apply lexico_cons. by right.
Qed.

Lemma lexico_app_l (a b x y : list N) :
  length a = length b -> lexico a b -> lexico (a ++ x) (b ++ y).
Proof.
  revert b. induction a as [|c a IH]; intros [|d b] Hlen Hab; try discriminate.
  - by apply (irreflexivity lexico) in Hab.
  - simpl. apply lexico_cons. apply lexico_cons in Hab as [Hlt|[-> Hab]]; [by left|].
    right. split; [reflexivity|]. apply IH; [by injection Hlen|assumption].
Qed.

Lemma digits_length width n : length (digits width n) = width.
Proof.
  revert n. induction width as [|width IH]; intros n; [reflexivity|].
  simpl. rewrite length_app, IH. simpl. lia.
Qed.

(** On fixed-width digits the order of the texts is the order of the
    numbers. *)
Lemma digits_lt width : forall a b,
  0 <= a < b -> b < 10 ^ Z.of_nat width -> lexico (digits width a) (digits width b).
Proof.
  induction width as [|width IH]; intros a b Hab Hb; [simpl in Hb; lia|].
  simpl. rewrite Nat2Z.inj_succ, Z.pow_succ_r in Hb by lia.
  destruct (Z.eq_dec (a / 10) (b / 10)) as [Heq|Hne].
  - rewrite Heq. apply lexico_app_r, lexico_cons. left.
    Z.div_mod_to_equations. lia.
  - apply lexico_app_l; [by rewrite !digits_length|].
    apply IH; Z.div_mod_to_equations; lia.
Qed.

Lemma yearText_four y : 0 <= y <= 9999 -> yearText y = digits 4 y.
Proof.
  intros Hy. unfold yearText.
  destruct (Z.leb_spec 0 y), (Z.leb_spec y 9999); try lia. reflexivity.
Qed.

Lemma fourDigitYear_year t : fourDigitYear t -> 0 <= YearFromTime t <= 9999.
Proof.
  unfold fourDigitYear, YearFromTime. intros Ht.
  pose proof (YearFromDay_spec (Day t)) as Hspec.
  assert (DayFromYear 0 <= Day t < DayFromYear 10000) as Hday.
  { unfold Day, msPerDay. change (DayFromYear 0) with (-719528).
    change (DayFromYear 10000) with 2932897. Z.div_mod_to_equations. lia. }
  split.
  - destruct (Z.le_gt_cases 0 (YearFromDay (Day t))) as [|Hneg]; [assumption|].
    pose proof (DayFromYear_le (YearFromDay (Day t) + 1) 0 ltac:(lia)). lia.
  - destruct (Z.le_gt_cases (YearFromDay (Day t)) 9999) as [|Hbig]; [assumption|].
    pose proof (DayFromYear_le 10000 (YearFromDay (Day t)) ltac:(lia)). lia.
Qed.

Ltac field_lt := apply lexico_app_l; [by rewrite !digits_length|apply digits_lt; lia].
Ltac field_eq H := rewrite H; apply lexico_app_r, lexico_app_r.

(** Between the years 0000 and 9999 the texts order as the instants do. *)
Lemma isoText_lt t1 t2 :
  fourDigitYear t1 -> fourDigitYear t2 -> t1 < t2 ->
  lexico (isoText t1) (isoText t2).
Proof.
  intros H1 H2 Hlt. unfold isoText.
  pose proof (fourDigitYear_year t1 H1) as Hy1.
  pose proof (fourDigitYear_year t2 H2) as Hy2.
  rewrite !yearText_four by assumption.
  pose proof (MonthFromTime_range t1). pose proof (MonthFromTime_range t2).
  pose proof (DateFromTime_range t1). pose proof (DateFromTime_range t2).
  pose proof (time_of_day_range t1) as (? & ? & ? & ?).
  pose proof (time_of_day_range t2) as (? & ? & ? & ?).
  assert (Day t1 <= Day t2) as Hday
    by (unfold Day, msPerDay; Z.div_mod_to_equations; lia).
  assert (Day t1 < Day t2 \/ Day t1 = Day t2) as [Hdlt|Hdeq] by lia.
  - pose proof (YearFromDay_le (Day t1) (Day t2) Hday) as Hyear.
    fold (YearFromTime t1) (YearFromTime t2) in Hyear.
    assert (YearFromTime t1 < YearFromTime t2 \/ YearFromTime t1 = YearFromTime t2)
      as [Hylt|Hyeq] by lia.
    + field_lt.
    + field_eq Hyeq.
      destruct (month_and_date_lt t1 t2 Hyeq Hdlt) as [Hm|[Hm Hd]].
      * field_lt.
      * field_eq Hm. field_lt.
  - destruct (same_day t1 t2 Hdeq) as (Hy & Hm & Hd).
    field_eq Hy. field_eq Hm. field_eq Hd.
    destruct (time_of_day_lt t1 t2 Hdeq Hlt) as [Hh|[Hh [Hmin|[Hmin [Hs|[Hs Hms]]]]]].
    + field_lt.
    + field_eq Hh. field_lt.
    + field_eq Hh. field_eq Hmin. field_lt.
    + field_eq Hh. field_eq Hmin. field_eq Hs. field_lt.
Qed.

Lemma isoText_le t1 t2 :
  fourDigitYear t1 -> fourDigitYear t2 ->
  ¬ lexico (isoText t2) (isoText t1) -> t1 <= t2.
Proof.
  intros H1 H2 Hle. destruct (Z.le_gt_cases t1 t2) as [|Hgt]; [assumption|].
  exfalso. apply Hle. apply isoText_lt; [assumption..|lia].
Qed.

End TextFacts.

Section StoreListing.
Import JsDate.

Lemma textKeyLe_total (a b : list N * list N) : textKeyLe a b \/ textKeyLe b a.
Proof.
  unfold textKeyLe.
  destruct (trichotomy (lexico (A:=list N * list N)) a b) as [Hlt|[->|Hgt]].
  - left. intros Hba. exact (irreflexivity lexico a (transitivity Hlt Hba)).
  - left. apply irreflexivity, _.
  - right. intros Hab. exact (irreflexivity lexico a (transitivity Hab Hgt)).
Qed.

Lemma textKeyLe_trans (a b c : list N * list N) :
  textKeyLe a b -> textKeyLe b c -> textKeyLe a c.
Proof.
  unfold textKeyLe. intros Hab Hbc Hca.
  destruct (trichotomy (lexico (A:=list N * list N)) a b) as [Hlt|[->|Hgt]].
  - apply Hbc. exact (transitivity Hca Hlt).
  - contradiction.
  - contradiction.
Qed.

Lemma textKeyLe_fst (a b : list N * list N) : textKeyLe a b -> ¬ lexico b.1 a.1.
Proof. unfold textKeyLe. intros Hab Hlt. apply Hab. destruct a, b. by left. Qed.

Lemma Sorted_weaken {A : Type} (P : A -> Prop) (R R' : A -> A -> Prop) (l : list A) :
  (forall a b, P a -> P b -> R a b -> R' a b) ->
  Forall P l -> Sorted R l -> Sorted R' l.
Proof.
  intros Himpl Hall Hs. induction Hs as [|a l Hs IH Hhd]; [constructor|].
  apply Forall_cons in Hall as [Ha Hall]. constructor; [by apply IH|].
  destruct Hhd as [|b l Hab]; constructor.
  apply Forall_cons in Hall as [Hb _]. by apply Himpl.
Qed.

(** Rows sorted by their index key, turned around and stripped of their
    keys: the rows of the table, the last text first; the newest row
    first when every year is written with four digits. *)
Lemma latest_text_first {A : Type} (createdAt : A -> isoString) (table : gmap (list N) A) :
  let listing :=
    map snd (reverse (merge_sort
      (fun a b : list N * A => textKeyLe (textOf (createdAt a.2), a.1)
                                         (textOf (createdAt b.2), b.1))
      (map_to_list table))) in
  listing ≡ₚ map snd (map_to_list table)
  /\ Sorted (fun a b => ¬ lexico (textOf (createdAt a)) (textOf (createdAt b))) listing
  /\ (map_Forall (fun _ row => fourDigitYear (newDate (createdAt row))) table ->
      Sorted (fun a b => (newDate (createdAt b) <= newDate (createdAt a))%Z) listing).
Proof.
  intros listing.
  assert (listing ≡ₚ map snd (map_to_list table)) as Hperm.
  { unfold listing. apply Permutation_map. rewrite reverse_Permutation.
    apply merge_sort_Permutation. }
  assert (Sorted (fun a b => ¬ lexico (textOf (createdAt a)) (textOf (createdAt b)))
            listing) as Hsorted.
  { unfold listing.
    set (R := fun a b : list N * A => textKeyLe (textOf (createdAt a.2), a.1)
                                                (textOf (createdAt b.2), b.1)).
    assert (Total R) by (intros a b; apply textKeyLe_total).
    assert (Transitive R) by (intros a b c; apply textKeyLe_trans).
    pose proof (StronglySorted_merge_sort R (map_to_list table)) as Hs.
    apply StronglySorted_Sorted, Sorted_reverse in Hs.
    revert Hs. generalize (reverse (merge_sort R (map_to_list table))).
    intros l Hs. induction Hs as [|a l Hs IH Hhd]; simpl; [constructor|].
    constructor; [exact IH|].
    destruct Hhd as [|b l Hab]; simpl; constructor.
    exact (textKeyLe_fst _ _ Hab). }
  split; [exact Hperm|]. split; [exact Hsorted|].
  intros Hyears.
  apply (Sorted_weaken (fun row => fourDigitYear (newDate (createdAt row))) _ _ _)
    with (3 := Hsorted).
  - intros a b Ha Hb Hab. by apply isoText_le.
  - apply Forall_forall. intros row Hin. rewrite Hperm in Hin.
    apply list_elem_of_fmap in Hin as ([k row'] & -> & Hin).
    apply elem_of_map_to_list in Hin. exact (Hyears k row' Hin).
Qed.

End StoreListing.

(** X1. [getAllExamSeries] and [getAllPracticeExams] list every stored
    row exactly once, ordered by the text of [createdAt] with the last
    text first: no row is followed by one whose text comes after its own.
    When every [createdAt] is between the years 0000 and 9999, that is
    the newest row first. *)
Theorem listings_are_complete_and_newest_first (db : ExamDatabase) :
  (getAllExamSeries db ≡ₚ map snd (map_to_list (examSeries db))
   /\ Sorted (fun a b => ¬ lexico (textOf (StoredExamSeries.createdAt a))
                                  (textOf (StoredExamSeries.createdAt b)))
        (getAllExamSeries db)
   /\ (map_Forall (fun _ row =>
                     JsDate.fourDigitYear (newDate (StoredExamSeries.createdAt row)))
                  (examSeries db) ->
       Sorted (fun a b => (newDate (StoredExamSeries.createdAt b)
                           <= newDate (StoredExamSeries.createdAt a))%Z)
         (getAllExamSeries db)))
  /\ (getAllPracticeExams db ≡ₚ map snd (map_to_list (practiceExams db))
      /\ Sorted (fun a b => ¬ lexico (textOf (StoredPracticeExam.createdAt a))
                                     (textOf (StoredPracticeExam.createdAt b)))
           (getAllPracticeExams db)
      /\ (map_Forall (fun _ row =>
                        JsDate.fourDigitYear (newDate (StoredPracticeExam.createdAt row)))
                     (practiceExams db) ->
          Sorted (fun a b => (newDate (StoredPracticeExam.createdAt b)
                              <= newDate (StoredPracticeExam.createdAt a))%Z)
            (getAllPracticeExams db))).
Proof.
  split.
  - apply (latest_text_first StoredExamSeries.createdAt).
  - apply (latest_text_first StoredPracticeExam.createdAt).
Qed.

(** Two series, the second made in the year 10000. *)
Definition seriesMadeAt (id : string) (createdAt : Z) : ExamSeries.t :=
  {| ExamSeries.id := str id;
     ExamSeries.topic := str "Algebra Basics";
     ExamSeries.description := str "covers linear equations";
     ExamSeries.exams := [];
     ExamSeries.totalExams := 0%Z;
     ExamSeries.createdAt := createdAt |}.

Definition listedIds (db : ExamDatabase) : list (list N) :=
  map StoredExamSeries.id (getAllExamSeries db).

Example newest_is_listed_first :
  listedIds (saveExamSeries
               (saveExamSeries emptyDatabase (seriesMadeAt "b" 1700000000000%Z) twoExams 30%Z 1%Z)
               (seriesMadeAt "a" 1800000000000%Z) twoExams 30%Z 2%Z)
  = [str "a"; str "b"].
Proof. vm_compute. reflexivity. Qed.

(** The text of a date in the year 10000 begins with a plus sign, which
    comes before every digit: the row is the newest and is listed last. *)
Example year_10000_is_listed_last :
  JsDate.isoText 253402300800000%Z = str "+010000-01-01T00:00:00.000Z"
  /\ listedIds (saveExamSeries
                  (saveExamSeries emptyDatabase (seriesMadeAt "b" 1700000000000%Z) twoExams 30%Z 1%Z)
                  (seriesMadeAt "a" 253402300800000%Z) twoExams 30%Z 2%Z)
     = [str "b"; str "a"].
Proof. vm_compute. split; reflexivity. Qed.

Lemma listings_are_complete_and_newest_first_witness :
  let db := saveExamSeries
              (saveExamSeries emptyDatabase (seriesMadeAt "b" 1700000000000%Z) twoExams 30%Z 1%Z)
              (seriesMadeAt "a" 1800000000000%Z) twoExams 30%Z 2%Z in
  Sorted (fun a b => (newDate (StoredExamSeries.createdAt b)
                      <= newDate (StoredExamSeries.createdAt a))%Z)
    (getAllExamSeries db)
  /\ length (getAllExamSeries db) = 2%nat.
Proof.
  intros db. split; [|vm_compute; reflexivity].
  apply (listings_are_complete_and_newest_first db).
  unfold db, saveExamSeries. cbn [examSeries].
  repeat apply map_Forall_insert_2; [..|apply map_Forall_empty];
    unfold JsDate.fourDigitYear; cbn; lia.
Defined.

Section StoreUpdates.

Lemma keyLe_antisym (a b : Z * list N) : keyLe a b -> keyLe b a -> a = b.
Proof.
  unfold keyLe. intros Hab Hba.
  destruct (trichotomy (lexico (A:=Z * list N)) a b) as [Hlt|[->|Hgt]];
    [contradiction|reflexivity|contradiction].
Qed.

Lemma mapM_fmap_ext {A B : Type} (f : A -> option B) (g : A -> A) (l : list A) :
  (forall x, f (g x) = f x) -> mapM f (g <$> l) = mapM f l.
Proof.
  intros Hfg. induction l as [|x l IH]; [reflexivity|].
  cbn. by rewrite Hfg, IH.
Qed.

(** The exam last written under a key by a series. *)
Fixpoint lastExam (k : list N) (exams : list SimulatorExam.t) : option SimulatorExam.t :=
  match exams with
  | [] => None
  | e :: rest =>
      match lastExam k rest with
      | Some e' => Some e'
      | None => if decide (SimulatorExam.id e = k) then Some e else None
      end
  end.

Lemma lastExam_Some k exams e :
  lastExam k exams = Some e -> e ∈ exams /\ SimulatorExam.id e = k.
Proof.
  induction exams as [|e0 rest IH]; simpl; [discriminate|].
  destruct (lastExam k rest) as [e'|].
  - intros Heq. simplify_eq. destruct (IH eq_refl). split; [by right|assumption].
  - destruct (decide (SimulatorExam.id e0 = k)); [|discriminate].
    intros Heq. simplify_eq. split; [by left|reflexivity].
Qed.

Lemma lastExam_None k exams :
  lastExam k exams = None <-> k ∉ map SimulatorExam.id exams.
Proof.
  induction exams as [|e0 rest IH]; simpl.
  - split; [intros _; apply not_elem_of_nil|reflexivity].
  - rewrite not_elem_of_cons. destruct (lastExam k rest) as [e'|].
    + split; [discriminate|]. intros [_ Hrest]. by apply IH in Hrest.
    + destruct (decide (SimulatorExam.id e0 = k)) as [Heq|Hne].
      * split; [discriminate|]. intros [Hne _]. by destruct Hne.
      * split; [|reflexivity]. intros _. split; [congruence|by apply IH].
Qed.

Lemma putExams_lookup_last seriesId exams : forall table k,
  putExams seriesId table exams !! k
  = match lastExam k exams with
    | Some e => Some (storedExamRow e seriesId)
    | None => table !! k
    end.
Proof.
  induction exams as [|e rest IH]; intros table k; [reflexivity|].
  change (putExams seriesId table (e :: rest))
    with (putExams seriesId (<[SimulatorExam.id e := storedExamRow e seriesId]> table) rest).
  rewrite IH. simpl. destruct (lastExam k rest); [reflexivity|].
  destruct (decide (SimulatorExam.id e = k)) as [<-|Hne].
  - apply lookup_insert_eq.
  - by apply lookup_insert_ne.
Qed.

Lemma simulatorExams_saveExamSeries db series settings time now :
  simulatorExams (saveExamSeries db series settings time now)
  = putExams (ExamSeries.id series) (simulatorExams db) (ExamSeries.exams series).
Proof. reflexivity. Qed.

Lemma updateExamScore_examSeries db examId score timeTaken now :
  examSeries (updateExamScore db examId score timeTaken now) = examSeries db.
Proof. unfold updateExamScore. by destruct (simulatorExams db !! examId). Qed.

Lemma updateExamScore_other db examId score timeTaken now k :
  k ≠ examId ->
  simulatorExams (updateExamScore db examId score timeTaken now) !! k
  = simulatorExams db !! k.
Proof.
  intros Hne. unfold updateExamScore.
  destruct (simulatorExams db !! examId); [|reflexivity].
  simpl. by rewrite lookup_insert_ne.
Qed.

Lemma updateExamScore_rest db examId score timeTaken now :
  practiceExams (updateExamScore db examId score timeTaken now) = practiceExams db
  /\ learningPaths (updateExamScore db examId score timeTaken now) = learningPaths db.
Proof. unfold updateExamScore. by destruct (simulatorExams db !! examId). Qed.

End StoreUpdates.

(** X2. Saving a series again overwrites what was stored for it: a score
    recorded for one of its exams since the first save is erased, and the
    store is the store a single save gives. *)
Theorem saveExamSeries_again_erases_score
  (db : ExamDatabase) (series : ExamSeries.t) (settings : SimulatorSettings.t)
  (time now now1 now2 score timeTaken : Z) (e : SimulatorExam.t) :
  e ∈ ExamSeries.exams series ->
  saveExamSeries
    (updateExamScore (saveExamSeries db series settings time now)
       (SimulatorExam.id e) score timeTaken now1)
    series settings time now2
  = saveExamSeries db series settings time now2
  /\ exists row,
       simulatorExams (saveExamSeries db series settings time now2) !! SimulatorExam.id e
       = Some row
       /\ StoredExam.score row = None
       /\ StoredExam.completedAt row = None
       /\ StoredExam.timeTaken row = None.
Proof.
  intros He. split.
  - unfold saveExamSeries at 1 3.
    destruct (updateExamScore_rest (saveExamSeries db series settings time now)
                (SimulatorExam.id e) score timeTaken now1) as [-> ->].
    rewrite updateExamScore_examSeries. f_equal.
    + simpl. apply insert_insert_eq.
    + fold (putExams (ExamSeries.id series)
              (simulatorExams (updateExamScore (saveExamSeries db series settings time now)
                 (SimulatorExam.id e) score timeTaken now1)) (ExamSeries.exams series)).
      fold (putExams (ExamSeries.id series) (simulatorExams db) (ExamSeries.exams series)).
      apply map_eq. intros k. rewrite !putExams_lookup_last.
      destruct (lastExam k (ExamSeries.exams series)) eqn:Hlast; [reflexivity|].
      apply lastExam_None in Hlast.
      rewrite updateExamScore_other.
      * rewrite simulatorExams_saveExamSeries, putExams_lookup_last.
        by apply lastExam_None in Hlast as ->.
      * intros ->. apply Hlast. by apply list_elem_of_fmap_2.
  - rewrite simulatorExams_saveExamSeries, putExams_lookup_last.
    destruct (lastExam (SimulatorExam.id e) (ExamSeries.exams series)) as [e'|] eqn:Hlast.
    + eexists. split; [reflexivity|]. by repeat split.
    + apply lastExam_None in Hlast. exfalso. apply Hlast. by apply list_elem_of_fmap_2.
Qed.

Lemma saveExamSeries_again_erases_score_witness :
  let series := sampleSeries [sampleExam "exam_1" 1 [sampleQuestion "2x = 4"]] in
  exists row,
    simulatorExams
      (saveExamSeries
         (updateExamScore (saveExamSeries emptyDatabase series twoExams 30 1)
            (str "exam_1") 80 600 2)
         series twoExams 30 3) !! str "exam_1" = Some row
    /\ StoredExam.score row = None.
Proof.
  intros series.
  destruct (saveExamSeries_again_erases_score emptyDatabase series twoExams 30 1 2 3 80 600
              (sampleExam "exam_1" 1 [sampleQuestion "2x = 4"]))
    as (Hsame & row & Hrow & Hscore & _).
  - by left.
  - exists row. split; [|exact Hscore].
    change (str "exam_1")
      with (SimulatorExam.id (sampleExam "exam_1" 1 [sampleQuestion "2x = 4"])).
    by rewrite Hsame.
Defined.

(** The key of an exam row in the listing of a series. *)
Definition examKey (kv : list N * StoredExam.t) : Z * list N :=
  (StoredExam.difficultyLevel kv.2, kv.1).

Section ScoresAreNotLoaded.

Variables (db : ExamDatabase) (examId : list N) (score timeTaken now : Z).

(** What [updateExamScore] makes of a row. *)
Definition scored (kv : list N * StoredExam.t) : list N * StoredExam.t :=
  (kv.1, if decide (kv.1 = examId)
         then withOutcome kv.2 score (toISOString now) timeTaken else kv.2).

Lemma updateExamScore_lookup k row :
  simulatorExams (updateExamScore db examId score timeTaken now) !! k = Some row
  <-> exists row0, simulatorExams db !! k = Some row0 /\ scored (k, row0) = (k, row).
Proof.
  unfold updateExamScore, scored. simpl.
  destruct (simulatorExams db !! examId) as [exam|] eqn:Hexam; simpl.
  - destruct (decide (k = examId)) as [->|Hne].
    + rewrite lookup_insert_eq, Hexam. split.
      * intros Heq. simplify_eq. eauto.
      * intros (row0 & Heq & Hrow). by simplify_eq.
    + rewrite lookup_insert_ne by done. split; [eauto|].
      intros (row0 & Heq & Hrow). by simplify_eq.
  - destruct (decide (k = examId)) as [->|Hne].
    + rewrite Hexam. split; [discriminate|]. by intros (row0 & Heq & _).
    + split; [eauto|]. intros (row0 & Heq & Hrow). by simplify_eq.
Qed.

Lemma examsOfSeries_updateExamScore seriesId :
  examsOfSeries (updateExamScore db examId score timeTaken now) seriesId
  = scored <$> examsOfSeries db seriesId.
Proof.
  assert (forall kv, examKey (scored kv) = examKey kv) as Hkey.
  { intros [k row]. unfold examKey, scored. simpl. by destruct (decide (k = examId)). }
  assert (examsOfSeries (updateExamScore db examId score timeTaken now) seriesId
          ≡ₚ scored <$> examsOfSeries db seriesId) as Hperm.
  { apply NoDup_Permutation.
    - unfold examsOfSeries. rewrite merge_sort_Permutation. apply NoDup_map_to_list.
    - apply (NoDup_fmap_1 fst). rewrite <- list_fmap_compose.
      unfold examsOfSeries. rewrite merge_sort_Permutation.
      apply NoDup_fst_map_to_list.
    - intros [k row]. rewrite examsOfSeries_elem, list_elem_of_fmap.
      rewrite updateExamScore_lookup. split.
      + intros [(row0 & Hrow0 & Heq) Hsid]. exists (k, row0). split; [by symmetry|].
        apply examsOfSeries_elem. split; [assumption|].
        unfold scored in Heq. simpl in Heq. simplify_eq.
        by destruct (decide (k = examId)).
      + intros ([k0 row0] & Heq & [Hrow0 Hsid]%examsOfSeries_elem).
        pose proof Heq as Heq'. unfold scored in Heq'. simpl in Heq'. simplify_eq.
        split; [eauto|]. by destruct (decide (_ = examId)). }
  apply (StronglySorted_unique_strong (byKey examKey)); [| | |exact Hperm].
  - intros x1 x2 Hx1 Hx2 H12 H21.
    assert (examKey x1 = examKey x2) as Hsame by by apply keyLe_antisym.
    rewrite <- Hperm in Hx2.
    assert (NoDup (fst <$> examsOfSeries (updateExamScore db examId score timeTaken now)
                             seriesId)) as Hnodup.
    { unfold examsOfSeries. rewrite merge_sort_Permutation. apply NoDup_fst_map_to_list. }
    apply list_elem_of_lookup in Hx1 as [i1 Hi1]. apply list_elem_of_lookup in Hx2 as [i2 Hi2].
    assert (i1 = i2) as ->; [|congruence].
    eapply NoDup_lookup; [exact Hnodup| |].
    + rewrite list_lookup_fmap, Hi1. reflexivity.
    + rewrite list_lookup_fmap, Hi2. simpl. unfold examKey in Hsame. congruence.
  - apply (StronglySorted_merge_sort _).
  - apply (StronglySorted_fmap scored (byKey examKey) (byKey examKey)).
    + intros a b. unfold byKey. by rewrite !Hkey.
    + apply (StronglySorted_merge_sort _).
Qed.

End ScoresAreNotLoaded.

(** X3. The outcome that [updateExamScore] records is never read back by
    [getExamSeries]: every series loads the same before and after a
    score is recorded. *)
Theorem getExamSeries_ignores_scores
  (db : ExamDatabase) (examId : list N) (score timeTaken now : Z) (seriesId : list N) :
  getExamSeries (updateExamScore db examId score timeTaken now) seriesId
  = getExamSeries db seriesId.
Proof.
  unfold getExamSeries.
  rewrite updateExamScore_examSeries, examsOfSeries_updateExamScore.
  destruct (examSeries db !! seriesId); [|reflexivity].
  rewrite (mapM_fmap_ext (fun kv : list N * StoredExam.t => loadedExam kv.2)); [reflexivity|].
  intros [k row]. simpl. by destruct (decide (k = examId)).
Qed.

(** X4. One exam row whose [questionsData] does not parse makes the
    whole series unloadable: [getExamSeries] answers [null]. *)
Theorem getExamSeries_unreadable_row
  (db : ExamDatabase) (seriesId k : list N) (row : StoredExam.t) :
  simulatorExams db !! k = Some row ->
  StoredExam.seriesId row = seriesId ->
  JSON_parse (StoredExam.questionsData row) = None ->
  getExamSeries db seriesId = None.
Proof.
  intros Hrow Hsid Hbad. unfold getExamSeries.
  destruct (examSeries db !! seriesId); [|reflexivity].
  rewrite (proj2 (mapM_None _ _)); [reflexivity|].
  apply Exists_exists. exists (k, row). split.
  - by apply examsOfSeries_elem.
  - unfold loadedExam. simpl. by rewrite Hbad.
Qed.

Definition unreadableStore : ExamDatabase :=
  let saved := saveExamSeries emptyDatabase twoLevels twoExams 30 1700000000001 in
  {| examSeries := examSeries saved;
     simulatorExams :=
       <[ str "exam_3" := {|
            StoredExam.id := str "exam_3";
            StoredExam.seriesId := ExamSeries.id twoLevels;
            StoredExam.title := JStr (str "Practice exam");
            StoredExam.description := JStr (str "An exam");
            StoredExam.instructions := JStr (str "Answer every question");
            StoredExam.totalPoints := JInt 100;
            StoredExam.estimatedTime := Some 30%Z;
            StoredExam.difficultyLevel := 3;
            StoredExam.difficultyLabel := str "Intermediate";
            StoredExam.questionsData := str "[{";
            StoredExam.score := None;
            StoredExam.completedAt := None;
            StoredExam.timeTaken := None;
            StoredExam.createdAt := toISOString 1700000000000 |} ]> (simulatorExams saved);
     practiceExams := practiceExams saved;
     learningPaths := learningPaths saved |}.

Lemma getExamSeries_unreadable_row_witness :
  is_Some (examSeries unreadableStore !! ExamSeries.id twoLevels)
  /\ getExamSeries unreadableStore (ExamSeries.id twoLevels) = None.
Proof.
  split; [vm_compute; eauto|].
  eapply (getExamSeries_unreadable_row unreadableStore _ (str "exam_3"));
    [apply lookup_insert_eq|reflexivity|vm_compute; reflexivity].
Defined.

(** X5. Deleting a series leaves every other series as it loads: the
    cascade removes the rows of that series only. *)
Theorem deleteExamSeries_keeps_other_series
  (db : ExamDatabase) (seriesId other : list N) :
  other ≠ seriesId ->
  getExamSeries (deleteExamSeries db seriesId) other = getExamSeries db other
  /\ practiceExams (deleteExamSeries db seriesId) = practiceExams db
  /\ learningPaths (deleteExamSeries db seriesId) = learningPaths db.
Proof.
  intros Hne. split; [|by split].
  unfold getExamSeries, examsOfSeries, deleteExamSeries. simpl.
  rewrite lookup_delete_ne by done.
  rewrite map_filter_filter_l; [reflexivity|].
  intros k exam _. simpl. congruence.
Qed.

Lemma deleteExamSeries_keeps_other_series_witness :
  let db := saveExamSeries emptyDatabase twoLevels twoExams 30 1 in
  getExamSeries (deleteExamSeries db (str "series_0")) (ExamSeries.id twoLevels)
  = getExamSeries db (ExamSeries.id twoLevels)
  /\ is_Some (getExamSeries db (ExamSeries.id twoLevels)).
Proof.
  intros db. split; [|vm_compute; eauto].
  apply (deleteExamSeries_keeps_other_series db (str "series_0") (ExamSeries.id twoLevels)).
  vm_compute. discriminate.
Defined.

(** The ids that a series is about to write are free, and no row is
    tagged with the id of the series. *)
Definition freshFor (db : ExamDatabase) (series : ExamSeries.t) : Prop :=
  examSeries db !! ExamSeries.id series = None
  /\ (forall e, e ∈ ExamSeries.exams series ->
        simulatorExams db !! SimulatorExam.id e = None)
  /\ (forall k row, simulatorExams db !! k = Some row ->
        StoredExam.seriesId row ≠ ExamSeries.id series).

(** X6. Saving a series under fresh ids and deleting it again restores
    the store: the cascade removes exactly what the save wrote. *)
Theorem deleteExamSeries_undoes_saveExamSeries
  (db : ExamDatabase) (series : ExamSeries.t) (settings : SimulatorSettings.t)
  (time now : Z) :
  freshFor db series ->
  deleteExamSeries (saveExamSeries db series settings time now) (ExamSeries.id series) = db.
Proof.
  intros (Hseries & Hexams & Htags).
  unfold deleteExamSeries. rewrite simulatorExams_saveExamSeries. simpl.
  destruct db as [series0 exams0 practice0 paths0]. simpl in *. f_equal.
  - by apply delete_insert_id.
  - apply map_eq. intros k. apply option_eq. intros row.
    rewrite map_lookup_filter_Some, putExams_lookup_last. simpl.
    destruct (lastExam k (ExamSeries.exams series)) as [e|] eqn:Hlast.
    + apply lastExam_Some in Hlast as [He <-]. rewrite (Hexams e He).
      split; [|discriminate]. intros [Heq Hsid]. by simplify_eq.
    + split; [tauto|]. intros Hrow. split; [assumption|]. by eapply Htags.
Qed.

Lemma deleteExamSeries_undoes_saveExamSeries_witness :
  let db := saveExamSeries emptyDatabase
              (sampleSeries [sampleExam "exam_9" 1 [sampleQuestion "x = 1"]])
              twoExams 30 1 in
  let series := {| ExamSeries.id := str "series_2";
                   ExamSeries.topic := str "Geometry";
                   ExamSeries.description := str "angles";
                   ExamSeries.exams := [sampleExam "exam_1" 1 [sampleQuestion "2x = 4"]];
                   ExamSeries.totalExams := 1;
                   ExamSeries.createdAt := 1700000000002 |} in
  deleteExamSeries (saveExamSeries db series twoExams 30 2) (str "series_2") = db.
Proof.
  intros db series.
  apply (deleteExamSeries_undoes_saveExamSeries db series twoExams 30 2).
  split; [vm_compute; reflexivity|]. split.
  - intros e ->%list_elem_of_singleton. vm_compute. reflexivity.
  - intros k row Hrow. unfold db in Hrow.
    rewrite simulatorExams_saveExamSeries, putExams_lookup_last in Hrow.
    destruct (lastExam k _) as [e|] eqn:Hlast;
      [|unfold emptyDatabase in Hrow; simpl in Hrow; by rewrite lookup_empty in Hrow].
    simplify_eq. vm_compute. discriminate.
Defined.

(** X7. Saving a series leaves every other series as it loads, as long
    as none of the exam ids it writes belongs to a row of that other
    series. *)
Theorem saveExamSeries_keeps_other_series
  (db : ExamDatabase) (series : ExamSeries.t) (settings : SimulatorSettings.t)
  (time now : Z) (other : list N) :
  other ≠ ExamSeries.id series ->
  (forall e row, e ∈ ExamSeries.exams series ->
     simulatorExams db !! SimulatorExam.id e = Some row ->
     StoredExam.seriesId row ≠ other) ->
  getExamSeries (saveExamSeries db series settings time now) other
  = getExamSeries db other.
Proof.
  intros Hne Hfree. unfold getExamSeries, examsOfSeries.
  rewrite simulatorExams_saveExamSeries. simpl.
  rewrite lookup_insert_ne by done.
  replace (filter (fun kv : list N * StoredExam.t => StoredExam.seriesId kv.2 = other)
             (putExams (ExamSeries.id series) (simulatorExams db) (ExamSeries.exams series)))
    with (filter (fun kv : list N * StoredExam.t => StoredExam.seriesId kv.2 = other)
            (simulatorExams db)); [reflexivity|].
  apply map_filter_strong_ext_1. intros k row. simpl.
  rewrite putExams_lookup_last.
  destruct (lastExam k (ExamSeries.exams series)) as [e|] eqn:Hlast; [|reflexivity].
  apply lastExam_Some in Hlast as [He <-]. split.
  - intros [Hsid Hrow]. exfalso. by eapply Hfree.
  - intros [Hsid Heq]. injection Heq as <-. simpl in Hsid. congruence.
Qed.

Lemma saveExamSeries_keeps_other_series_witness :
  let db := saveExamSeries emptyDatabase twoLevels twoExams 30 1 in
  let series := {| ExamSeries.id := str "series_2";
                   ExamSeries.topic := str "Geometry";
                   ExamSeries.description := str "angles";
                   ExamSeries.exams := [sampleExam "exam_7" 1 [sampleQuestion "2x = 4"]];
                   ExamSeries.totalExams := 1;
                   ExamSeries.createdAt := 1700000000002 |} in
  getExamSeries (saveExamSeries db series twoExams 30 2) (ExamSeries.id twoLevels)
  = getExamSeries db (ExamSeries.id twoLevels)
  /\ is_Some (getExamSeries db (ExamSeries.id twoLevels)).
Proof.
  intros db series. split; [|vm_compute; eauto].
  apply (saveExamSeries_keeps_other_series db series twoExams 30 2).
  - vm_compute. discriminate.
  - intros e row ->%list_elem_of_singleton Hrow. vm_compute in Hrow. discriminate.
Defined.

(** An exam id of the new series that a row of another series holds takes
    that row over: the exam leaves the other series. *)
Lemma saveExamSeries_takes_over_rows :
  let db := saveExamSeries emptyDatabase twoLevels twoExams 30 1 in
  let series := {| ExamSeries.id := str "series_2";
                   ExamSeries.topic := str "Geometry";
                   ExamSeries.description := str "angles";
                   ExamSeries.exams := [sampleExam "exam_1" 1 [sampleQuestion "2x = 4"]];
                   ExamSeries.totalExams := 1;
                   ExamSeries.createdAt := 1700000000002 |} in
  (map SimulatorExam.id <$> (ExamSeries.exams <$>
     getExamSeries (saveExamSeries db series twoExams 30 2) (ExamSeries.id twoLevels)))
  = Some [str "exam_2"].
Proof. vm_compute. reflexivity. Qed.

(** X8. A practice exam saved and loaded by its id comes back with its
    fields and, when its questions are JSON data, its questions. Its
    answer key does not: the store keeps only whether there was one, and
    the exam loaded carries its own questions as the key. *)
Theorem getPracticeExam_savePracticeExam
  (db : ExamDatabase) (exam : GeneratedExam.t) (settings : jsval) :
  jsonRepresentable (GeneratedExam.questions exam) = true ->
  exists loaded,
    getPracticeExam (savePracticeExam db exam settings) (GeneratedExam.id exam)
    = Some loaded
    /\ GeneratedExam.id loaded = GeneratedExam.id exam
    /\ GeneratedExam.title loaded = GeneratedExam.title exam
    /\ GeneratedExam.description loaded = GeneratedExam.description exam
    /\ GeneratedExam.instructions loaded = GeneratedExam.instructions exam
    /\ GeneratedExam.questions loaded = GeneratedExam.questions exam
    /\ GeneratedExam.totalPoints loaded = GeneratedExam.totalPoints exam
    /\ GeneratedExam.estimatedTime loaded = GeneratedExam.estimatedTime exam
    /\ GeneratedExam.difficulty loaded = GeneratedExam.difficulty exam
    /\ GeneratedExam.createdAt loaded = GeneratedExam.createdAt exam
    /\ GeneratedExam.answerKey loaded
       = (if hasAnswerKeyOf exam then Some (GeneratedExam.questions exam) else None).
Proof.
  intros Hq. unfold getPracticeExam, savePracticeExam. simpl.
  rewrite lookup_insert_eq. simpl. rewrite JSON_parse_stringify by assumption.
  eexists. split; [reflexivity|]. simpl. by repeat split.
Qed.

Definition samplePracticeExam (key : option jsval) : GeneratedExam.t :=
  {| GeneratedExam.id := str "practice_1";
     GeneratedExam.title := JStr (str "Practice");
     GeneratedExam.description := JStr (str "A practice exam");
     GeneratedExam.instructions := JStr (str "Answer every question");
     GeneratedExam.questions := JArr [sampleQuestion "2x = 4"];
     GeneratedExam.totalPoints := JInt 100;
     GeneratedExam.estimatedTime := Some 30%Z;
     GeneratedExam.difficulty := JStr (str "Medium");
     GeneratedExam.answerKey := key;
     GeneratedExam.createdAt := 1700000000000 |}.

Lemma getPracticeExam_savePracticeExam_witness :
  let exam := samplePracticeExam (Some (JArr [JStr (str "x = 2")])) in
  exists loaded,
    getPracticeExam (savePracticeExam emptyDatabase exam (JObj [])) (str "practice_1")
    = Some loaded
    /\ GeneratedExam.answerKey loaded = Some (JArr [sampleQuestion "2x = 4"]).
Proof.
  intros exam.
  destruct (getPracticeExam_savePracticeExam emptyDatabase exam (JObj []))
    as (loaded & Hload & _ & _ & _ & _ & _ & _ & _ & _ & _ & Hkey);
    [vm_compute; reflexivity|].
  exists loaded. split; [exact Hload|exact Hkey].
Defined.

(** X9. [updatePracticeExamScore] changes the three outcome fields of the
    row under the id and nothing else; without a row under the id it
    changes nothing; a second call leaves what a single call with the
    second values leaves. *)
Theorem updatePracticeExamScore_partial_update
  (db : ExamDatabase) (examId : list N) (score timeTaken now : Z) :
  let db' := updatePracticeExamScore db examId score timeTaken now in
  (practiceExams db !! examId = None -> db' = db)
  /\ (forall exam, practiceExams db !! examId = Some exam ->
        exists exam',
          practiceExams db' !! examId = Some exam'
          /\ StoredPracticeExam.score exam' = Some score
          /\ StoredPracticeExam.completedAt exam' = Some (toISOString now)
          /\ StoredPracticeExam.timeTaken exam' = Some timeTaken
          /\ StoredPracticeExam.questionsData exam' = StoredPracticeExam.questionsData exam
          /\ StoredPracticeExam.settings exam' = StoredPracticeExam.settings exam
          /\ StoredPracticeExam.hasAnswerKey exam' = StoredPracticeExam.hasAnswerKey exam
          /\ StoredPracticeExam.id exam' = StoredPracticeExam.id exam
          /\ StoredPracticeExam.title exam' = StoredPracticeExam.title exam
          /\ StoredPracticeExam.description exam' = StoredPracticeExam.description exam
          /\ StoredPracticeExam.instructions exam' = StoredPracticeExam.instructions exam
          /\ StoredPracticeExam.totalPoints exam' = StoredPracticeExam.totalPoints exam
          /\ StoredPracticeExam.estimatedTime exam' = StoredPracticeExam.estimatedTime exam
          /\ StoredPracticeExam.difficulty exam' = StoredPracticeExam.difficulty exam
          /\ StoredPracticeExam.createdAt exam' = StoredPracticeExam.createdAt exam)
  /\ (forall other, other ≠ examId -> practiceExams db' !! other = practiceExams db !! other)
  /\ examSeries db' = examSeries db
  /\ simulatorExams db' = simulatorExams db
  /\ learningPaths db' = learningPaths db
  /\ (forall score2 timeTaken2 now2,
        updatePracticeExamScore db' examId score2 timeTaken2 now2
        = updatePracticeExamScore db examId score2 timeTaken2 now2)
  /\ getPracticeExam db' examId = getPracticeExam db examId.
Proof.
  intros db'. unfold db', updatePracticeExamScore.
  destruct (practiceExams db !! examId) as [exam|] eqn:Hexam.
  - split; [discriminate|]. split.
    { intros exam0 Heq. simplify_eq. eexists. simpl. rewrite lookup_insert_eq.
      split; [reflexivity|]. simpl. by repeat split. }
    split. { intros other Hne. simpl. by rewrite lookup_insert_ne. }
    split; [reflexivity|]. split; [reflexivity|]. split; [reflexivity|]. split.
    { intros score2 timeTaken2 now2. simpl. rewrite lookup_insert_eq. simpl.
      f_equal. apply insert_insert_eq. }
    unfold getPracticeExam. simpl. rewrite lookup_insert_eq, Hexam. reflexivity.
  - split; [reflexivity|]. split; [discriminate|].
    repeat (split; [reflexivity|]). split; [|reflexivity].
    intros score2 timeTaken2 now2. by rewrite Hexam.
Qed.

(** X10. [deletePracticeExam] removes the exam under the id and no other;
    deleting an exam saved under a free id restores the store. *)
Theorem deletePracticeExam_removes_one (db : ExamDatabase) (examId : list N) :
  getPracticeExam (deletePracticeExam db examId) examId = None
  /\ (forall other, other ≠ examId ->
        getPracticeExam (deletePracticeExam db examId) other = getPracticeExam db other)
  /\ (forall exam settings,
        GeneratedExam.id exam = examId -> practiceExams db !! examId = None ->
        deletePracticeExam (savePracticeExam db exam settings) examId = db).
Proof.
  split; [|split].
  - unfold getPracticeExam, deletePracticeExam. simpl. by rewrite lookup_delete_eq.
  - intros other Hne. unfold getPracticeExam, deletePracticeExam. simpl.
    by rewrite lookup_delete_ne.
  - intros exam settings <- Hfree. unfold deletePracticeExam, savePracticeExam. simpl.
    destruct db. simpl in *. f_equal. by apply delete_insert_id.
Qed.

(** X11. A learning path saved without [steps] is stored and counted, but
    cannot be loaded: [getLearningPath] answers [null] for it. *)
Theorem getLearningPath_without_steps
  (db : ExamDatabase) (path : jsval) (id : list N) (now : Z) :
  prop path (str "id") = Some (JStr id) ->
  prop path (str "steps") = None ->
  exists db',
    saveLearningPath db path now = Some (Returns db')
    /\ is_Some (learningPaths db' !! id)
    /\ getLearningPath db' id = None.
Proof.
  intros Hid Hsteps. unfold saveLearningPath.
  destruct path; try discriminate. rewrite Hid, Hsteps.
  eexists. split; [reflexivity|]. unfold getLearningPath. simpl.
  rewrite lookup_insert_eq. simpl. split; [eauto|reflexivity].
Qed.

Lemma getLearningPath_without_steps_witness :
  exists db',
    saveLearningPath emptyDatabase
      (JObj [(str "id", JStr (str "path_1")); (str "topic", JStr (str "Algebra"))]) 5
    = Some (Returns db')
    /\ is_Some (learningPaths db' !! str "path_1")
    /\ getLearningPath db' (str "path_1") = None.
Proof.
  apply (getLearningPath_without_steps emptyDatabase _ (str "path_1") 5); reflexivity.
Defined.

(** X12. [deleteLearningPath] removes the path under the id and no other;
    deleting a path saved under a free id restores the store. *)
Theorem deleteLearningPath_removes_one (db : ExamDatabase) (pathId : list N) :
  getLearningPath (deleteLearningPath db pathId) pathId = None
  /\ (forall other, other ≠ pathId ->
        getLearningPath (deleteLearningPath db pathId) other = getLearningPath db other)
  /\ (forall path now db',
        learningPaths db !! pathId = None ->
        prop path (str "id") = Some (JStr pathId) ->
        saveLearningPath db path now = Some (Returns db') ->
        deleteLearningPath db' pathId = db).
Proof.
  split; [|split].
  - unfold getLearningPath, deleteLearningPath. simpl. by rewrite lookup_delete_eq.
  - intros other Hne. unfold getLearningPath, deleteLearningPath. simpl.
    by rewrite lookup_delete_ne.
  - intros path now db' Hfree Hid. unfold saveLearningPath.
    destruct path; try discriminate. rewrite Hid. intros Heq. simplify_eq.
    unfold deleteLearningPath. simpl. destruct db. simpl in *. f_equal.
    by apply delete_insert_id.
Qed.

Section Counting.

Lemma size_putExams seriesId exams : forall table,
  NoDup (map SimulatorExam.id exams) ->
  (forall e, e ∈ exams -> table !! SimulatorExam.id e = None) ->
  size (putExams seriesId table exams) = (size table + length exams)%nat.
Proof.
  induction exams as [|e rest IH]; intros table Hnodup Hfree; simpl; [lia|].
  apply NoDup_cons in Hnodup as [Hnew Hnodup].
  change (putExams seriesId table (e :: rest))
    with (putExams seriesId (<[SimulatorExam.id e := storedExamRow e seriesId]> table) rest).
  rewrite IH; [| assumption |].
  - rewrite map_size_insert_None; [lia|]. apply Hfree. by left.
  - intros e' He'. rewrite lookup_insert_ne; [apply Hfree; by right|].
    intros Heq. apply Hnew. rewrite Heq. by apply list_elem_of_fmap_2.
Qed.

End Counting.

(** X13. The counts after a save: a series under a free id with exams
    under free, different ids adds one series and as many exams as it
    has; a series under an id already stored adds no series. The other
    two counts stay. *)
Theorem getStorageStats_saveExamSeries
  (db : ExamDatabase) (series : ExamSeries.t) (settings : SimulatorSettings.t)
  (time now : Z) :
  let before := getStorageStats db in
  let after := getStorageStats (saveExamSeries db series settings time now) in
  StorageStats.practiceExams after = StorageStats.practiceExams before
  /\ StorageStats.learningPaths after = StorageStats.learningPaths before
  /\ (examSeries db !! ExamSeries.id series = None ->
      StorageStats.examSeries after = S (StorageStats.examSeries before))
  /\ (is_Some (examSeries db !! ExamSeries.id series) ->
      StorageStats.examSeries after = StorageStats.examSeries before)
  /\ (NoDup (map SimulatorExam.id (ExamSeries.exams series)) ->
      (forall e, e ∈ ExamSeries.exams series ->
         simulatorExams db !! SimulatorExam.id e = None) ->
      StorageStats.simulatorExams after
      = (StorageStats.simulatorExams before + length (ExamSeries.exams series))%nat).
Proof.
  intros before after. unfold before, after, getStorageStats. simpl.
  split; [reflexivity|]. split; [reflexivity|]. split; [|split].
  - intros Hfree. by apply map_size_insert_None.
  - intros [row Hrow]. by eapply map_size_insert_Some.
  - intros Hnodup Hfree. by apply size_putExams.
Qed.

(** * Further properties of the exam series orchestrator *)

Section Trace.
Import ExamSimulatorService SimulatorSettings.

Variable E : env.
Variables (seriesTopic examContentDescription : list N).
Variable hasFiles : bool.
Variables (settings : SimulatorSettings.t) (examTime : Z).

(** What one level adds to the trace: its request, then the wait unless
    the level is the last. *)
Definition levelTrace (level : Z) (text : list N) : list event :=
  Request (createExamSeriesPrompt examContentDescription settings hasFiles level)
    (Returns text)
  :: (if (level <? numberOfExams settings)%Z then [Delay 1000] else []).

Lemma generateLevels_trace levels : forall exams w result w',
  generateLevels E seriesTopic examContentDescription hasFiles settings examTime
    levels exams w = (Returns result, w') ->
  exists texts,
    length texts = length levels
    /\ events w' = events w ++ concat (zip_with levelTrace levels texts).
Proof.
  induction levels as [|level rest IH]; intros exams w result w' Hrun; simpl in Hrun.
  - unfold ret in Hrun. simplify_eq. exists []. by rewrite app_nil_r.
  - unfold bind at 1 in Hrun. unfold awaitOss in Hrun.
    destruct (getOssResponse E (events w) _) as [text|t] eqn:Hresp; [|discriminate].
    unfold bind at 1 in Hrun.
    fold (levelExam E seriesTopic settings examTime level text) in Hrun.
    match type of Hrun with context [levelExam _ _ _ _ level text ?w1] =>
      destruct (levelExam_run E seriesTopic settings examTime level text w1)
        as (e & w2 & Hexam & Hev2 & _); rewrite Hexam in Hrun
    end.
    unfold bind at 1 in Hrun. simpl in Hev2.
    destruct (level <? numberOfExams settings)%Z eqn:Hlast;
      unfold emit, ret in Hrun; apply IH in Hrun as (texts & Hlen & Hev);
      exists (text :: texts); (split; [simpl; by rewrite Hlen|]);
      rewrite Hev; simpl; unfold levelTrace at 2; rewrite Hlast, Hev2; simpl;
      by rewrite <- ?app_assoc.
Qed.

Lemma processFiles_trace files : forall w w',
  processFiles E files w = (Returns tt, w') ->
  events w' = events w ++ map (fun file => ReadFile file (fileToBase64 E file)) files
  /\ Forall (fun file => exists b, fileToBase64 E file = Returns b) files.
Proof.
  induction files as [|file rest IH]; intros w w' Hrun; simpl in Hrun.
  - unfold ret in Hrun. simplify_eq. by rewrite app_nil_r.
  - unfold bind at 1, tryCatch, bind, awaitFile, ret, throw in Hrun.
    destruct (fileToBase64 E file) as [b|t] eqn:Hfile; [|discriminate].
    apply IH in Hrun as [Hev Hall]. simpl in Hev. split.
    + rewrite Hev. simpl. rewrite Hfile. by rewrite <- app_assoc.
    + constructor; [eauto|assumption].
Qed.

End Trace.

(** X14. A run of [generateExamSeries] that returns a series has first
    read every file, then asked the capability once per level, for the
    levels 1..N in this order, and waited 1000 ms after each request but
    the last. *)
Theorem generateExamSeries_trace
  (E : env) (seriesTopic examContentDescription : list N) (files : list File)
  (settings : SimulatorSettings.t) (examTime : Z) (w w' : world) (series : ExamSeries.t) :
  generateExamSeries E seriesTopic examContentDescription files settings examTime w
  = (Returns series, w') ->
  exists texts,
    Z.of_nat (length texts) = Z.max 0 (SimulatorSettings.numberOfExams settings)
    /\ events w'
       = events w
         ++ map (fun file => ReadFile file (fileToBase64 E file)) files
         ++ concat (zip_with (levelTrace examContentDescription (hasFilesOf files) settings)
                      (seqZ 1 (SimulatorSettings.numberOfExams settings)) texts).
Proof.
  unfold generateExamSeries.
  destruct (_ && _); [discriminate|].
  unfold tryCatch, bind at 1.
  destruct (processFiles E files w) as [[[]|t] w1] eqn:Hfiles;
    [|destruct t; discriminate].
  unfold bind at 1.
  destruct (generateLevels _ _ _ _ _ _ _ _ w1) as [[exams|t] w2] eqn:Hlevels;
    [|destruct t; discriminate].
  apply processFiles_trace in Hfiles as [Hev1 _].
  apply generateLevels_trace in Hlevels as (texts & Hlen & Hev2).
  unfold bind, dateNow, ret. intros Heq. simplify_eq. simpl.
  exists texts. split.
  - rewrite Hlen, length_seqZ. lia.
  - rewrite Hev2, Hev1. by rewrite <- app_assoc.
Qed.

Lemma generateExamSeries_trace_witness :
  exists series w' text1 text2,
    generateExamSeries (stubEnv (fun _ => Returns wellFormedResponse))
      (str "Algebra Basics") (str "covers linear equations") [] twoExams 30 initialWorld
    = (Returns series, w')
    /\ events w'
       = [Request (createExamSeriesPrompt (str "covers linear equations") twoExams false 1)
            (Returns text1);
          Delay 1000;
          Request (createExamSeriesPrompt (str "covers linear equations") twoExams false 2)
            (Returns text2)].
Proof.
  destruct (generateExamSeries (stubEnv (fun _ => Returns wellFormedResponse))
              (str "Algebra Basics") (str "covers linear equations") [] twoExams 30
              initialWorld) as [[series|t] w'] eqn:Hrun;
    [|vm_compute in Hrun; discriminate].
  destruct (generateExamSeries_trace _ _ _ _ _ _ _ _ _ Hrun) as (texts & Hlen & Hev).
  destruct texts as [|text1 [|text2 [|text3 texts]]]; try (simpl in Hlen; lia).
  exists series, w', text1, text2. split; [reflexivity|]. exact Hev.
Defined.

Section FileFailure.
Import ExamSimulatorService SimulatorSettings.

Variable E : env.

Definition fileError (file : File) : thrown :=
  ErrorInstance (Error
    (str "Failed to process file " ++ file_name file
     ++ str ". Please ensure the file is not corrupted and try again.")).

Lemma processFiles_fails good bad rest t : forall w,
  Forall (fun file => exists b, fileToBase64 E file = Returns b) good ->
  fileToBase64 E bad = Throws t ->
  processFiles E (good ++ bad :: rest) w
  = (Throws (fileError bad),
     {| clockReads := clockReads w;
        events := events w
                  ++ map (fun file => ReadFile file (fileToBase64 E file)) (good ++ [bad]) |}).
Proof.
  intros w Hgood Hbad. revert w.
  induction Hgood as [|file good [b Hb] _ IH]; intros w; simpl.
  - unfold bind at 1, tryCatch, bind, awaitFile, ret, throw. by rewrite Hbad.
  - unfold bind at 1, tryCatch, bind, awaitFile, ret. rewrite Hb, IH. simpl.
    by rewrite <- app_assoc.
Qed.

End FileFailure.

(** X15. When a reference file cannot be read, [generateExamSeries]
    rejects with an error that names the first such file; the files
    after it are not read and the capability is not asked. *)
Theorem generateExamSeries_unreadable_file
  (E : env) (seriesTopic examContentDescription : list N) (good rest : list File)
  (bad : File) (t : thrown) (settings : SimulatorSettings.t) (examTime : Z) (w : world) :
  Forall (fun file => exists b, fileToBase64 E file = Returns b) good ->
  fileToBase64 E bad = Throws t ->
  generateExamSeries E seriesTopic examContentDescription (good ++ bad :: rest)
    settings examTime w
  = (Throws (ErrorInstance (Error
       (str "Failed to process file " ++ file_name bad
        ++ str ". Please ensure the file is not corrupted and try again."))),
     {| clockReads := clockReads w;
        events := events w
                  ++ map (fun file => ReadFile file (fileToBase64 E file)) (good ++ [bad]) |}).
Proof.
  intros Hgood Hbad. unfold generateExamSeries.
  replace (bool_decide (length (good ++ bad :: rest) = 0%nat)) with false
    by (symmetry; apply bool_decide_eq_false; rewrite length_app; simpl; lia).
  rewrite andb_false_r. unfold tryCatch, bind at 1.
  by rewrite (processFiles_fails E good bad rest t).
Qed.

Lemma generateExamSeries_unreadable_file_witness :
  let notes := {| file_name := str "notes.pdf"; file_type := str "application/pdf" |} in
  let scan := {| file_name := str "scan.png"; file_type := str "image/png" |} in
  let E := {| clock := fun n => Z.of_nat n;
              getOssResponse := fun _ _ => Returns wellFormedResponse;
              fileToBase64 := fun file =>
                if bool_decide (file_name file = str "scan.png")
                then Throws (OtherValue JNull) else Returns (str "QUJD") |} in
  generateExamSeries E (str "Algebra Basics") [] [notes; scan; notes] twoExams 30 initialWorld
  = (Throws (ErrorInstance (Error
       (str "Failed to process file scan.png. Please ensure the file is not corrupted and try again."))),
     {| clockReads := 0;
        events := [ReadFile notes (Returns (str "QUJD"));
                   ReadFile scan (Throws (OtherValue JNull))] |}).
Proof.
  intros notes scan E.
  apply (generateExamSeries_unreadable_file E (str "Algebra Basics") [] [notes] [notes] scan
           (OtherValue JNull) twoExams 30 initialWorld).
  - repeat constructor. by exists (str "QUJD").
  - reflexivity.
Defined.

Section BuiltExams.
Import ExamSimulatorService SimulatorSettings.

Variable E : env.
Variables (seriesTopic examContentDescription : list N).
Variables (settings : SimulatorSettings.t) (examTime : Z).



Lemma spread_JObj props :
  wellFormed (JObj props) = true -> spread (JObj props) = props.
Proof.
  simpl. intros [Hkeys _]%andb_prop. apply bool_decide_eq_true in Hkeys.
  by apply (setAll_fresh props []).
Qed.



Lemma null_entry_or_none (qs : list jsval) :
  Forall (fun q => q ≠ JNull) qs \/ JNull ∈ qs.
Proof.
  induction qs as [|q qs [IH|IH]].
  - left. constructor.
  - destruct q; [right; by left|left; by constructor..].
  - right. by right.
Qed.

(** A null entry among the questions makes the mapping throw. *)
Lemma mapQuestions_null level qs : forall index,
  JNull ∈ qs -> exists t, mapQuestions settings level index qs = Throws t.
Proof.
  induction qs as [|q qs IH]; intros index Hin; [by apply elem_of_nil in Hin|].
  apply elem_of_cons in Hin as [<-|Hin]; simpl; [eauto|].
  destruct (buildQuestion settings level index q); [|eauto].
  destruct (IH (S index) Hin) as [t ->]. eauto.
Qed.


(** The exam that stands in for a response that cannot be used. *)
Definition isFallback (level : Z) (e : SimulatorExam.t) : Prop :=
  (exists t, SimulatorExam.id e = str "fallback_exam_" ++ ofZ t ++ str "_" ++ ofZ level)
  /\ SimulatorExam.questions e = JArr [fallbackQuestion seriesTopic level]
  /\ SimulatorExam.totalPoints e = JInt 100
  /\ SimulatorExam.estimatedTime e = timePerExam settings
  /\ SimulatorExam.difficultyLevel e = level.

(** A response is usable when, once cleaned, it parses to a value whose
    [questions] is an array without a null entry. *)
Definition usable (text : list N) (data : jsval) (qs : list jsval) : Prop :=
  JSON_parse (cleanJsonResponse text) = Some data
  /\ prop data (str "questions") = Some (JArr qs)
  /\ Forall (fun q => q ≠ JNull) qs.


Lemma levelExam_unusable level text w e w' :
  (forall data qs, ~ usable text data qs) ->
  levelExam E seriesTopic settings examTime level text w = (Returns e, w') ->
  isFallback level e.
Proof.
  intros Hbad. unfold levelExam, tryCatch.
  destruct (parsedExam _ _ _ _ _ _ w) as [[e0|t] w1] eqn:Hp.
  - exfalso. revert Hp. unfold parsedExam, bind at 1, lift at 1.
    destruct (JSON_parse _) as [data|] eqn:Hparse; [|discriminate].
    unfold bind, lift, ret, throw, dateNow.
    destruct (prop data (str "questions")) as [[| | | |qs|]|] eqn:Hqs;
      try (destruct data; discriminate).
    destruct (null_entry_or_none qs) as [Hnotin|Hin].
    + intros _. by apply (Hbad data qs).
    + destruct (mapQuestions_null level qs 0 Hin) as [t ->]. destruct data; discriminate.
  - unfold fallbackExam, bind, ret, dateNow. intros Heq. simplify_eq. simpl.
    split; [eauto|]. by repeat split.
Qed.

End BuiltExams.

Section LevelsOfASeries.
Import ExamSimulatorService SimulatorSettings.

(** The exam of a level in a series that was returned, when the
    capability answers the prompt of that level with one text. *)
Lemma exam_of_level E seriesTopic examContentDescription files settings examTime
  w series w' level text :
  generateExamSeries E seriesTopic examContentDescription files settings examTime w
  = (Returns series, w') ->
  (1 <= level <= numberOfExams settings)%Z ->
  (forall history,
      getOssResponse E history
        (createExamSeriesPrompt examContentDescription settings (hasFilesOf files) level)
      = Returns text) ->
  exists e w0 w0',
    ExamSeries.exams series !! Z.to_nat (level - 1) = Some e
    /\ levelExam E seriesTopic settings examTime level text w0 = (Returns e, w0').
Proof.
  intros Hrun Hlevel Htext.
  apply generateExamSeries_returns in Hrun as (_ & _ & Hall).
  assert (seqZ 1 (numberOfExams settings) !! Z.to_nat (level - 1) = Some level) as Hlook.
  { rewrite lookup_seqZ. split; lia. }
  destruct (Forall2_lookup_l _ _ _ _ _ Hall Hlook) as (e & He & Hout).
  destruct Hout as (history & text' & w0 & w0' & Hresp & Hexam).
  rewrite Htext in Hresp. simplify_eq. eauto.
Qed.

End LevelsOfASeries.




(** X17. When the text that comes back for a level is not usable (it
    does not parse once cleaned, or what it parses to has no array of
    questions, or that array has a null entry), the exam of that level
    is the fallback exam: one sample question worth 100 points, and the
    time of [settings.timePerExam] rather than [examTime]. *)
Theorem unusable_response_gives_the_fallback
  (E : env) (seriesTopic examContentDescription : list N) (files : list File)
  (settings : SimulatorSettings.t) (examTime : Z) (w w' : world) (series : ExamSeries.t)
  (level : Z) (text : list N) :
  generateExamSeries E seriesTopic examContentDescription files settings examTime w
  = (Returns series, w') ->
  (1 <= level <= SimulatorSettings.numberOfExams settings)%Z ->
  (forall history,
      getOssResponse E history
        (createExamSeriesPrompt examContentDescription settings (hasFilesOf files) level)
      = Returns text) ->
  (forall data qs, ~ usable text data qs) ->
  exists e,
    ExamSeries.exams series !! Z.to_nat (level - 1) = Some e
    /\ isFallback seriesTopic settings level e.
Proof.
  intros Hrun Hlevel Htext Hbad.
  destruct (exam_of_level _ _ _ _ _ _ _ _ _ _ _ Hrun Hlevel Htext) as (e & w0 & w0' & He & Hexam).
  exists e. split; [assumption|]. by eapply levelExam_unusable.
Qed.

Definition nullQuestionResponse : list N :=
  str "{" ++ quoted "questions" ++ str ": [{" ++ quoted "question" ++ str ": "
  ++ quoted "Solve 2x = 4" ++ str "}, null]}".

Lemma unusable_response_gives_the_fallback_witness :
  exists series w' e,
    generateExamSeries (stubEnv (fun _ => Returns nullQuestionResponse))
      (str "Algebra Basics") (str "covers linear equations") [] twoExams 30 initialWorld
    = (Returns series, w')
    /\ is_Some (JSON_parse (cleanJsonResponse nullQuestionResponse))
    /\ ExamSeries.exams series !! 0%nat = Some e
    /\ SimulatorExam.questions e = JArr [fallbackQuestion (str "Algebra Basics") 1]
    /\ SimulatorExam.estimatedTime e = None.
Proof.
  destruct (generateExamSeries (stubEnv (fun _ => Returns nullQuestionResponse))
              (str "Algebra Basics") (str "covers linear equations") [] twoExams 30
              initialWorld) as [[series|t] w'] eqn:Hrun;
    [|vm_compute in Hrun; discriminate].
  destruct (unusable_response_gives_the_fallback _ _ _ _ _ _ _ _ _ 1 nullQuestionResponse Hrun)
    as (e & He & _ & Hq & _ & Htime & _).
  - simpl. lia.
  - reflexivity.
  - intros data qs (Hparse & Hqs & Hnull).
    vm_compute in Hparse. injection Hparse as <-. vm_compute in Hqs. injection Hqs as <-.
    apply Forall_cons in Hnull as [_ Hnull]. apply Forall_cons in Hnull as [Hnull _].
    by apply Hnull.
  - exists series, w', e. split; [reflexivity|]. split; [vm_compute; eauto|].
    split; [exact He|]. split; [exact Hq|exact Htime].
Defined.

(** ** A level whose response cannot be used *)

Lemma unparseable_unusable text :
  JSON_parse (cleanJsonResponse text) = None -> forall data qs, ~ usable text data qs.
Proof. intros Hbad data qs (Hparse & _). congruence. Qed.

(** C5, amended. In a series of three levels, when the text that comes
    back for level 2 is not usable (cleaned, it does not parse, or what
    it parses to has no array of questions, or that array has a null
    entry) and the capability answers every level, the series has three
    exams and the one of level 2 is the fallback: one question, the
    label of level 2. *)
Theorem unusable_level_gives_fallback
  (E : env) (seriesTopic examContentDescription : list N) (files : list File)
  (settings : SimulatorSettings.t) (examTime : Z) (w : world) (text2 : list N) :
  SimulatorSettings.numberOfExams settings = 3%Z ->
  trim examContentDescription ≠ [] \/ files ≠ [] ->
  Forall (readable E) files ->
  (forall history prompt, exists text, getOssResponse E history prompt = Returns text) ->
  (forall history,
      getOssResponse E history
        (createExamSeriesPrompt examContentDescription settings (hasFilesOf files) 2)
      = Returns text2) ->
  (forall data qs, ~ usable text2 data qs) ->
  exists series w' e1 e2 e3,
    generateExamSeries E seriesTopic examContentDescription files settings examTime w
    = (Returns series, w')
    /\ ExamSeries.exams series = [e1; e2; e3]
    /\ SimulatorExam.difficultyLevel e2 = 2%Z
    /\ SimulatorExam.questions e2 = JArr [fallbackQuestion seriesTopic 2]
    /\ SimulatorExam.difficultyLabel e2 = str "Beginner".
Proof.
  intros Hn Hinput Hfiles Hret Htwo Hbad.
  destruct (generateExamSeries_total E seriesTopic examContentDescription files settings
              examTime w Hinput Hfiles Hret) as (series & w' & Hrun).
  exists series, w'.
  pose proof (generateExamSeries_returns _ _ _ _ _ _ _ _ _ Hrun) as (_ & _ & Hall).
  rewrite Hn in Hall. change (seqZ 1 3) with [1; 2; 3]%Z in Hall.
  inversion Hall as [|l1 e1 ? rest1 _ Hall1]; subst.
  inversion Hall1 as [|l2 e2 ? rest2 Hone Hall2]; subst.
  inversion Hall2 as [|l3 e3 ? rest3 _ Hall3]; subst.
  inversion Hall3; subst.
  exists e1, e2, e3. repeat split; try assumption; try congruence.
  - apply levelOutcome_level in Hone. tauto.
  - destruct Hone as (history & text & w0 & w0' & Hresp & Hexam).
    rewrite Htwo in Hresp. simplify_eq.
    by destruct (levelExam_unusable _ _ _ _ _ _ _ _ _ Hbad Hexam) as (_ & Hq & _).
  - apply levelOutcome_level in Hone as [_ ->]. reflexivity.
Qed.

Lemma unusable_level_gives_fallback_witness :
  exists series w' e1 e2 e3,
    generateExamSeries (levelTwoStub (Returns (str "I could not produce {an exam")))
      (str "Algebra Basics") (str "covers linear equations") [] threeExams 30 initialWorld
    = (Returns series, w')
    /\ ExamSeries.exams series = [e1; e2; e3]
    /\ SimulatorExam.difficultyLevel e2 = 2%Z
    /\ SimulatorExam.questions e2 = JArr [fallbackQuestion (str "Algebra Basics") 2]
    /\ SimulatorExam.difficultyLabel e2 = str "Beginner".
Proof.
  apply (unusable_level_gives_fallback
           (levelTwoStub (Returns (str "I could not produce {an exam")))
           (str "Algebra Basics") (str "covers linear equations") [] threeExams 30
           initialWorld (str "I could not produce {an exam")).
  - reflexivity.
  - left. vm_compute. discriminate.
  - constructor.
  - intros history prompt. simpl. destruct (decide _); eexists; reflexivity.
  - intros history. vm_compute. reflexivity.
  - apply unparseable_unusable. vm_compute. reflexivity.
Defined.

Definition noQuestionsResponse : list N :=
  str "oops {" ++ quoted "a" ++ str ":1}".

(** A text that parses once cleaned, to a value without questions, is
    replaced by the fallback as well. *)
Example parseable_level_gives_fallback :
  is_Some (JSON_parse (cleanJsonResponse noQuestionsResponse))
  /\ questionsOfSecond
       (generateExamSeries (levelTwoStub (Returns noQuestionsResponse))
          (str "Algebra Basics") (str "covers linear equations") [] threeExams 30
          initialWorld)
     = Some (JArr [fallbackQuestion (str "Algebra Basics") 2]).
Proof. split; vm_compute; [eauto|reflexivity]. Qed.

(** * The generators of the learning road *)

Section GeneratedPaths.
Import LearningRoadService.
Variable E : env.

(** The world after a request that was answered. *)
Definition answered (w : world) (prompt text : list N) : world :=
  {| clockReads := clockReads w;
     events := events w ++ [Request prompt (Returns text)] |}.

Lemma renumberStep_keeps index step k x :
  k ≠ str "step" -> wellFormed step = true ->
  prop step k = Some x -> prop (renumberStep index step) k = Some x.
Proof.
  intros Hk Hrep Hx. destruct step as [| | | | |props]; try discriminate.
  unfold renumberStep. rewrite spread_JObj by done.
  simpl in *. by rewrite obj_get_set_ne.
Qed.

Lemma validatedPath_usable cleanedText props l w :
  JSON_parse cleanedText = Some (JObj props) ->
  obj_get (str "steps") props = Some (JArr l) ->
  validatedPath E cleanedText w
  = (Returns (JObj (obj_set (str "steps") (JArr (imap renumberStep l))
                      (obj_set (str "id")
                         (JStr (str "path_" ++ ofZ (clock E (clockReads w)))) props))),
     {| clockReads := S (clockReads w); events := events w |}).
Proof.
  intros Hparse Hsteps. unfold validatedPath, bind, lift, dateNow, ret.
  rewrite Hparse.
  rewrite spread_JObj by by eapply JSON_parse_wellFormed.
  cbn [prop]. by rewrite Hsteps.
Qed.

Lemma validatedPath_unusable cleanedText w :
  (forall props l,
      ~ (JSON_parse cleanedText = Some (JObj props)
         /\ obj_get (str "steps") props = Some (JArr l))) ->
  exists t w', validatedPath E cleanedText w = (Throws t, w')
               /\ events w' = events w.
Proof.
  intros Hbad. unfold validatedPath, bind, lift, dateNow, ret.
  destruct (JSON_parse cleanedText) as [learningPath|] eqn:Hparse; [|by eauto].
  destruct learningPath as [| | | | |props]; try (by eauto).
  simpl. destruct (obj_get (str "steps") props) as [[| | | |l|]|] eqn:Hsteps; try (by eauto).
  by destruct (Hbad props l).
Qed.

Lemma validatedPath_events cleanedText w o w' :
  validatedPath E cleanedText w = (o, w') -> events w' = events w.
Proof.
  unfold validatedPath, bind, lift, dateNow, ret.
  repeat case_match; intros; simplify_eq; reflexivity.
Qed.

End GeneratedPaths.

(** X18. When the text that comes back for a learning path parses, once
    cleaned, to an object whose [steps] is an array, the path returned is
    that object with a new id [path_<time>], whatever id the response
    carried: its other properties are those of the response, and its
    steps are those of the response, as many and in the same order, each
    with its other properties unchanged. Nothing checks that the
    properties a learning path should have are there. *)
Theorem usable_response_gives_its_path
  (E : env) (topic language text : list N) (w : world)
  (props : list (list N * jsval)) (l : list jsval) :
  getOssResponse E (events w)
    (LearningRoadService.createLearningPathPrompt topic
       (LanguageService.getLanguageNameByCode language)) = Returns text ->
  JSON_parse (LearningRoadService.cleanJsonResponse text) = Some (JObj props) ->
  obj_get (str "steps") props = Some (JArr l) ->
  exists path w' steps,
    LearningRoadService.generateLearningPath E topic language w = (Returns path, w')
    /\ prop path (str "id") = Some (JStr (str "path_" ++ ofZ (clock E (clockReads w))))
    /\ (forall k, k ≠ str "id" -> k ≠ str "steps" -> prop path k = obj_get k props)
    /\ prop path (str "steps") = Some (JArr steps)
    /\ length steps = length l
    /\ forall (i : nat) step step' k x,
         l !! i = Some step -> steps !! i = Some step' ->
         k ≠ str "step" -> prop step k = Some x -> prop step' k = Some x.
Proof.
  intros Hreq Hparse Hsteps.
  pose proof (JSON_parse_wellFormed _ _ Hparse) as Hrep.
  assert (wellFormed (JArr l) = true) as Hrepl by by eapply obj_get_wellFormed.
  eexists _, _, (imap LearningRoadService.renumberStep l).
  split.
  { unfold LearningRoadService.generateLearningPath, tryCatch at 1, bind at 1, awaitOss.
    rewrite Hreq. unfold tryCatch.
    by rewrite (validatedPath_usable E _ props l _ Hparse Hsteps). }
  split; [|split; [|split; [|split]]].
  - simpl. rewrite obj_get_set_ne by discriminate. apply obj_get_set_eq.
  - intros k Hid Hst. simpl. by rewrite !obj_get_set_ne.
  - simpl. apply obj_get_set_eq.
  - apply length_imap.
  - intros i step step' k x Hstep Hstep' Hk Hx.
    rewrite list_lookup_imap, Hstep in Hstep'. simpl in Hstep'. simplify_eq.
    apply renumberStep_keeps; [done| |done].
    simpl in Hrepl. rewrite forallb_forall in Hrepl. apply Hrepl, list_elem_of_In.
    by eapply list_elem_of_lookup_2.
Qed.

Lemma usable_response_gives_its_path_witness :
  exists path w' steps step',
    LearningRoadService.generateLearningPath (stubEnv (fun _ => Returns pathResponse))
      (str "Algebra Basics") (str "en") initialWorld = (Returns path, w')
    /\ prop path (str "id") = Some (JStr (str "path_1700000000000"))
    /\ prop path (str "topic") = Some (JStr (str "Algebra Basics"))
    /\ prop path (str "steps") = Some (JArr steps)
    /\ steps !! 1%nat = Some step'
    /\ prop step' (str "title") = Some (JStr (str "Equations")).
Proof.
  destruct (JSON_parse (LearningRoadService.cleanJsonResponse pathResponse))
    as [[| | | | |props]|] eqn:Hparse; try (vm_compute in Hparse; discriminate Hparse).
  destruct (obj_get (str "steps") props) as [[| | | |l|]|] eqn:Hsteps;
    try (vm_compute in Hparse; injection Hparse as <-; vm_compute in Hsteps; discriminate Hsteps).
  destruct (usable_response_gives_its_path (stubEnv (fun _ => Returns pathResponse))
              (str "Algebra Basics") (str "en") pathResponse initialWorld props l
              eq_refl Hparse Hsteps)
    as (path & w' & steps & Hrun & Hid & Hother & Hst & Hlen & Hkeep).
  vm_compute in Hparse. injection Hparse as <-. vm_compute in Hsteps. injection Hsteps as <-.
  destruct steps as [|s1 [|s2 [|s3 steps]]]; try discriminate Hlen.
  exists path, w', [s1; s2], s2.
  split; [exact Hrun|]. split; [exact Hid|].
  split; [rewrite Hother; [reflexivity|discriminate|discriminate]|].
  split; [exact Hst|]. split; [reflexivity|].
  apply (Hkeep 1%nat _ s2 (str "title") _ eq_refl eq_refl); [discriminate|reflexivity].
Defined.

(** X19. When the text that comes back for a learning path cannot be
    used (it does not parse once cleaned, or what it parses to is not an
    object whose [steps] is an array), the path returned is the one of
    [createFallbackLearningPath]: three steps about the topic asked for,
    under an id [fallback_<time>]. *)
Theorem unusable_response_gives_the_fallback_path
  (E : env) (topic language text : list N) (w : world) :
  getOssResponse E (events w)
    (LearningRoadService.createLearningPathPrompt topic
       (LanguageService.getLanguageNameByCode language)) = Returns text ->
  (forall props l,
      ~ (JSON_parse (LearningRoadService.cleanJsonResponse text) = Some (JObj props)
         /\ obj_get (str "steps") props = Some (JArr l))) ->
  exists path w0 w' t steps,
    LearningRoadService.generateLearningPath E topic language w = (Returns path, w')
    /\ LearningRoadService.createFallbackLearningPath E topic w0 = (Returns path, w')
    /\ prop path (str "id") = Some (JStr (str "fallback_" ++ ofZ t))
    /\ prop path (str "topic") = Some (JStr topic)
    /\ prop path (str "steps") = Some (JArr steps)
    /\ length steps = 3%nat.
Proof.
  intros Hreq Hbad.
  unfold LearningRoadService.generateLearningPath, tryCatch at 1, bind at 1, awaitOss.
  rewrite Hreq. unfold tryCatch.
  match goal with |- context [LearningRoadService.validatedPath E ?c ?w0] =>
    destruct (validatedPath_unusable E c w0 Hbad) as (t & w1 & -> & _) end.
  eexists _, w1, _, _, _. split; [reflexivity|]. split; [reflexivity|].
  by repeat split.
Qed.

Lemma unusable_response_gives_the_fallback_path_witness :
  exists path w',
    LearningRoadService.generateLearningPath
      (stubEnv (fun _ => Returns (str "{" ++ quoted "steps" ++ str ": 3}")))
      (str "Algebra Basics") (str "en") initialWorld = (Returns path, w')
    /\ prop path (str "id") = Some (JStr (str "fallback_1700000000001"))
    /\ prop path (str "topic") = Some (JStr (str "Algebra Basics")).
Proof.
  destruct (unusable_response_gives_the_fallback_path
              (stubEnv (fun _ => Returns (str "{" ++ quoted "steps" ++ str ": 3}")))
              (str "Algebra Basics") (str "en") (str "{" ++ quoted "steps" ++ str ": 3}")
              initialWorld eq_refl)
    as (path & w0 & w' & t & steps & Hrun & Hfall & Hid & Htopic & _).
  { intros props l [Hparse Hsteps]. vm_compute in Hparse. injection Hparse as <-.
    vm_compute in Hsteps. discriminate. }
  exists path, w'. split; [exact Hrun|].
  vm_compute in Hrun. injection Hrun as <- <-. split; reflexivity.
Defined.

Section GeneratedQuizzes.
Import LearningRoadService.
Variable E : env.

(** A question of a quiz at position [index], stamped at time [now],
    against the question [q] of the response. *)
Definition stamped (now : Z) (index : nat) (q q' : jsval) : Prop :=
  prop q' (str "id")
  = Some (JStr (str "quiz_" ++ ofZ now ++ str "_" ++ ofZ (Z.of_nat index)))
  /\ forall k x, k ≠ str "id" -> prop q k = Some x -> prop q' k = Some x.

Lemma stampQuestions_run l : forall index w,
  Forall (fun q => wellFormed q = true) l ->
  exists qs,
    stampQuestions E index l w
    = (Returns qs, {| clockReads := clockReads w + length l; events := events w |})
    /\ length qs = length l
    /\ forall (i : nat) q q',
         l !! i = Some q -> qs !! i = Some q' ->
         stamped (clock E (clockReads w + i)) (index + i) q q'.
Proof.
  induction l as [|q l IH]; intros index w Hrep.
  - exists []. simpl. unfold ret. rewrite Nat.add_0_r. destruct w.
    split; [reflexivity|]. split; [reflexivity|]. intros i q q' Hq. by destruct i.
  - apply Forall_cons in Hrep as [Hq Hl].
    cbn [stampQuestions]. unfold bind at 1, dateNow.
    destruct (IH (S index) {| clockReads := S (clockReads w); events := events w |} Hl)
      as (qs & Hrun & Hlen & Hall).
    unfold bind at 1. rewrite Hrun. cbn [clockReads events] in *.
    eexists. split.
    { unfold ret.
      replace (clockReads w + length (q :: l))%nat with (S (clockReads w) + length l)%nat
        by (simpl; lia).
      reflexivity. }
    split; [simpl; by rewrite Hlen|].
    intros [|i] q0 q0' Hq0 Hq0'; simpl in Hq0, Hq0'; simplify_eq.
    + rewrite !Nat.add_0_r. split.
      * simpl. apply obj_get_set_eq.
      * intros k x Hk Hx. destruct q0 as [| | | | |props]; try discriminate.
        rewrite spread_JObj by done. simpl in *. by rewrite obj_get_set_ne.
    + replace (clockReads w + S i)%nat with (S (clockReads w) + i)%nat by lia.
      replace (index + S i)%nat with (S index + i)%nat by lia.
      by apply Hall.
Qed.

Lemma createFallbackQuiz_run topic stepTitle w :
  exists q,
    createFallbackQuiz E topic stepTitle w
    = (Returns (JArr [q]), {| clockReads := S (clockReads w); events := events w |})
    /\ prop q (str "id")
       = Some (JStr (str "fallback_quiz_" ++ ofZ (clock E (clockReads w))))
    /\ prop q (str "question")
       = Some (JStr (str "What is the most important concept to understand in " ++ dq
                     ++ stepTitle ++ dq ++ str "?"))
    /\ prop q (str "correctAnswer") = Some (JInt 2).
Proof. eexists. split; [reflexivity|]. by repeat split. Qed.

End GeneratedQuizzes.

(** X20. When the text that comes back for a quiz parses, once cleaned,
    to an array, the quiz returned has one question for each entry of the
    array, in the same order; the question at index [i] has the id
    [quiz_<time>_<i>], the time being read anew for each question, and
    the other properties of the entry. An empty array gives an empty
    quiz, not the fallback question. *)
Theorem parsed_array_gives_its_quiz
  (E : env) (topic stepTitle language text : list N) (w : world) (l : list jsval) :
  getOssResponse E (events w)
    (LearningRoadService.createQuizPrompt topic stepTitle
       (LanguageService.getLanguageNameByCode language)) = Returns text ->
  JSON_parse (LearningRoadService.cleanJsonResponse text) = Some (JArr l) ->
  exists qs w',
    LearningRoadService.generateQuiz E topic stepTitle language w = (Returns (JArr qs), w')
    /\ length qs = length l
    /\ forall (i : nat) q q',
         l !! i = Some q -> qs !! i = Some q' ->
         stamped (clock E (clockReads w + i)) i q q'.
Proof.
  intros Hreq Hparse.
  pose proof (JSON_parse_wellFormed _ _ Hparse) as Hrep.
  assert (Forall (fun q => wellFormed q = true) l) as Hall.
  { simpl in Hrep. rewrite forallb_forall in Hrep. apply Forall_forall.
    intros q Hq. by apply Hrep, list_elem_of_In. }
  unfold LearningRoadService.generateQuiz, tryCatch at 1, bind at 1, awaitOss.
  rewrite Hreq. unfold tryCatch, bind at 1, lift. rewrite Hparse. cbv beta iota.
  unfold bind, ret.
  match goal with |- context [LearningRoadService.stampQuestions E 0 l ?w0] =>
    destruct (stampQuestions_run E l 0 w0 Hall) as (qs & Hrun & Hlen & Hqs) end.
  rewrite Hrun. eauto.
Qed.

Definition quizResponse : list N :=
  str "Here is the quiz: [{" ++ quoted "id" ++ str ": " ++ quoted "a" ++ str ", "
  ++ quoted "question" ++ str ": " ++ quoted "What is x in 2x = 4?" ++ str "}, {"
  ++ quoted "question" ++ str ": " ++ quoted "What is x in 3x = 9?" ++ str "}]".

Lemma parsed_array_gives_its_quiz_witness :
  exists q1 q2 w',
    LearningRoadService.generateQuiz (stubEnv (fun _ => Returns quizResponse))
      (str "Algebra Basics") (str "Equations") (str "en") initialWorld
    = (Returns (JArr [q1; q2]), w')
    /\ prop q1 (str "id") = Some (JStr (str "quiz_1700000000000_0"))
    /\ prop q2 (str "id") = Some (JStr (str "quiz_1700000000001_1"))
    /\ prop q2 (str "question") = Some (JStr (str "What is x in 3x = 9?")).
Proof.
  destruct (JSON_parse (LearningRoadService.cleanJsonResponse quizResponse))
    as [[| | | |l|]|] eqn:Hparse; try (vm_compute in Hparse; discriminate Hparse).
  destruct (parsed_array_gives_its_quiz (stubEnv (fun _ => Returns quizResponse))
              (str "Algebra Basics") (str "Equations") (str "en") quizResponse
              initialWorld l eq_refl Hparse)
    as (qs & w' & Hrun & Hlen & Hall).
  vm_compute in Hparse. injection Hparse as <-.
  destruct qs as [|q1 [|q2 [|q3 qs]]]; try discriminate Hlen.
  destruct (Hall 0%nat _ q1 eq_refl eq_refl) as [Hid1 _].
  destruct (Hall 1%nat _ q2 eq_refl eq_refl) as [Hid2 Hkeep2].
  exists q1, q2, w'. split; [exact Hrun|]. split; [exact Hid1|]. split; [exact Hid2|].
  apply Hkeep2; [discriminate|reflexivity].
Defined.

(** X21. When the text that comes back for a quiz cannot be used (it
    does not parse once cleaned, or it parses to something that is not an
    array), the quiz returned is the one of [createFallbackQuiz]: a
    single question about the step, whose right answer is the option at
    index 2. *)
Theorem unusable_response_gives_the_fallback_quiz
  (E : env) (topic stepTitle language text : list N) (w : world) :
  getOssResponse E (events w)
    (LearningRoadService.createQuizPrompt topic stepTitle
       (LanguageService.getLanguageNameByCode language)) = Returns text ->
  (forall l, JSON_parse (LearningRoadService.cleanJsonResponse text) ≠ Some (JArr l)) ->
  exists q w0 w',
    LearningRoadService.generateQuiz E topic stepTitle language w = (Returns (JArr [q]), w')
    /\ LearningRoadService.createFallbackQuiz E topic stepTitle w0 = (Returns (JArr [q]), w')
    /\ prop q (str "question")
       = Some (JStr (str "What is the most important concept to understand in " ++ dq
                     ++ stepTitle ++ dq ++ str "?"))
    /\ prop q (str "correctAnswer") = Some (JInt 2).
Proof.
  intros Hreq Hbad.
  unfold LearningRoadService.generateQuiz, tryCatch at 1, bind at 1, awaitOss.
  rewrite Hreq. unfold tryCatch, bind at 1, lift.
  destruct (JSON_parse _) as [questions|] eqn:Hparse.
  - destruct questions as [| | | |l|]; try (eexists _, _, _; by repeat split).
    by destruct (Hbad l).
  - eexists _, _, _. by repeat split.
Qed.

Lemma unusable_response_gives_the_fallback_quiz_witness :
  exists q w',
    LearningRoadService.generateQuiz
      (stubEnv (fun _ => Returns (str "{" ++ quoted "questions" ++ str ": []}")))
      (str "Algebra Basics") (str "Equations") (str "en") initialWorld
    = (Returns (JArr [q]), w')
    /\ prop q (str "id") = Some (JStr (str "fallback_quiz_1700000000000")).
Proof.
  destruct (unusable_response_gives_the_fallback_quiz
              (stubEnv (fun _ => Returns (str "{" ++ quoted "questions" ++ str ": []}")))
              (str "Algebra Basics") (str "Equations") (str "en")
              (str "{" ++ quoted "questions" ++ str ": []}") initialWorld eq_refl)
    as (q & w0 & w' & Hrun & _).
  { intros l Hparse. vm_compute in Hparse. discriminate Hparse. }
  exists q, w'. split; [exact Hrun|].
  vm_compute in Hrun. injection Hrun as <- <-. reflexivity.
Defined.

Section Settling.
Import LearningRoadService.
Variable E : env.

(** A generator that asks once and settles: it returns when the request
    is answered and rejects, with an [Error] whose message is [what]
    followed by the message of what was thrown, when the request
    throws. *)
Definition settles (what : string) (prompt : list N) (run : M jsval) (w : world) : Prop :=
  exists w',
    events w' = events w ++ [Request prompt (getOssResponse E (events w) prompt)]
    /\ match getOssResponse E (events w) prompt with
       | Returns _ => exists v, run w = (Returns v, w')
       | Throws t => run w = (Throws (failure what t), w')
       end.

End Settling.

(** X22. [generateLearningPath] and [generateQuiz] make one request and
    never a second one. They return whenever the request is answered,
    whatever the answer, and reject only when the request throws: then
    with a new [Error] whose message is "Failed to generate learning
    path: " or "Failed to generate quiz: " followed by the message of the
    error thrown, or by "Unknown error" when what was thrown is not an
    [Error]. *)
Theorem path_and_quiz_reject_only_when_the_request_throws
  (E : env) (topic stepTitle language : list N) (w : world) :
  settles E "Failed to generate learning path: "
    (LearningRoadService.createLearningPathPrompt topic
       (LanguageService.getLanguageNameByCode language))
    (LearningRoadService.generateLearningPath E topic language) w
  /\ settles E "Failed to generate quiz: "
       (LearningRoadService.createQuizPrompt topic stepTitle
          (LanguageService.getLanguageNameByCode language))
       (LearningRoadService.generateQuiz E topic stepTitle language) w.
Proof.
  split; unfold settles.
  - destruct (getOssResponse E (events w) _) as [text|t] eqn:Hreq.
    + unfold LearningRoadService.generateLearningPath, tryCatch at 1, bind at 1, awaitOss.
      rewrite Hreq. unfold tryCatch.
      match goal with |- context [LearningRoadService.validatedPath E ?c ?w0] =>
        destruct (LearningRoadService.validatedPath E c w0) as [[validated|t] w1] eqn:Hval end;
        apply validatedPath_events in Hval.
      * exists w1. split; [exact Hval|eauto].
      * eexists. split; [|eexists; reflexivity]. exact Hval.
    + eexists. split.
      2: { unfold LearningRoadService.generateLearningPath, tryCatch, bind, awaitOss.
           rewrite Hreq. reflexivity. }
      reflexivity.
  - destruct (getOssResponse E (events w) _) as [text|t] eqn:Hreq.
    + unfold LearningRoadService.generateQuiz, tryCatch at 1, bind at 1, awaitOss.
      rewrite Hreq. unfold tryCatch, bind at 1, lift.
      destruct (JSON_parse _) as [questions|] eqn:Hparse;
        [|eexists; split; [|eexists; reflexivity]; reflexivity].
      destruct questions as [| | | |l|];
        try (eexists; split; [|eexists; reflexivity]; reflexivity).
      pose proof (JSON_parse_wellFormed _ _ Hparse) as Hrep.
      assert (Forall (fun q => wellFormed q = true) l) as Hall.
      { simpl in Hrep. rewrite forallb_forall in Hrep. apply Forall_forall.
        intros q Hq. by apply Hrep, list_elem_of_In. }
      unfold bind, ret.
      match goal with |- context [LearningRoadService.stampQuestions E 0 l ?w0] =>
        destruct (stampQuestions_run E l 0 w0 Hall) as (qs & Hrun & _) end.
      rewrite Hrun. eexists. split; [|eexists; reflexivity]. reflexivity.
    + eexists. split.
      2: { unfold LearningRoadService.generateQuiz, tryCatch, bind, awaitOss.
           rewrite Hreq. reflexivity. }
      reflexivity.
Qed.

Section GeneratedMaterial.
Import LearningRoadService.
Variable E : env.
Variable generateContent : list event -> list N -> outcome (list N).

Lemma getGeminiResponse_run prompt w :
  getGeminiResponse generateContent prompt w
  = (match generateContent (events w) prompt with
     | Returns text => Returns text
     | Throws _ =>
         Throws (ErrorInstance (Error (str "Failed to extract text from the image.")))
     end,
     {| clockReads := clockReads w;
        events := events w ++ [Request prompt (generateContent (events w) prompt)] |}).
Proof.
  unfold getGeminiResponse, tryCatch, throw.
  by destruct (generateContent (events w) prompt).
Qed.

End GeneratedMaterial.

(** X23. However the call of the model fails, [generateLearningMaterial]
    rejects with the same [Error], whose message is "Failed to generate
    learning material: Failed to extract text from the image.": the
    message of what the call threw is lost. The call is made once. *)
Theorem generateLearningMaterial_loses_the_cause
  (E : env) (generateContent : list event -> list N -> outcome (list N))
  (topic stepTitle stepDescription : list N) (keyTopics : list (list N))
  (language : list N) (w : world) (t : thrown) :
  let prompt :=
    LearningRoadService.createLearningMaterialPrompt topic stepTitle stepDescription
      keyTopics (LanguageService.getLanguageNameByCode language) in
  generateContent (events w) prompt = Throws t ->
  LearningRoadService.generateLearningMaterial E generateContent topic stepTitle
    stepDescription keyTopics language w
  = (Throws (ErrorInstance (Error
       (str "Failed to generate learning material: Failed to extract text from the image."))),
     {| clockReads := clockReads w;
        events := events w ++ [Request prompt (Throws t)] |}).
Proof.
  intros prompt Hcall.
  unfold LearningRoadService.generateLearningMaterial, tryCatch at 1, bind at 1.
  fold prompt. rewrite getGeminiResponse_run, Hcall. reflexivity.
Qed.

Lemma generateLearningMaterial_loses_the_cause_witness :
  fst (LearningRoadService.generateLearningMaterial (stubEnv (fun _ => Returns []))
         (fun _ _ => Throws (ErrorInstance (Error (str "429 quota exceeded"))))
         (str "Algebra Basics") (str "Equations") (str "Solving for x")
         [str "variables"; str "balance"] (str "en") initialWorld)
  = Throws (ErrorInstance (Error
      (str "Failed to generate learning material: Failed to extract text from the image."))).
Proof.
  by rewrite (generateLearningMaterial_loses_the_cause (stubEnv (fun _ => Returns []))
                (fun _ _ => Throws (ErrorInstance (Error (str "429 quota exceeded"))))
                (str "Algebra Basics") (str "Equations") (str "Solving for x")
                [str "variables"; str "balance"] (str "en") initialWorld
                (ErrorInstance (Error (str "429 quota exceeded"))) eq_refl).
Defined.

(** X24. When the model answers, [generateLearningMaterial] returns.
    If the answer, once cleaned, parses as JSON, whatever it parses to,
    the material is a copy of that value under the new id
    [material_<time>], with the other properties the value has; nothing
    checks it is a learning material. Only an answer that does not parse
    gives the material of [createFallbackLearningMaterial]. *)
Theorem generateLearningMaterial_returns_what_parses
  (E : env) (generateContent : list event -> list N -> outcome (list N))
  (topic stepTitle stepDescription : list N) (keyTopics : list (list N))
  (language text : list N) (w : world) :
  generateContent (events w)
    (LearningRoadService.createLearningMaterialPrompt topic stepTitle stepDescription
       keyTopics (LanguageService.getLanguageNameByCode language)) = Returns text ->
  exists material w',
    LearningRoadService.generateLearningMaterial E generateContent topic stepTitle
      stepDescription keyTopics language w = (Returns material, w')
    /\ match JSON_parse (LearningRoadService.cleanJsonResponse text) with
       | Some v =>
           prop material (str "id")
           = Some (JStr (str "material_" ++ ofZ (clock E (clockReads w))))
           /\ forall k x, k ≠ str "id" -> prop v k = Some x -> prop material k = Some x
       | None =>
           exists w0,
             LearningRoadService.createFallbackLearningMaterial E topic stepTitle
               stepDescription w0 = (Returns material, w')
             /\ prop material (str "id")
                = Some (JStr (str "fallback_material_" ++ ofZ (clock E (clockReads w))))
       end.
Proof.
  intros Hcall.
  unfold LearningRoadService.generateLearningMaterial, tryCatch at 1, bind at 1.
  rewrite getGeminiResponse_run, Hcall.
  unfold tryCatch, bind at 1, lift.
  destruct (JSON_parse _) as [v|] eqn:Hparse.
  - eexists _, _. split; [reflexivity|]. split.
    + simpl. apply obj_get_set_eq.
    + intros k x Hk Hx. destruct v as [| | | | |props]; try discriminate.
      rewrite spread_JObj by by eapply JSON_parse_wellFormed.
      simpl in *. by rewrite obj_get_set_ne.
  - eexists _, _. split; [reflexivity|]. eexists. split; reflexivity.
Qed.

Lemma generateLearningMaterial_returns_what_parses_witness :
  exists material w',
    LearningRoadService.generateLearningMaterial (stubEnv (fun _ => Returns []))
      (fun _ _ => Returns (str "[1, 2]"))
      (str "Algebra Basics") (str "Equations") (str "Solving for x")
      [str "variables"; str "balance"] (str "en") initialWorld
    = (Returns material, w')
    /\ prop material (str "id") = Some (JStr (str "material_1700000000000"))
    /\ prop material (str "sections") = None.
Proof.
  destruct (generateLearningMaterial_returns_what_parses (stubEnv (fun _ => Returns []))
              (fun _ _ => Returns (str "[1, 2]"))
              (str "Algebra Basics") (str "Equations") (str "Solving for x")
              [str "variables"; str "balance"] (str "en") (str "[1, 2]") initialWorld
              eq_refl) as (material & w' & Hrun & Hparsed).
  exists material, w'. split; [exact Hrun|].
  split; [exact (proj1 Hparsed)|].
  vm_compute in Hrun. injection Hrun as <- <-. reflexivity.
Defined.

(** * Text around a payload *)

(** Case analysis on the comparisons of integers in the goal. *)
Ltac decide_comparisons :=
  repeat (match goal with
          | |- context [(?a >? ?b)%Z] =>
              rewrite (Z.gtb_ltb a b); destruct (Z.ltb_spec b a); try lia
          | |- context [(?a <? ?b)%Z] => destruct (Z.ltb_spec a b); try lia
          | |- context [(?a =? ?b)%Z] => destruct (Z.eqb_spec a b); try lia
          end;
          cbn [negb andb orb]; cbv beta iota).

Section SurroundedText.
Import ExamSimulatorService.

Lemma indexOfFrom_skip pre a rest : forall i,
  a ∉ pre ->
  indexOfFrom (pre ++ rest) [a] i = indexOfFrom rest [a] (i + Z.of_nat (length pre))%Z.
Proof.
  induction pre as [|c pre IH]; intros i Hnotin; simpl app.
  - simpl. by rewrite Z.add_0_r.
  - apply not_elem_of_cons in Hnotin as [Hne Hnotin].
    cbn [indexOfFrom startsWith]. apply not_eq_sym, N.eqb_neq in Hne. rewrite Hne. simpl.
    rewrite IH by done. f_equal. simpl length. lia.
Qed.

Lemma indexOf_first pre a rest :
  a ∉ pre -> indexOf (pre ++ a :: rest) [a] = Z.of_nat (length pre).
Proof.
  intros Hnotin. unfold indexOf. rewrite indexOfFrom_skip by done.
  cbn [indexOfFrom startsWith]. by rewrite N.eqb_refl.
Qed.

Lemma indexOf_none s a : a ∉ s -> indexOf s [a] = (-1)%Z.
Proof.
  intros Hnotin. unfold indexOf.
  rewrite <- (app_nil_r s), indexOfFrom_skip by done. reflexivity.
Qed.

Lemma indexOf_behind pre o rest a :
  a ∉ pre -> o ≠ a ->
  indexOf (pre ++ o :: rest) [a] = (-1)%Z
  \/ (Z.of_nat (length pre) < indexOf (pre ++ o :: rest) [a])%Z.
Proof.
  intros Hnotin Hne. unfold indexOf. rewrite indexOfFrom_skip by done.
  cbn [indexOfFrom startsWith]. apply N.eqb_neq in Hne. rewrite Hne. simpl.
  destruct (indexOfFrom_range rest [a] (0 + Z.of_nat (length pre) + 1)%Z) as [->|Hle];
    [by left|right; lia].
Qed.

Lemma lastIndexOfFrom_none post a : forall i found,
  a ∉ post -> lastIndexOfFrom post [a] i found = found.
Proof.
  induction post as [|c post IH]; intros i found Hnotin; [reflexivity|].
  apply not_elem_of_cons in Hnotin as [Hne Hnotin].
  cbn [lastIndexOfFrom startsWith]. apply not_eq_sym, N.eqb_neq in Hne. rewrite Hne. simpl.
  by apply IH.
Qed.

Lemma lastIndexOfFrom_final pre a post : forall i found,
  a ∉ post ->
  lastIndexOfFrom (pre ++ a :: post) [a] i found = (i + Z.of_nat (length pre))%Z.
Proof.
  induction pre as [|c pre IH]; intros i found Hnotin.
  - cbn [app lastIndexOfFrom startsWith]. rewrite N.eqb_refl. simpl.
    rewrite lastIndexOfFrom_none by done. lia.
  - cbn [app lastIndexOfFrom]. rewrite IH by done. simpl length. lia.
Qed.

Lemma lastIndexOf_final pre a post :
  a ∉ post -> lastIndexOf (pre ++ a :: post) [a] = Z.of_nat (length pre).
Proof. intros Hnotin. unfold lastIndexOf. by rewrite lastIndexOfFrom_final. Qed.

(** A text between a head whose code units all satisfy [P] and a tail
    whose code units all satisfy [Q]. *)
Definition surrounded (P Q : N -> Prop) (s : list N) (text : list N) : Prop :=
  exists pre post, text = pre ++ s ++ post /\ Forall P pre /\ Forall Q post.

Lemma trimStart_keeps P pre s c rest :
  s = c :: rest -> isWhiteSpace c = false -> Forall P pre ->
  exists pre', trimStart (pre ++ s) = pre' ++ s /\ Forall P pre'.
Proof.
  intros -> Hc. induction 1 as [|x pre Hx Hpre IH].
  - exists []. simpl. by rewrite Hc.
  - simpl. destruct (isWhiteSpace x); [exact IH|].
    exists (x :: pre). split; [reflexivity|by constructor].
Qed.

Lemma trimEnd_keeps Q s post c front :
  s = front ++ [c] -> isWhiteSpace c = false -> Forall Q post ->
  exists post', trimEnd (s ++ post) = s ++ post' /\ Forall Q post'.
Proof.
  intros Hs Hc Hpost. unfold trimEnd. rewrite rev_app_distr.
  destruct (trimStart_keeps Q (rev post) (rev s) c (rev front)) as (post' & Heq & Hpost').
  - by rewrite Hs, rev_app_distr.
  - exact Hc.
  - by apply List.Forall_rev.
  - exists (rev post'). rewrite Heq, rev_app_distr, rev_involutive.
    split; [reflexivity|by apply List.Forall_rev].
Qed.

Lemma startsWith_within pre c rest p :
  startsWith (pre ++ c :: rest) p = true -> c ∉ p -> (length p <= length pre)%nat.
Proof.
  revert pre. induction p as [|a p IH]; intros pre Hstarts Hnotin; [simpl; lia|].
  apply not_elem_of_cons in Hnotin as [Hne Hnotin].
  destruct pre as [|x pre]; simpl in Hstarts.
  - apply andb_prop in Hstarts as [Heq%N.eqb_eq _]. done.
  - apply andb_prop in Hstarts as [_ Hrest]. simpl. apply IH in Hrest; [lia|done].
Qed.

Section Stages.
Variables (P Q : N -> Prop) (o c : N) (mid : list N).
Hypothesis Hopen : isWhiteSpace o = false.
Hypothesis Hclose : isWhiteSpace c = false.
Hypothesis Hopen_tick : o ∉ str "```json".
Hypothesis Hclose_tick : c ∉ str "```".

Let payload := o :: mid ++ [c].

Lemma trim_surrounded text :
  surrounded P Q payload text -> surrounded P Q payload (trim text).
Proof.
  intros (pre & post & -> & Hpre & Hpost). unfold trim.
  destruct (trimStart_keeps P pre (payload ++ post) o ((mid ++ [c]) ++ post))
    as (pre' & -> & Hpre'); [reflexivity|done|done|].
  rewrite app_assoc.
  destruct (trimEnd_keeps Q (pre' ++ payload) post c (pre' ++ o :: mid))
    as (post' & -> & Hpost'); [|done|done|].
  - unfold payload. by rewrite <- app_assoc.
  - exists pre', post'. by rewrite <- app_assoc.
Qed.

Lemma drop_surrounded n pre post :
  (n <= length pre)%nat -> Forall P pre -> Forall Q post ->
  surrounded P Q payload (substringFrom (pre ++ payload ++ post) (Z.of_nat n)).
Proof.
  intros Hn Hpre Hpost. rewrite substringFrom_drop by (rewrite length_app; lia).
  exists (drop n pre), post. rewrite drop_app_le by done.
  split; [reflexivity|]. split; [by apply Forall_drop|done].
Qed.

Lemma stripOpening_surrounded text :
  surrounded P Q payload text -> surrounded P Q payload (stripOpening text).
Proof.
  intros (pre & post & -> & Hpre & Hpost). unfold stripOpening.
  destruct (startsWith _ (str "```json")) eqn:Htagged.
  - apply (drop_surrounded 7); [|done|done].
    apply (startsWith_within pre o ((mid ++ [c]) ++ post)) in Htagged; done.
  - destruct (startsWith _ (str "```")) eqn:Hplain; [|by exists pre, post].
    apply (drop_surrounded 3); [|done|done].
    apply (startsWith_within pre o ((mid ++ [c]) ++ post)) in Hplain; [done|].
    intros Hin. apply Hopen_tick.
    change (str "```json") with (str "```" ++ str "json"). apply elem_of_app. by left.
Qed.

Lemma stripClosing_surrounded text :
  surrounded P Q payload text -> surrounded P Q payload (stripClosing text).
Proof.
  intros (pre & post & -> & Hpre & Hpost). unfold stripClosing.
  destruct (endsWith _ (str "```")) eqn:Hends; [|by exists pre, post].
  assert (3 <= length post)%nat as Hlen.
  { unfold endsWith in Hends. rewrite !rev_app_distr in Hends.
    unfold payload in Hends.
    change (o :: mid ++ [c]) with ((o :: mid) ++ [c]) in Hends.
    rewrite rev_app_distr in Hends. simpl rev at 2 in Hends.
    rewrite <- !app_assoc in Hends. simpl app at 2 in Hends.
    change (rev (str "```")) with (str "```") in Hends.
    apply startsWith_within in Hends; [|done].
    rewrite length_rev in Hends. exact Hends. }
  assert (3 <= length (pre ++ payload ++ post))%nat as Hlen'
    by (rewrite !length_app; lia).
  replace (Z.of_nat (length (pre ++ payload ++ post)) - 3)%Z
    with (Z.of_nat (length (pre ++ payload ++ post) - 3)) by lia.
  rewrite substring_take by lia.
  exists pre, (take (length post - 3) post).
  split; [|split; [done|by apply Forall_take]].
  rewrite !app_assoc. rewrite take_app_ge by (rewrite !length_app; lia).
  do 2 f_equal. rewrite !length_app. lia.
Qed.

End Stages.

Lemma substring_middle pre s post :
  substring (pre ++ s ++ post) (Z.of_nat (length pre))
    (Z.of_nat (length pre + length s))
  = s.
Proof.
  unfold substring, clampIndex. rewrite !length_app.
  rewrite (Z.min_l (Z.of_nat (length pre))), Z.max_r, Nat2Z.id by lia.
  rewrite (Z.min_l (Z.of_nat (length pre + length s))), Z.max_r, Nat2Z.id by lia.
  rewrite Nat.min_l, Nat.max_r by lia.
  rewrite drop_app_length.
  replace (length pre + length s - length pre)%nat with (length s) by lia.
  by rewrite take_app_length.
Qed.

(** The delimiters of an object and of an array. *)
Definition delimiters (o c : N) : Prop :=
  (o = ch "{" /\ c = ch "}") \/ (o = ch "[" /\ c = ch "]").

Lemma extractJson_surrounded o c mid text :
  delimiters o c ->
  surrounded (fun x => x ≠ ch "{" /\ x ≠ ch "[") (fun x => x ≠ c) (o :: mid ++ [c]) text ->
  extractJson text = o :: mid ++ [c].
Proof.
  intros Hdel (pre & post & -> & Hpre & Hpost).
  assert ((ch "{" ∉ pre) /\ (ch "[" ∉ pre)) as [Hbrace Hbracket].
  { rewrite Forall_forall in Hpre. split; intros Hin; by destruct (Hpre _ Hin). }
  assert (c ∉ post) as Hc.
  { rewrite Forall_forall in Hpost. intros Hin. by destruct (Hpost _ Hin). }
  assert (tight (o :: mid ++ [c])) as Htight.
  { exists o, mid, c. destruct Hdel as [[-> ->]|[-> ->]]; by repeat split. }
  set (s := pre ++ (o :: mid ++ [c]) ++ post).
  assert (s = pre ++ o :: (mid ++ [c]) ++ post) as Hs by reflexivity.
  assert (lastIndexOf s [c] = Z.of_nat (length pre + length (o :: mid))) as Hlast.
  { replace s with ((pre ++ o :: mid) ++ c :: post)
      by (unfold s; simpl; rewrite <- !app_assoc; reflexivity).
    rewrite lastIndexOf_final by done. by rewrite length_app. }
  assert (substring s (Z.of_nat (length pre))
            (Z.of_nat (length pre + length (o :: mid)) + 1)
          = o :: mid ++ [c]) as Hcut.
  { replace (Z.of_nat (length pre + length (o :: mid)) + 1)%Z
      with (Z.of_nat (length pre + length (o :: mid ++ [c])))
      by (simpl; rewrite length_app; simpl; lia).
    apply substring_middle. }
  assert (0 <= Z.of_nat (length pre) < Z.of_nat (length pre + length (o :: mid)))%Z
    as Hspan by (simpl length; lia).
  unfold extractJson.
  change (str "{") with [ch "{"]. change (str "[") with [ch "["].
  change (str "}") with [ch "}"]. change (str "]") with [ch "]"].
  destruct Hdel as [[-> ->]|[-> ->]].
  - assert (indexOf s [ch "{"] = Z.of_nat (length pre)) as Hopen
      by (rewrite Hs; by apply indexOf_first).
    assert (indexOf s [ch "["] = (-1)%Z
            \/ (Z.of_nat (length pre) < indexOf s [ch "["])%Z) as Hother
      by (rewrite Hs; by apply indexOf_behind).
    rewrite Hopen, Hlast.
    revert Hother. generalize (indexOf s [ch "["]) as other. intros other Hother.
    decide_comparisons; (rewrite Hcut; by apply trim_tight_id).
  - assert (indexOf s [ch "["] = Z.of_nat (length pre)) as Hopen
      by (rewrite Hs; by apply indexOf_first).
    assert (indexOf s [ch "{"] = (-1)%Z
            \/ (Z.of_nat (length pre) < indexOf s [ch "{"])%Z) as Hother
      by (rewrite Hs; by apply indexOf_behind).
    rewrite Hopen, Hlast.
    revert Hother. generalize (indexOf s [ch "{"]) as other. intros other Hother.
    decide_comparisons; (rewrite Hcut; by apply trim_tight_id).
Qed.

End SurroundedText.

(** X25. Text before and after the payload is dropped: when an object or
    an array stands between a head with no opening brace or bracket and a
    tail that does not hold its closing delimiter, [cleanJsonResponse],
    of either service, gives exactly the object or the array, whatever
    else head and tail hold (prose, fences, white space). *)
Theorem cleanJsonResponse_drops_the_surrounding_text
  (pre mid post : list N) (o c : N) :
  delimiters o c ->
  ch "{" ∉ pre -> ch "[" ∉ pre -> c ∉ post ->
  ExamSimulatorService.cleanJsonResponse (pre ++ (o :: mid ++ [c]) ++ post)
  = o :: mid ++ [c]
  /\ LearningRoadService.cleanJsonResponse (pre ++ (o :: mid ++ [c]) ++ post)
     = o :: mid ++ [c].
Proof.
  intros Hdel Hbrace Hbracket Hc.
  assert (ExamSimulatorService.cleanJsonResponse (pre ++ (o :: mid ++ [c]) ++ post)
          = o :: mid ++ [c]) as Hclean.
  { rewrite cleanJsonResponse_stages. apply extractJson_surrounded; [done|].
    assert (isWhiteSpace o = false /\ isWhiteSpace c = false
            /\ (o ∉ str "```json") /\ (c ∉ str "```")) as (Ho & Hcw & Hot & Hct).
    { destruct Hdel as [[-> ->]|[-> ->]];
        (split; [reflexivity|]; split; [reflexivity|]);
        split; apply (bool_decide_unpack _); vm_compute; reflexivity. }
    apply trim_surrounded; [done|done|].
    apply stripClosing_surrounded; [done|].
    apply stripOpening_surrounded; [done|].
    apply trim_surrounded; [done|done|].
    exists pre, post. split; [reflexivity|]. split.
    - apply Forall_forall. intros x Hx. split; by intros ->.
    - apply Forall_forall. intros x Hx. by intros ->. }
  split; exact Hclean.
Qed.

Lemma cleanJsonResponse_drops_the_surrounding_text_witness :
  ExamSimulatorService.cleanJsonResponse
    (str "Sure! Here is the exam:" ++ [10] ++ str "```json" ++ [10]
     ++ str "{" ++ quoted "title" ++ str ": " ++ quoted "Algebra" ++ str "}"
     ++ [10] ++ str "``` Let me know if you need more.")
  = str "{" ++ quoted "title" ++ str ": " ++ quoted "Algebra" ++ str "}".
Proof.
  refine (proj1 (cleanJsonResponse_drops_the_surrounding_text
                   (str "Sure! Here is the exam:" ++ [10] ++ str "```json" ++ [10])
                   (quoted "title" ++ str ": " ++ quoted "Algebra")
                   ([10] ++ str "``` Let me know if you need more.")
                   (ch "{") (ch "}") _ _ _ _)).
  - by left.
  - apply (bool_decide_unpack _). vm_compute. reflexivity.
  - apply (bool_decide_unpack _). vm_compute. reflexivity.
  - apply (bool_decide_unpack _). vm_compute. reflexivity.
Defined.

Lemma first_delimiter (s : list N) :
  ch "[" ∈ s \/ ch "{" ∈ s ->
  exists pre o rest,
    s = pre ++ o :: rest /\ (o = ch "[" \/ o = ch "{")
    /\ (ch "[" ∉ pre) /\ (ch "{" ∉ pre).
Proof.
  induction s as [|x s IH]; intros Hin.
  - destruct Hin as [Hin|Hin]; by apply elem_of_nil in Hin.
  - destruct (decide (x = ch "[")) as [->|Hbracket];
      [exists [], (ch "["), s; repeat split; auto using not_elem_of_nil|].
    destruct (decide (x = ch "{")) as [->|Hbrace];
      [exists [], (ch "{"), s; repeat split; auto using not_elem_of_nil|].
    destruct IH as (pre & o & rest & -> & Ho & Hpre1 & Hpre2).
    { destruct Hin as [Hin|Hin]; apply elem_of_cons in Hin as [Heq|Hin]; auto; by subst. }
    exists (x :: pre), o, rest. split; [reflexivity|]. split; [exact Ho|].
    split; apply not_elem_of_cons; split; auto.
Qed.

Lemma cleanAndParseJson_from pre o rest :
  o = ch "[" \/ o = ch "{" -> ch "[" ∉ pre -> ch "{" ∉ pre ->
  ModelService.cleanAndParseJson (pre ++ o :: rest) = Returns (o :: rest).
Proof.
  intros Ho Hbracket Hbrace.
  unfold ModelService.cleanAndParseJson.
  change (str "{") with [ch "{"]. change (str "[") with [ch "["].
  assert (substringFrom (pre ++ o :: rest) (Z.of_nat (length pre)) = o :: rest) as Hcut.
  { rewrite substringFrom_drop by (rewrite length_app; lia). apply drop_app_length. }
  assert (0 <= Z.of_nat (length pre))%Z as Hpos by lia.
  destruct Ho as [-> | ->].
  - rewrite (indexOf_first pre (ch "[")) by done.
    destruct (indexOf_behind pre (ch "[") rest (ch "{") Hbrace) as [->|Hlater];
      [discriminate| |].
    + decide_comparisons; by rewrite Hcut.
    + revert Hlater. generalize (indexOf (pre ++ ch "[" :: rest) [ch "{"]) as other.
      intros other Hlater.
      decide_comparisons; rewrite Z.min_l by lia; decide_comparisons; by rewrite Hcut.
  - rewrite (indexOf_first pre (ch "{")) by done.
    destruct (indexOf_behind pre (ch "{") rest (ch "[") Hbracket) as [->|Hlater];
      [discriminate| |].
    + decide_comparisons; by rewrite Hcut.
    + revert Hlater. generalize (indexOf (pre ++ ch "{" :: rest) [ch "["]) as other.
      intros other Hlater.
      decide_comparisons; rewrite Z.min_r by lia; decide_comparisons; by rewrite Hcut.
Qed.

(** X26. [cleanAndParseJson] parses nothing: of a text that holds an
    opening bracket or brace it returns what stands from the first of
    them to the very end of the text, whatever follows the payload; of a
    text that holds neither it throws an [Error] with the message
    "Invalid JSON format in the AI response.". *)
Theorem cleanAndParseJson_cuts_at_the_first_delimiter (rawResponseText : list N) :
  (ch "[" ∈ rawResponseText \/ ch "{" ∈ rawResponseText ->
   exists pre o rest,
     rawResponseText = pre ++ o :: rest
     /\ (o = ch "[" \/ o = ch "{") /\ (ch "[" ∉ pre) /\ (ch "{" ∉ pre)
     /\ ModelService.cleanAndParseJson rawResponseText = Returns (o :: rest))
  /\ ((ch "[" ∉ rawResponseText) -> (ch "{" ∉ rawResponseText) ->
      ModelService.cleanAndParseJson rawResponseText
      = Throws (ErrorInstance (Error (str "Invalid JSON format in the AI response.")))).
Proof.
  split.
  - intros Hin. destruct (first_delimiter _ Hin) as (pre & o & rest & -> & Ho & H1 & H2).
    exists pre, o, rest. repeat (split; [done|]). by apply cleanAndParseJson_from.
  - intros Hbracket Hbrace. unfold ModelService.cleanAndParseJson.
    change (str "{") with [ch "{"]. change (str "[") with [ch "["].
    by rewrite !indexOf_none.
Qed.

(** * The clocks *)

Section Clocks.
Import ExamSimulatorView ExamSimulator.

(** The two digits of a number below 60. *)
Definition twoDigits (n : Z) : list N :=
  [Z.to_N (48 + n / 10); Z.to_N (48 + n mod 10)].

Lemma padStart_twoDigits n :
  (0 <= n < 60)%Z -> padStart (ofZ n) 2 (str "0") = twoDigits n.
Proof.
  intros Hn.
  assert (Forall (fun n => padStart (ofZ n) 2 (str "0") = twoDigits n) (seqZ 0 60)) as Hall.
  { apply (bool_decide_unpack _). vm_compute. reflexivity. }
  rewrite Forall_forall in Hall. apply Hall, elem_of_seqZ. lia.
Qed.

Lemma twoDigits_inj m n :
  (0 <= m < 60)%Z -> (0 <= n < 60)%Z -> twoDigits m = twoDigits n -> m = n.
Proof.
  intros Hm Hn Heq. unfold twoDigits in Heq. injection Heq as Htens Hunits.
  apply Z2N.inj in Htens; [|apply Z.add_nonneg_nonneg; [lia|apply Z.div_pos; lia]..].
  apply Z2N.inj in Hunits;
    [|apply Z.add_nonneg_nonneg; [lia|apply Z.mod_pos_bound; lia]..].
  rewrite (Z.div_mod m 10), (Z.div_mod n 10) by lia. lia.
Qed.

Lemma ofZ_no_colon z : ch ":" ∉ ofZ z.
Proof.
  assert (forall ds, forallb isDigit ds = true -> ch ":" ∉ ds) as Hdigits.
  { intros ds Hds Hin. rewrite forallb_forall in Hds.
    apply list_elem_of_In, Hds in Hin. vm_compute in Hin. discriminate. }
  destruct (ofZ_digits z) as [->|(sign & d & ds & -> & Hsign & Hd & _ & Hds)].
  - intros Hin%list_elem_of_singleton. discriminate.
  - intros Hin. apply elem_of_app in Hin as [Hin|Hin].
    + destruct Hsign as [-> | ->].
      * by apply elem_of_nil in Hin.
      * apply list_elem_of_singleton in Hin. discriminate.
    + apply (Hdigits (d :: ds)); [|done]. simpl. by rewrite Hd, Hds.
Qed.

(** Two texts cut at their first colon. *)
Lemma first_colon a b r r' :
  ch ":" ∉ a -> ch ":" ∉ b -> a ++ ch ":" :: r = b ++ ch ":" :: r' -> a = b /\ r = r'.
Proof.
  revert b. induction a as [|x a IH]; intros b Ha Hb Heq.
  - destruct b as [|y b]; simpl in Heq.
    + by injection Heq as ->.
    + injection Heq as <- _. by apply not_elem_of_cons in Hb as [[] _].
  - apply not_elem_of_cons in Ha as [Hx Ha].
    destruct b as [|y b]; simpl in Heq.
    + injection Heq as -> _. done.
    + injection Heq as -> Heq. apply not_elem_of_cons in Hb as [_ Hb].
      destruct (IH b Ha Hb Heq) as [-> ->]. done.
Qed.

(** The hours, minutes and seconds of a time that is not negative. *)
Lemma formatTime_fields seconds :
  (0 <= seconds)%Z ->
  formatTime seconds
  = if (seconds / 3600 >? 0)%Z
    then ofZ (seconds / 3600) ++ ch ":" :: twoDigits (seconds mod 3600 / 60)
         ++ ch ":" :: twoDigits (seconds mod 60)
    else ofZ (seconds / 60) ++ ch ":" :: twoDigits (seconds mod 60).
Proof.
  intros Hpos. unfold formatTime.
  rewrite !Z.rem_mod_nonneg by lia.
  rewrite !padStart_twoDigits
    by (try apply Z.mod_pos_bound; try (split; [apply Z.div_pos|apply Z.div_lt_upper_bound];
        pose proof (Z.mod_pos_bound seconds 3600); lia); lia).
  destruct (seconds / 3600 >? 0)%Z eqn:Hhours; [reflexivity|].
  assert (seconds / 3600 = 0)%Z as Hzero.
  { rewrite Z.gtb_ltb in Hhours. apply Z.ltb_ge in Hhours.
    pose proof (Z.div_pos seconds 3600). lia. }
  assert (seconds mod 3600 = seconds)%Z as ->; [|reflexivity].
  rewrite Z.mod_eq by lia. lia.
Qed.

Lemma formatElapsedTime_fields seconds :
  (0 <= seconds)%Z ->
  formatElapsedTime seconds = ofZ (seconds / 60) ++ ch ":" :: twoDigits (seconds mod 60).
Proof.
  intros Hpos. unfold formatElapsedTime.
  rewrite Z.rem_mod_nonneg by lia.
  by rewrite padStart_twoDigits by (apply Z.mod_pos_bound; lia).
Qed.

End Clocks.

(** X27. [formatTime] writes different times differently: two whole,
    non-negative numbers of seconds below 2^53 with the same text are
    the same number. *)
Theorem formatTime_unambiguous (a b : Z) :
  safeInteger a -> safeInteger b -> (0 <= a)%Z -> (0 <= b)%Z ->
  ExamSimulatorView.formatTime a = ExamSimulatorView.formatTime b -> a = b.
Proof.
  intros _ _ Ha Hb. rewrite !formatTime_fields by done.
  pose proof (Z.mod_pos_bound a 60) as Hsa. pose proof (Z.mod_pos_bound b 60) as Hsb.
  pose proof (Z.mod_pos_bound a 3600) as Hra. pose proof (Z.mod_pos_bound b 3600) as Hrb.
  assert (0 <= a mod 3600 / 60 < 60)%Z as Hma
    by (split; [apply Z.div_pos|apply Z.div_lt_upper_bound]; lia).
  assert (0 <= b mod 3600 / 60 < 60)%Z as Hmb
    by (split; [apply Z.div_pos|apply Z.div_lt_upper_bound]; lia).
  destruct (a / 3600 >? 0)%Z eqn:Hha, (b / 3600 >? 0)%Z eqn:Hhb; intros Heq;
    apply first_colon in Heq as [Hfirst Hrest]; try apply ofZ_no_colon.
  - apply ofZ_inj in Hfirst.
    injection Hrest as H1 H2 H3 H4.
    assert (a mod 3600 / 60 = b mod 3600 / 60)%Z as Hm
      by (apply twoDigits_inj; [done|done|unfold twoDigits; congruence]).
    assert (a mod 60 = b mod 60)%Z as Hs
      by (apply twoDigits_inj; [lia|lia|unfold twoDigits; congruence]).
    clear -Ha Hb Hfirst Hm Hs. Z.div_mod_to_equations. lia.
  - discriminate Hrest.
  - discriminate Hrest.
  - apply ofZ_inj in Hfirst.
    assert (a mod 60 = b mod 60)%Z as Hs by (apply twoDigits_inj; [lia|lia|done]).
    clear -Ha Hb Hfirst Hs. Z.div_mod_to_equations. lia.
Qed.

Lemma formatTime_unambiguous_witness :
  ExamSimulatorView.formatTime 3599 ≠ ExamSimulatorView.formatTime 215940.
Proof.
  intros Heq.
  pose proof (formatTime_unambiguous 3599 215940 ltac:(unfold safeInteger; lia)
                ltac:(unfold safeInteger; lia) ltac:(lia) ltac:(lia) Heq) as Hsame.
  discriminate Hsame.
Defined.

(** X28. Under an hour the clock of the generator page and the clock of
    the exam page write a whole, non-negative number of seconds the same
    way; from an hour on, and below 2^53, they never do: the first keeps
    counting the minutes, the second starts counting the hours. *)
Theorem formatElapsedTime_agrees_under_an_hour (seconds : Z) :
  safeInteger seconds -> (0 <= seconds)%Z ->
  ExamSimulator.formatElapsedTime seconds = ExamSimulatorView.formatTime seconds
  <-> (seconds < 3600)%Z.
Proof.
  intros _ Hpos. rewrite formatElapsedTime_fields, formatTime_fields by done.
  destruct (seconds / 3600 >? 0)%Z eqn:Hhours.
  - apply Z.gtb_lt in Hhours.
    assert (3600 <= seconds)%Z as Hlong.
    { destruct (Z.lt_ge_cases seconds 3600) as [Hlt|Hge]; [|done].
      rewrite Z.div_small in Hhours by lia. lia. }
    split; [|lia]. intros Heq.
    apply first_colon in Heq as [_ Hrest]; try apply ofZ_no_colon.
    discriminate Hrest.
  - split; [|done]. intros _.
    rewrite Z.gtb_ltb in Hhours. apply Z.ltb_ge in Hhours.
    destruct (Z.lt_ge_cases seconds 3600) as [Hlt|Hge]; [done|].
    pose proof (Z.div_le_lower_bound seconds 3600 1). lia.
Qed.

Lemma formatElapsedTime_agrees_under_an_hour_witness :
  ExamSimulator.formatElapsedTime 754 = ExamSimulatorView.formatTime 754
  /\ ExamSimulator.formatElapsedTime 754 = str "12:34".
Proof.
  split; [|vm_compute; reflexivity].
  apply (formatElapsedTime_agrees_under_an_hour 754); [unfold safeInteger|..]; lia.
Defined.
